(** * dz12: a console contact manager

    A shallow embedding of [dz12.py] and the properties of its fields,
    records, address book and command loop.

    Conventions of the embedding.
    - A Python [str] is a Rocq [string] that holds the UTF-8 bytes of the
      text; [len], [isdigit], [lower], [split], [int] and the [\d] of
      [strptime] go by its characters, with the character classes of
      Python 3.11.  [None] is the [None] of an [option].
    - A raised exception is the [Raise] of a [result]; the exception classes
      the program can meet are the constructors of [exn].  Messages of
      library exceptions are those of Python 3.11, except where Python
      quotes an argument with [repr]; those places say so.
    - A [Field] object has the single attribute [value], so a field is
      represented by that value; an object changed in place is replaced
      where it is stored.
    - The module-level [address_book], the file system, the console and the
      clock read by [datetime.now()] are threaded explicitly.  The console
      is the list of lines still to be read and the list of values given to
      [print]; the prompts of [input] are not recorded.  The file system
      says where each path leads and what the files hold; its messages are
      those of Linux. *)

From Stdlib Require Import String Ascii List ZArith Bool Lia DecimalString.
Import ListNotations.

Local Open Scope string_scope.
Local Open Scope Z_scope.

(** ** Exceptions and results *)

Inductive exn : Type :=
| ValueError (msg : string)
| TypeError (msg : string)
| IndexError (msg : string)
| KeyError (key : string)
| ZeroDivisionError (msg : string)
| FileNotFoundError (msg : string)
| IsADirectoryError (msg : string)
| NotADirectoryError (msg : string)
| UnicodeEncodeError (msg : string)
| JSONDecodeError (msg : string)
| EOFError (msg : string).

(** [except ValueError]: [json.JSONDecodeError] and [UnicodeEncodeError] are
    subclasses of it. *)
Definition is_ValueError (e : exn) : bool :=
  match e with
  | ValueError _ | JSONDecodeError _ | UnicodeEncodeError _ => true
  | _ => false
  end.

(** [str(e)].  For a [KeyError] Python shows the [repr] of the key, written
    here for keys free of quotes and escapes. *)
Definition exn_str (e : exn) : string :=
  match e with
  | ValueError m | TypeError m | IndexError m | ZeroDivisionError m
  | FileNotFoundError m | IsADirectoryError m | NotADirectoryError m
  | UnicodeEncodeError m | JSONDecodeError m | EOFError m => m
  | KeyError k => "'" ++ k ++ "'"
  end.

Inductive result (A : Type) : Type :=
| Ok (a : A)
| Raise (e : exn).
Arguments Ok {A} a.
Arguments Raise {A} e.

Definition bind {A B : Type} (r : result A) (k : A -> result B) : result B :=
  match r with
  | Ok a => k a
  | Raise e => Raise e
  end.

Notation "'let*' x ':=' r 'in' k" := (bind r (fun x => k))
  (at level 10, x pattern, r at level 100, k at level 200).

(** ** Characters

    The classes of characters the string methods go by, as the Unicode
    database of Python 3.11 (Unicode 14.0) has them.  A table lists ranges
    of code points, both ends included. *)

Module Unicode.

(** The characters of [str.isspace]. *)
Definition SPACE : list (Z * Z) :=
  [(9, 13); (28, 32); (133, 133); (160, 160); (5760, 5760); (8192, 8202);
   (8232, 8233); (8239, 8239); (8287, 8287); (12288, 12288)].

(** The characters of [str.isdigit]: those of Numeric_Type Decimal or Digit. *)
Definition DIGIT : list (Z * Z) :=
  [(48, 57); (178, 179); (185, 185); (1632, 1641); (1776, 1785); (1984, 1993);
   (2406, 2415); (2534, 2543); (2662, 2671); (2790, 2799); (2918, 2927);
   (3046, 3055); (3174, 3183); (3302, 3311); (3430, 3439); (3558, 3567);
   (3664, 3673); (3792, 3801); (3872, 3881); (4160, 4169); (4240, 4249);
   (4969, 4977); (6112, 6121); (6160, 6169); (6470, 6479); (6608, 6618);
   (6784, 6793); (6800, 6809); (6992, 7001); (7088, 7097); (7232, 7241);
   (7248, 7257); (8304, 8304); (8308, 8313); (8320, 8329); (9312, 9320);
   (9332, 9340); (9352, 9360); (9450, 9450); (9461, 9469); (9471, 9471);
   (10102, 10110); (10112, 10120); (10122, 10130); (42528, 42537);
   (43216, 43225); (43264, 43273); (43472, 43481); (43504, 43513);
   (43600, 43609); (44016, 44025); (65296, 65305); (66720, 66729);
   (68160, 68163); (68912, 68921); (69216, 69224); (69714, 69722);
   (69734, 69743); (69872, 69881); (69942, 69951); (70096, 70105);
   (70384, 70393); (70736, 70745); (70864, 70873); (71248, 71257);
   (71360, 71369); (71472, 71481); (71904, 71913); (72016, 72025);
   (72784, 72793); (73040, 73049); (73120, 73129); (92768, 92777);
   (92864, 92873); (93008, 93017); (120782, 120831); (123200, 123209);
   (123632, 123641); (125264, 125273); (127232, 127242); (130032, 130041)].

(** The characters of [str.isdecimal], which [int] reads and the [\d] of [re]
    takes: runs of the ten digits of a script, zero first. *)
Definition DECIMAL : list (Z * Z) :=
  [(48, 57); (1632, 1641); (1776, 1785); (1984, 1993); (2406, 2415);
   (2534, 2543); (2662, 2671); (2790, 2799); (2918, 2927); (3046, 3055);
   (3174, 3183); (3302, 3311); (3430, 3439); (3558, 3567); (3664, 3673);
   (3792, 3801); (3872, 3881); (4160, 4169); (4240, 4249); (6112, 6121);
   (6160, 6169); (6470, 6479); (6608, 6617); (6784, 6793); (6800, 6809);
   (6992, 7001); (7088, 7097); (7232, 7241); (7248, 7257); (42528, 42537);
   (43216, 43225); (43264, 43273); (43472, 43481); (43504, 43513);
   (43600, 43609); (44016, 44025); (65296, 65305); (66720, 66729);
   (68912, 68921); (69734, 69743); (69872, 69881); (69942, 69951);
   (70096, 70105); (70384, 70393); (70736, 70745); (70864, 70873);
   (71248, 71257); (71360, 71369); (71472, 71481); (71904, 71913);
   (72016, 72025); (72784, 72793); (73040, 73049); (73120, 73129);
   (92768, 92777); (92864, 92873); (93008, 93017); (120782, 120831);
   (123200, 123209); (123632, 123641); (125264, 125273); (130032, 130041)].

(** The characters [str.lower] changes: from [lo] to [hi], every [step]-th
    code point moves by [delta]. *)
Definition LOWER : list (Z * Z * Z * Z) :=
  [(65, 90, 1, 32); (192, 214, 1, 32); (216, 222, 1, 32); (256, 302, 2, 1);
   (306, 310, 2, 1); (313, 327, 2, 1); (330, 374, 2, 1); (376, 376, 1, -121);
   (377, 381, 2, 1); (385, 385, 1, 210); (386, 388, 2, 1); (390, 390, 1, 206);
   (391, 391, 1, 1); (393, 394, 1, 205); (395, 395, 1, 1); (398, 398, 1, 79);
   (399, 399, 1, 202); (400, 400, 1, 203); (401, 401, 1, 1);
   (403, 403, 1, 205); (404, 404, 1, 207); (406, 406, 1, 211);
   (407, 407, 1, 209); (408, 408, 1, 1); (412, 412, 1, 211);
   (413, 413, 1, 213); (415, 415, 1, 214); (416, 420, 2, 1);
   (422, 422, 1, 218); (423, 423, 1, 1); (425, 425, 1, 218); (428, 428, 1, 1);
   (430, 430, 1, 218); (431, 431, 1, 1); (433, 434, 1, 217); (435, 437, 2, 1);
   (439, 439, 1, 219); (440, 440, 1, 1); (444, 444, 1, 1); (452, 452, 1, 2);
   (453, 453, 1, 1); (455, 455, 1, 2); (456, 456, 1, 1); (458, 458, 1, 2);
   (459, 475, 2, 1); (478, 494, 2, 1); (497, 497, 1, 2); (498, 500, 2, 1);
   (502, 502, 1, -97); (503, 503, 1, -56); (504, 542, 2, 1);
   (544, 544, 1, -130); (546, 562, 2, 1); (570, 570, 1, 10795);
   (571, 571, 1, 1); (573, 573, 1, -163); (574, 574, 1, 10792);
   (577, 577, 1, 1); (579, 579, 1, -195); (580, 580, 1, 69);
   (581, 581, 1, 71); (582, 590, 2, 1); (880, 882, 2, 1); (886, 886, 1, 1);
   (895, 895, 1, 116); (902, 902, 1, 38); (904, 906, 1, 37);
   (908, 908, 1, 64); (910, 911, 1, 63); (913, 929, 1, 32); (931, 939, 1, 32);
   (975, 975, 1, 8); (984, 1006, 2, 1); (1012, 1012, 1, -60);
   (1015, 1015, 1, 1); (1017, 1017, 1, -7); (1018, 1018, 1, 1);
   (1021, 1023, 1, -130); (1024, 1039, 1, 80); (1040, 1071, 1, 32);
   (1120, 1152, 2, 1); (1162, 1214, 2, 1); (1216, 1216, 1, 15);
   (1217, 1229, 2, 1); (1232, 1326, 2, 1); (1329, 1366, 1, 48);
   (4256, 4293, 1, 7264); (4295, 4295, 1, 7264); (4301, 4301, 1, 7264);
   (5024, 5103, 1, 38864); (5104, 5109, 1, 8); (7312, 7354, 1, -3008);
   (7357, 7359, 1, -3008); (7680, 7828, 2, 1); (7838, 7838, 1, -7615);
   (7840, 7934, 2, 1); (7944, 7951, 1, -8); (7960, 7965, 1, -8);
   (7976, 7983, 1, -8); (7992, 7999, 1, -8); (8008, 8013, 1, -8);
   (8025, 8031, 2, -8); (8040, 8047, 1, -8); (8072, 8079, 1, -8);
   (8088, 8095, 1, -8); (8104, 8111, 1, -8); (8120, 8121, 1, -8);
   (8122, 8123, 1, -74); (8124, 8124, 1, -9); (8136, 8139, 1, -86);
   (8140, 8140, 1, -9); (8152, 8153, 1, -8); (8154, 8155, 1, -100);
   (8168, 8169, 1, -8); (8170, 8171, 1, -112); (8172, 8172, 1, -7);
   (8184, 8185, 1, -128); (8186, 8187, 1, -126); (8188, 8188, 1, -9);
   (8486, 8486, 1, -7517); (8490, 8490, 1, -8383); (8491, 8491, 1, -8262);
   (8498, 8498, 1, 28); (8544, 8559, 1, 16); (8579, 8579, 1, 1);
   (9398, 9423, 1, 26); (11264, 11311, 1, 48); (11360, 11360, 1, 1);
   (11362, 11362, 1, -10743); (11363, 11363, 1, -3814);
   (11364, 11364, 1, -10727); (11367, 11371, 2, 1); (11373, 11373, 1, -10780);
   (11374, 11374, 1, -10749); (11375, 11375, 1, -10783);
   (11376, 11376, 1, -10782); (11378, 11378, 1, 1); (11381, 11381, 1, 1);
   (11390, 11391, 1, -10815); (11392, 11490, 2, 1); (11499, 11501, 2, 1);
   (11506, 11506, 1, 1); (42560, 42604, 2, 1); (42624, 42650, 2, 1);
   (42786, 42798, 2, 1); (42802, 42862, 2, 1); (42873, 42875, 2, 1);
   (42877, 42877, 1, -35332); (42878, 42886, 2, 1); (42891, 42891, 1, 1);
   (42893, 42893, 1, -42280); (42896, 42898, 2, 1); (42902, 42920, 2, 1);
   (42922, 42922, 1, -42308); (42923, 42923, 1, -42319);
   (42924, 42924, 1, -42315); (42925, 42925, 1, -42305);
   (42926, 42926, 1, -42308); (42928, 42928, 1, -42258);
   (42929, 42929, 1, -42282); (42930, 42930, 1, -42261);
   (42931, 42931, 1, 928); (42932, 42946, 2, 1); (42948, 42948, 1, -48);
   (42949, 42949, 1, -42307); (42950, 42950, 1, -35384); (42951, 42953, 2, 1);
   (42960, 42960, 1, 1); (42966, 42968, 2, 1); (42997, 42997, 1, 1);
   (65313, 65338, 1, 32); (66560, 66599, 1, 40); (66736, 66771, 1, 40);
   (66928, 66938, 1, 39); (66940, 66954, 1, 39); (66956, 66962, 1, 39);
   (66964, 66965, 1, 39); (68736, 68786, 1, 64); (71840, 71871, 1, 32);
   (93760, 93791, 1, 32); (125184, 125217, 1, 34)].

(** The cased characters. *)
Definition CASED : list (Z * Z) :=
  [(65, 90); (97, 122); (170, 170); (181, 181); (186, 186); (192, 214);
   (216, 246); (248, 442); (444, 447); (452, 659); (661, 696); (704, 705);
   (736, 740); (837, 837); (880, 883); (886, 887); (890, 893); (895, 895);
   (902, 902); (904, 906); (908, 908); (910, 929); (931, 1013); (1015, 1153);
   (1162, 1327); (1329, 1366); (1376, 1416); (4256, 4293); (4295, 4295);
   (4301, 4301); (4304, 4346); (4349, 4351); (5024, 5109); (5112, 5117);
   (7296, 7304); (7312, 7354); (7357, 7359); (7424, 7615); (7680, 7957);
   (7960, 7965); (7968, 8005); (8008, 8013); (8016, 8023); (8025, 8025);
   (8027, 8027); (8029, 8029); (8031, 8061); (8064, 8116); (8118, 8124);
   (8126, 8126); (8130, 8132); (8134, 8140); (8144, 8147); (8150, 8155);
   (8160, 8172); (8178, 8180); (8182, 8188); (8305, 8305); (8319, 8319);
   (8336, 8348); (8450, 8450); (8455, 8455); (8458, 8467); (8469, 8469);
   (8473, 8477); (8484, 8484); (8486, 8486); (8488, 8488); (8490, 8493);
   (8495, 8500); (8505, 8505); (8508, 8511); (8517, 8521); (8526, 8526);
   (8544, 8575); (8579, 8580); (9398, 9449); (11264, 11492); (11499, 11502);
   (11506, 11507); (11520, 11557); (11559, 11559); (11565, 11565);
   (42560, 42605); (42624, 42653); (42786, 42887); (42891, 42894);
   (42896, 42954); (42960, 42961); (42963, 42963); (42965, 42969);
   (42997, 42998); (43000, 43002); (43824, 43866); (43868, 43880);
   (43888, 43967); (64256, 64262); (64275, 64279); (65313, 65338);
   (65345, 65370); (66560, 66639); (66736, 66771); (66776, 66811);
   (66928, 66938); (66940, 66954); (66956, 66962); (66964, 66965);
   (66967, 66977); (66979, 66993); (66995, 67001); (67003, 67004);
   (67456, 67456); (67459, 67461); (67463, 67504); (67506, 67514);
   (68736, 68786); (68800, 68850); (71840, 71903); (93760, 93823);
   (119808, 119892); (119894, 119964); (119966, 119967); (119970, 119970);
   (119973, 119974); (119977, 119980); (119982, 119993); (119995, 119995);
   (119997, 120003); (120005, 120069); (120071, 120074); (120077, 120084);
   (120086, 120092); (120094, 120121); (120123, 120126); (120128, 120132);
   (120134, 120134); (120138, 120144); (120146, 120485); (120488, 120512);
   (120514, 120538); (120540, 120570); (120572, 120596); (120598, 120628);
   (120630, 120654); (120656, 120686); (120688, 120712); (120714, 120744);
   (120746, 120770); (120772, 120779); (122624, 122633); (122635, 122654);
   (125184, 125251); (127280, 127305); (127312, 127337); (127344, 127369)].

(** The case-ignorable characters. *)
Definition CASE_IGNORABLE : list (Z * Z) :=
  [(39, 39); (46, 46); (58, 58); (94, 94); (96, 96); (168, 168); (173, 173);
   (175, 175); (180, 180); (183, 184); (688, 879); (884, 885); (890, 890);
   (900, 901); (903, 903); (1155, 1161); (1369, 1369); (1375, 1375);
   (1425, 1469); (1471, 1471); (1473, 1474); (1476, 1477); (1479, 1479);
   (1524, 1524); (1536, 1541); (1552, 1562); (1564, 1564); (1600, 1600);
   (1611, 1631); (1648, 1648); (1750, 1757); (1759, 1768); (1770, 1773);
   (1807, 1807); (1809, 1809); (1840, 1866); (1958, 1968); (2027, 2037);
   (2042, 2042); (2045, 2045); (2070, 2093); (2137, 2139); (2184, 2184);
   (2192, 2193); (2200, 2207); (2249, 2306); (2362, 2362); (2364, 2364);
   (2369, 2376); (2381, 2381); (2385, 2391); (2402, 2403); (2417, 2417);
   (2433, 2433); (2492, 2492); (2497, 2500); (2509, 2509); (2530, 2531);
   (2558, 2558); (2561, 2562); (2620, 2620); (2625, 2626); (2631, 2632);
   (2635, 2637); (2641, 2641); (2672, 2673); (2677, 2677); (2689, 2690);
   (2748, 2748); (2753, 2757); (2759, 2760); (2765, 2765); (2786, 2787);
   (2810, 2815); (2817, 2817); (2876, 2876); (2879, 2879); (2881, 2884);
   (2893, 2893); (2901, 2902); (2914, 2915); (2946, 2946); (3008, 3008);
   (3021, 3021); (3072, 3072); (3076, 3076); (3132, 3132); (3134, 3136);
   (3142, 3144); (3146, 3149); (3157, 3158); (3170, 3171); (3201, 3201);
   (3260, 3260); (3263, 3263); (3270, 3270); (3276, 3277); (3298, 3299);
   (3328, 3329); (3387, 3388); (3393, 3396); (3405, 3405); (3426, 3427);
   (3457, 3457); (3530, 3530); (3538, 3540); (3542, 3542); (3633, 3633);
   (3636, 3642); (3654, 3662); (3761, 3761); (3764, 3772); (3782, 3782);
   (3784, 3789); (3864, 3865); (3893, 3893); (3895, 3895); (3897, 3897);
   (3953, 3966); (3968, 3972); (3974, 3975); (3981, 3991); (3993, 4028);
   (4038, 4038); (4141, 4144); (4146, 4151); (4153, 4154); (4157, 4158);
   (4184, 4185); (4190, 4192); (4209, 4212); (4226, 4226); (4229, 4230);
   (4237, 4237); (4253, 4253); (4348, 4348); (4957, 4959); (5906, 5908);
   (5938, 5939); (5970, 5971); (6002, 6003); (6068, 6069); (6071, 6077);
   (6086, 6086); (6089, 6099); (6103, 6103); (6109, 6109); (6155, 6159);
   (6211, 6211); (6277, 6278); (6313, 6313); (6432, 6434); (6439, 6440);
   (6450, 6450); (6457, 6459); (6679, 6680); (6683, 6683); (6742, 6742);
   (6744, 6750); (6752, 6752); (6754, 6754); (6757, 6764); (6771, 6780);
   (6783, 6783); (6823, 6823); (6832, 6862); (6912, 6915); (6964, 6964);
   (6966, 6970); (6972, 6972); (6978, 6978); (7019, 7027); (7040, 7041);
   (7074, 7077); (7080, 7081); (7083, 7085); (7142, 7142); (7144, 7145);
   (7149, 7149); (7151, 7153); (7212, 7219); (7222, 7223); (7288, 7293);
   (7376, 7378); (7380, 7392); (7394, 7400); (7405, 7405); (7412, 7412);
   (7416, 7417); (7468, 7530); (7544, 7544); (7579, 7679); (8125, 8125);
   (8127, 8129); (8141, 8143); (8157, 8159); (8173, 8175); (8189, 8190);
   (8203, 8207); (8216, 8217); (8228, 8228); (8231, 8231); (8234, 8238);
   (8288, 8292); (8294, 8303); (8305, 8305); (8319, 8319); (8336, 8348);
   (8400, 8432); (11388, 11389); (11503, 11505); (11631, 11631);
   (11647, 11647); (11744, 11775); (11823, 11823); (12293, 12293);
   (12330, 12333); (12337, 12341); (12347, 12347); (12441, 12446);
   (12540, 12542); (40981, 40981); (42232, 42237); (42508, 42508);
   (42607, 42610); (42612, 42621); (42623, 42623); (42652, 42655);
   (42736, 42737); (42752, 42785); (42864, 42864); (42888, 42890);
   (42994, 42996); (43000, 43001); (43010, 43010); (43014, 43014);
   (43019, 43019); (43045, 43046); (43052, 43052); (43204, 43205);
   (43232, 43249); (43263, 43263); (43302, 43309); (43335, 43345);
   (43392, 43394); (43443, 43443); (43446, 43449); (43452, 43453);
   (43471, 43471); (43493, 43494); (43561, 43566); (43569, 43570);
   (43573, 43574); (43587, 43587); (43596, 43596); (43632, 43632);
   (43644, 43644); (43696, 43696); (43698, 43700); (43703, 43704);
   (43710, 43711); (43713, 43713); (43741, 43741); (43756, 43757);
   (43763, 43764); (43766, 43766); (43867, 43871); (43881, 43883);
   (44005, 44005); (44008, 44008); (44013, 44013); (64286, 64286);
   (64434, 64450); (65024, 65039); (65043, 65043); (65056, 65071);
   (65106, 65106); (65109, 65109); (65279, 65279); (65287, 65287);
   (65294, 65294); (65306, 65306); (65342, 65342); (65344, 65344);
   (65392, 65392); (65438, 65439); (65507, 65507); (65529, 65531);
   (66045, 66045); (66272, 66272); (66422, 66426); (67456, 67461);
   (67463, 67504); (67506, 67514); (68097, 68099); (68101, 68102);
   (68108, 68111); (68152, 68154); (68159, 68159); (68325, 68326);
   (68900, 68903); (69291, 69292); (69446, 69456); (69506, 69509);
   (69633, 69633); (69688, 69702); (69744, 69744); (69747, 69748);
   (69759, 69761); (69811, 69814); (69817, 69818); (69821, 69821);
   (69826, 69826); (69837, 69837); (69888, 69890); (69927, 69931);
   (69933, 69940); (70003, 70003); (70016, 70017); (70070, 70078);
   (70089, 70092); (70095, 70095); (70191, 70193); (70196, 70196);
   (70198, 70199); (70206, 70206); (70367, 70367); (70371, 70378);
   (70400, 70401); (70459, 70460); (70464, 70464); (70502, 70508);
   (70512, 70516); (70712, 70719); (70722, 70724); (70726, 70726);
   (70750, 70750); (70835, 70840); (70842, 70842); (70847, 70848);
   (70850, 70851); (71090, 71093); (71100, 71101); (71103, 71104);
   (71132, 71133); (71219, 71226); (71229, 71229); (71231, 71232);
   (71339, 71339); (71341, 71341); (71344, 71349); (71351, 71351);
   (71453, 71455); (71458, 71461); (71463, 71467); (71727, 71735);
   (71737, 71738); (71995, 71996); (71998, 71998); (72003, 72003);
   (72148, 72151); (72154, 72155); (72160, 72160); (72193, 72202);
   (72243, 72248); (72251, 72254); (72263, 72263); (72273, 72278);
   (72281, 72283); (72330, 72342); (72344, 72345); (72752, 72758);
   (72760, 72765); (72767, 72767); (72850, 72871); (72874, 72880);
   (72882, 72883); (72885, 72886); (73009, 73014); (73018, 73018);
   (73020, 73021); (73023, 73029); (73031, 73031); (73104, 73105);
   (73109, 73109); (73111, 73111); (73459, 73460); (78896, 78904);
   (92912, 92916); (92976, 92982); (92992, 92995); (94031, 94031);
   (94095, 94111); (94176, 94177); (94179, 94180); (110576, 110579);
   (110581, 110587); (110589, 110590); (113821, 113822); (113824, 113827);
   (118528, 118573); (118576, 118598); (119143, 119145); (119155, 119170);
   (119173, 119179); (119210, 119213); (119362, 119364); (121344, 121398);
   (121403, 121452); (121461, 121461); (121476, 121476); (121499, 121503);
   (121505, 121519); (122880, 122886); (122888, 122904); (122907, 122913);
   (122915, 122916); (122918, 122922); (123184, 123197); (123566, 123566);
   (123628, 123631); (125136, 125142); (125252, 125259); (127995, 127999);
   (917505, 917505); (917536, 917631); (917760, 917999)].

Definition within (table : list (Z * Z)) (c : Z) : bool :=
  existsb (fun '(lo, hi) => (lo <=? c) && (c <=? hi)) table.

Definition isspace (c : Z) : bool := within SPACE c.
Definition isdigit (c : Z) : bool := within DIGIT c.
Definition isdecimal (c : Z) : bool := within DECIMAL c.

(** The value of a decimal digit. *)
Definition decimal (c : Z) : option Z :=
  match List.find (fun '(lo, hi) => (lo <=? c) && (c <=? hi)) DECIMAL with
  | Some (lo, _) => Some ((c - lo) mod 10)
  | None => None
  end.

Definition in_run (c : Z) (run : Z * Z * Z * Z) : bool :=
  let '(lo, hi, step, _) := run in
  (lo <=? c) && (c <=? hi) && ((c - lo) mod step =? 0).

(** The lower case of one character, whatever stands around it: capital I
    with dot above becomes two characters. *)
Definition lower_full (c : Z) : list Z :=
  if c =? 304 then [105; 775]
  else
    match List.find (in_run c) LOWER with
    | Some (_, _, _, delta) => [c + delta]
    | None => [c]
    end.

(** The first character of [l] that is not case-ignorable is cased. *)
Fixpoint cased_next (l : list Z) : bool :=
  match l with
  | [] => false
  | c :: l' => if within CASE_IGNORABLE c then cased_next l' else within CASED c
  end.

(** Capital sigma (931) becomes final sigma (962) behind a cased character
    and not before one, and small sigma (963) elsewhere; [before] holds the
    characters already passed, the nearest first. *)
Fixpoint lower (before cs : list Z) : list Z :=
  match cs with
  | [] => []
  | c :: after =>
      (if c =? 931 then
         [if cased_next before && negb (cased_next after) then 962 else 963]
       else lower_full c)
      ++ lower (c :: before) after
  end.

(** [s.split()] on the characters: the maximal runs without a space; [cur]
    is the run being read, reversed. *)
Fixpoint words (cs cur : list Z) : list (list Z) :=
  match cs with
  | [] => match cur with [] => [] | _ => [List.rev cur] end
  | c :: cs' =>
      if isspace c then
        match cur with
        | [] => words cs' []
        | _ => List.rev cur :: words cs' []
        end
      else words cs' (c :: cur)
  end.

End Unicode.

(** ** The string operations of Python the program uses

    A text is held as the bytes of its UTF-8 form, a surrogate written like
    any other code point of its size.  What Python does character by
    character is done here on the code points read from the bytes; a byte
    that is no part of a character, which no text of Python has, is read as
    the replacement character. *)

Module Str.

Definition code (c : ascii) : Z := Z.of_N (N_of_ascii c).
Definition byte (z : Z) : ascii := ascii_of_N (Z.to_N z).

Definition replacement : Z := 65533.

(** A byte that goes on a character: its six bits, the byte, the rest. *)
Definition cont (s : string) : option (Z * ascii * string) :=
  match s with
  | String b s' =>
      if (128 <=? code b) && (code b <? 192) then Some (code b - 128, b, s')
      else None
  | EmptyString => None
  end.

(** The first character of a text: its code point, its own bytes, and the
    text behind it. *)
Definition uncons (s : string) : option (Z * string * string) :=
  match s with
  | EmptyString => None
  | String b s0 =>
      let c := code b in
      let alone (z : Z) := Some (z, String b "", s0) in
      if c <? 128 then alone c
      else
        match cont s0 with
        | None => alone replacement
        | Some (c1, b1, s1) =>
            let v2 := (c - 192) * 64 + c1 in
            if (192 <=? c) && (c <? 224) then
              if 128 <=? v2 then Some (v2, String b (String b1 ""), s1)
              else alone replacement
            else
              match cont s1 with
              | None => alone replacement
              | Some (c2, b2, s2) =>
                  let v3 := ((c - 224) * 64 + c1) * 64 + c2 in
                  if (224 <=? c) && (c <? 240) then
                    if 2048 <=? v3
                    then Some (v3, String b (String b1 (String b2 "")), s2)
                    else alone replacement
                  else
                    match cont s2 with
                    | None => alone replacement
                    | Some (c3, b3, s3) =>
                        let v4 := (((c - 240) * 64 + c1) * 64 + c2) * 64 + c3 in
                        if (240 <=? c) && (65536 <=? v4) && (v4 <=? 1114111)
                        then Some (v4, String b (String b1 (String b2
                                                   (String b3 ""))), s3)
                        else alone replacement
                    end
              end
        end
  end.

(** [chr(c)]: the bytes of a code point. *)
Definition chr (c : Z) : string :=
  if c <? 128 then String (byte c) ""
  else if c <? 2048 then
    String (byte (192 + c / 64)) (String (byte (128 + c mod 64)) "")
  else if c <? 65536 then
    String (byte (224 + c / 4096))
      (String (byte (128 + (c / 64) mod 64)) (String (byte (128 + c mod 64)) ""))
  else
    String (byte (240 + c / 262144))
      (String (byte (128 + (c / 4096) mod 64))
         (String (byte (128 + (c / 64) mod 64))
            (String (byte (128 + c mod 64)) ""))).

(** The text of a list of code points. *)
Fixpoint text (cs : list Z) : string :=
  match cs with
  | [] => ""
  | c :: cs' => chr c ++ text cs'
  end.

(** The code points of a text; a text has no more characters than bytes. *)
Fixpoint chars_upto (n : nat) (s : string) : list Z :=
  match n with
  | O => []
  | S n' =>
      match uncons s with
      | Some (c, _, rest) => c :: chars_upto n' rest
      | None => []
      end
  end.

Definition chars (s : string) : list Z := chars_upto (String.length s) s.

Fixpoint all (p : ascii -> bool) (s : string) : bool :=
  match s with
  | EmptyString => true
  | String c s' => p c && all p s'
  end.

(** [len(s)] *)
Definition len (s : string) : Z := Z.of_nat (List.length (chars s)).

(** [s.isdigit()]: false on the empty string. *)
Definition isdigit (s : string) : bool :=
  match chars s with
  | [] => false
  | cs => List.forallb Unicode.isdigit cs
  end.

(** [s.lower()] *)
Definition lower (s : string) : string := text (Unicode.lower [] (chars s)).

(** [s.startswith(p)] *)
Fixpoint startswith (p s : string) : bool :=
  match p, s with
  | EmptyString, _ => true
  | String a p', String b s' => Ascii.eqb a b && startswith p' s'
  | String _ _, EmptyString => false
  end.

(** [q in s] on two strings. *)
Fixpoint contains (q s : string) : bool :=
  startswith q s ||
  match s with
  | EmptyString => false
  | String _ s' => contains q s'
  end.

(** [s[n:]] *)
Fixpoint drop (n : nat) (s : string) : string :=
  match n with
  | O => s
  | S n' =>
      match uncons s with
      | Some (_, _, rest) => drop n' rest
      | None => EmptyString
      end
  end.

(** [sep.join(l)] *)
Fixpoint join (sep : string) (l : list string) : string :=
  match l with
  | [] => ""
  | [x] => x
  | x :: l' => x ++ sep ++ join sep l'
  end.

(** [s.split()] *)
Definition split (s : string) : list string :=
  List.map text (Unicode.words (chars s) []).

(** [s.split(sep)] for a one-character separator: empty pieces are kept.
    [cur] is the piece being read, reversed. *)
Definition rev_string (cur : list ascii) : string :=
  string_of_list_ascii (List.rev cur).

Fixpoint split_on_aux (sep : ascii) (s : string) (cur : list ascii)
  : list string :=
  match s with
  | EmptyString => [rev_string cur]
  | String c s' =>
      if Ascii.eqb c sep then rev_string cur :: split_on_aux sep s' []
      else split_on_aux sep s' (c :: cur)
  end.

Definition split_on (sep : ascii) (s : string) : list string :=
  split_on_aux sep s [].

(** [str(z)] and [str(n)] of an integer. *)
Definition of_Z (z : Z) : string := NilZero.string_of_int (Z.to_int z).
Definition of_nat (n : nat) : string := NilZero.string_of_uint (Nat.to_uint n).

(** *** [int(s)] in base ten

    [int] first writes the text in ASCII: a character from 127 on becomes a
    blank when it is a space and the ASCII digit of its value when it is a
    decimal digit, and anything else there ends the text with a question
    mark. *)
Fixpoint to_ascii (cs : list Z) : list Z :=
  match cs with
  | [] => []
  | c :: cs' =>
      if c <? 127 then c :: to_ascii cs'
      else if Unicode.isspace c then 32 :: to_ascii cs'
      else
        match Unicode.decimal c with
        | Some d => (48 + d) :: to_ascii cs'
        | None => [63]
        end
  end.

(** The blanks [int] passes over, before and behind the number. *)
Definition blank (c : Z) : bool := ((9 <=? c) && (c <=? 13)) || (c =? 32).

Fixpoint skip_blanks (l : list Z) : list Z :=
  match l with
  | c :: l' => if blank c then skip_blanks l' else l
  | [] => []
  end.

(** The digits and underscores at the head of [l]: the number read, how many
    digits it has, the last character read, and what is left; [None] when
    two underscores meet. *)
Fixpoint scan (l : list Z) (value digits prev : Z)
  : option (Z * Z * Z * list Z) :=
  match l with
  | c :: l' =>
      if (48 <=? c) && (c <=? 57) then
        scan l' (10 * value + (c - 48)) (digits + 1) c
      else if c =? 95 then
        if prev =? 95 then None else scan l' value digits c
      else Some (value, digits, prev, l)
  | [] => Some (value, digits, prev, [])
  end.

(** The text of the [ValueError] for a text that is no number goes on with
    the [repr] of [s], which is left out here. *)
Definition invalid_literal : exn :=
  ValueError "invalid literal for int() with base 10".

Definition too_many_digits (digits : Z) : exn :=
  ValueError ("Exceeds the limit (4300 digits) for integer string conversion: "
              ++ "value has " ++ of_Z digits
              ++ " digits; use sys.set_int_max_str_digits() "
              ++ "to increase the limit").

(** The first character of [l] is [z]. *)
Definition head_is (z : Z) (l : list Z) : bool :=
  match l with
  | c :: _ => c =? z
  | [] => false
  end.

Definition int (s : string) : result Z :=
  let l := skip_blanks (to_ascii (chars s)) in
  let sign := if head_is 45 l then -1 else 1 in
  let l := if head_is 45 l || head_is 43 l then List.tl l else l in
  if head_is 95 l then Raise invalid_literal
  else
    match scan l 0 0 0 with
    | None => Raise invalid_literal
    | Some (value, digits, prev, rest) =>
        if prev =? 95 then Raise invalid_literal
        else if 4300 <? digits then Raise (too_many_digits digits)
        else if digits =? 0 then Raise invalid_literal
        else
          match skip_blanks rest with
          | [] => Ok (sign * value)
          | _ => Raise invalid_literal
          end
    end.

End Str.

(** ** The part of [datetime] the program uses *)

Module Datetime.

Record datetime : Type := mk {
  year : Z; month : Z; day : Z;
  hour : Z; minute : Z; second : Z; microsecond : Z
}.

Definition is_leap (y : Z) : bool :=
  (y mod 4 =? 0) && (negb (y mod 100 =? 0) || (y mod 400 =? 0)).

Definition days_in_month (y m : Z) : Z :=
  if m =? 2 then (if is_leap y then 29 else 28)
  else if (m =? 4) || (m =? 6) || (m =? 9) || (m =? 11) then 30
  else 31.

Definition days_before_year (y : Z) : Z :=
  let p := y - 1 in
  p * 365 + p / 4 - p / 100 + p / 400.

(** The library's table of the days before each month of a common year,
    and the day a leap year adds from March on. *)
Definition DAYS_BEFORE_MONTH : list Z :=
  [0; 31; 59; 90; 120; 151; 181; 212; 243; 273; 304; 334].

Definition days_before_month (y m : Z) : Z :=
  List.nth (Z.to_nat (m - 1)) DAYS_BEFORE_MONTH 0
  + (if (2 <? m) && is_leap y then 1 else 0).

(** [date.toordinal()]: 1 is the first of January of year 1. *)
Definition ymd2ord (y m d : Z) : Z :=
  days_before_year y + days_before_month y m + d.

(** [datetime(year, month, day)]: midnight of a day that exists. *)
Definition make (y m d : Z) : result datetime :=
  if negb ((1 <=? y) && (y <=? 9999)) then
    Raise (ValueError ("year " ++ Str.of_Z y ++ " is out of range"))
  else if negb ((1 <=? m) && (m <=? 12)) then
    Raise (ValueError "month must be in 1..12")
  else if negb ((1 <=? d) && (d <=? days_in_month y m)) then
    Raise (ValueError "day is out of range for month")
  else Ok (mk y m d 0 0 0 0).

Definition micros_of_day (t : datetime) : Z :=
  ((hour t * 60 + minute t) * 60 + second t) * 1000000 + microsecond t.

Definition day_micros : Z := 86400 * 1000000.

(** Microseconds since the start of day 0. *)
Definition to_micros (t : datetime) : Z :=
  ymd2ord (year t) (month t) (day t) * day_micros + micros_of_day t.

(** [a < b] *)
Definition ltb (a b : datetime) : bool := to_micros a <? to_micros b.

(** [(a - b).days]: a [timedelta] keeps its seconds and microseconds
    non-negative, so its days are the floor. *)
Definition sub_days (a b : datetime) : Z :=
  (to_micros a - to_micros b) / day_micros.

(** *** [datetime.strptime(s, "%Y-%m-%d")]

    The format compiles to the regular expression
    [(\d\d\d\d)-(1[0-2]|0[1-9]|[1-9])-(3[0-1]|[1-2]\d|0[1-9]|[1-9]| [1-9])],
    matched at the start of [s]; text left over after the match is
    refused.  A piece of the expression reads some characters and hands
    back what it read and what is left; a class of ASCII characters is
    told by the one byte such a character has.  (The message of a failed match goes
    on with the [repr] of [s] and of the format, left out here.) *)

Definition piece : Type := string -> option (string * string).

Definition in_range (lo hi : ascii) : ascii -> bool :=
  fun c => (Str.code lo <=? Str.code c) && (Str.code c <=? Str.code hi).

Definition one (p : ascii -> bool) : piece :=
  fun s => match s with
           | String c s' => if p c then Some (String c "", s') else None
           | EmptyString => None
           end.

(** One character of a class that has more than ASCII in it. *)
Definition one_char (p : Z -> bool) : piece :=
  fun s => match Str.uncons s with
           | Some (c, x, rest) => if p c then Some (x, rest) else None
           | None => None
           end.

Definition seq (a b : piece) : piece :=
  fun s => match a s with
           | Some (x, s1) =>
               match b s1 with
               | Some (y, s2) => Some ((x ++ y)%string, s2)
               | None => None
               end
           | None => None
           end.

(** [\d]: a decimal digit of any script. *)
Definition digit : piece := one_char Unicode.isdecimal.
Definition lit (c : ascii) : piece := one (Ascii.eqb c).

Definition re_Y : piece := seq digit (seq digit (seq digit digit)).

Definition re_m : list piece :=
  [ seq (lit "1") (one (in_range "0" "2"));
    seq (lit "0") (one (in_range "1" "9"));
    one (in_range "1" "9") ].

Definition re_d : list piece :=
  [ seq (lit "3") (one (in_range "0" "1"));
    seq (one (in_range "1" "2")) digit;
    seq (lit "0") (one (in_range "1" "9"));
    one (in_range "1" "9");
    seq (lit " ") (one (in_range "1" "9")) ].

(** An alternation followed by the rest [k] of the expression: the first
    alternative after which the rest matches too. *)
Fixpoint alt {A : Type} (ps : list piece) (k : string -> string -> option A)
  (s : string) : option A :=
  match ps with
  | [] => None
  | p :: ps' =>
      match p s with
      | Some (x, rest) =>
          match k x rest with
          | Some r => Some r
          | None => alt ps' k s
          end
      | None => alt ps' k s
      end
  end.

(** The three groups and the unmatched tail. *)
Definition re_match (s : string) : option (string * string * string * string) :=
  match re_Y s with
  | Some (Y, String "-" s1) =>
      alt re_m (fun m s2 =>
        match s2 with
        | String "-" s3 =>
            alt re_d (fun d tail => Some (Y, m, d, tail)) s3
        | _ => None
        end) s1
  | _ => None
  end.

Definition strptime (s : string) : result datetime :=
  match re_match s with
  | None => Raise (ValueError "time data does not match format")
  | Some (Y, m, d, tail) =>
      match tail with
      | String _ _ => Raise (ValueError ("unconverted data remains: " ++ tail))
      | EmptyString =>
          let* y := Str.int Y in
          let* mo := Str.int m in
          let* dd := Str.int d in
          make y mo dd
      end
  end.

End Datetime.

(** ** Validated fields *)

Module Phone.

Definition msg : string := "Phone number must be 10 digits".

(** [len(phone) == 10 and phone.isdigit()]; [len(None)] is a [TypeError]. *)
Definition validate_phone (phone : option string) : result bool :=
  match phone with
  | None => Raise (TypeError "object of type 'NoneType' has no len()")
  | Some p => Ok ((Str.len p =? 10) && Str.isdigit p)
  end.

(** The setter of [value]: the value the field holds afterwards. *)
Definition set_value (phone : option string) : result (option string) :=
  match phone with
  | None => Ok None
  | Some _ =>
      let* ok := validate_phone phone in
      if ok then Ok phone else Raise (ValueError msg)
  end.

End Phone.

Module Birthday.

Definition msg : string := "Invalid birthday format. Use YYYY-MM-DD".

(** [year, month, day = map(int, parts)]: unpacking asks the lazy [map] for
    three items and then for a fourth, so [int] runs on at most four pieces,
    in order, before the count is judged. *)
Fixpoint take_ints (n : nat) (parts : list string) : result (list Z) :=
  match n, parts with
  | S n', x :: parts' =>
      let* z := Str.int x in
      let* zs := take_ints n' parts' in
      Ok (z :: zs)
  | _, _ => Ok []
  end.

Definition unpack3 (parts : list string) : result (Z * Z * Z) :=
  let* zs := take_ints 4 parts in
  match zs with
  | [y; m; d] => Ok (y, m, d)
  | _ :: _ :: _ :: _ :: _ =>
      Raise (ValueError "too many values to unpack (expected 3)")
  | _ =>
      Raise (ValueError ("not enough values to unpack (expected 3, got "
                         ++ Str.of_nat (List.length zs) ++ ")"))
  end.

Definition validate_birthday_body (birthday : string) : result bool :=
  let* _ := Datetime.strptime birthday in
  let* (year, month, day) := unpack3 (Str.split_on "-" birthday) in
  Ok ((1900 <=? year) && (year <=? 2100)
      && (1 <=? month) && (month <=? 12)
      && (1 <=? day) && (day <=? 31)).

(** [try: ... except ValueError: return False]; a [None] argument makes
    [strptime] raise a [TypeError], which is not caught. *)
Definition validate_birthday (birthday : option string) : result bool :=
  match birthday with
  | None => Raise (TypeError "strptime() argument 1 must be str, not None")
  | Some b =>
      match validate_birthday_body b with
      | Ok v => Ok v
      | Raise e => if is_ValueError e then Ok false else Raise e
      end
  end.

Definition set_value (birthday : option string) : result (option string) :=
  match birthday with
  | None => Ok None
  | Some _ =>
      let* ok := validate_birthday birthday in
      if ok then Ok birthday else Raise (ValueError msg)
  end.

End Birthday.

(** ** Records *)

Definition opt_eqb (a b : option string) : bool :=
  match a, b with
  | Some x, Some y => String.eqb x y
  | None, None => true
  | _, _ => false
  end.

(** [str(v)] of a string or [None], as an f-string shows it. *)
Definition opt_str (v : option string) : string :=
  match v with
  | Some s => s
  | None => "None"
  end.

(** The class [Record] ([Record] itself is a reserved word here). *)
Module Rec.

Record t : Type := mk {
  name : string;
  phones : list (option string);
  birthday : option string
}.

(** The dictionary [serialize] builds and [deserialize] reads. *)
Record data : Type := mk_data {
  d_name : string;
  d_phones : list (option string);
  d_birthday : option string
}.

(** [Record(name, birthday)] *)
Definition init (n : string) (b : option string) : result t :=
  let* bv := Birthday.set_value b in
  Ok (mk n [] bv).

Definition add_phone (r : t) (phone : option string) : result t :=
  match phone with
  | None => Ok r
  | Some _ =>
      let* ok := Phone.validate_phone phone in
      if ok then
        let* v := Phone.set_value phone in
        Ok (mk (name r) (phones r ++ [v]) (birthday r))
      else Raise (ValueError Phone.msg)
  end.

Fixpoint remove_first (number : option string) (l : list (option string))
  : list (option string) :=
  match l with
  | [] => []
  | p :: l' => if opt_eqb p number then l' else p :: remove_first number l'
  end.

Definition remove_phone (r : t) (number : option string) : t :=
  mk (name r) (remove_first number (phones r)) (birthday r).

(** The list with its first phone equal to [old] set to [new]; [None] when
    no phone equals [old]. *)
Fixpoint replace_first (old new : option string) (l : list (option string))
  : option (list (option string)) :=
  match l with
  | [] => None
  | p :: l' =>
      if opt_eqb p old then Some (new :: l')
      else option_map (cons p) (replace_first old new l')
  end.

Definition edit_phone (r : t) (old new_phone : option string) : result t :=
  match replace_first old new_phone (phones r) with
  | None => Raise (ValueError ("Contact '" ++ opt_str old ++ "' not found"))
  | Some phones' =>
      let* ok := match new_phone with
                 | None => Ok true
                 | Some _ => Phone.validate_phone new_phone
                 end in
      if ok then
        let* _ := Phone.set_value new_phone in
        Ok (mk (name r) phones' (birthday r))
      else Raise (ValueError Phone.msg)
  end.

Definition find_phone (r : t) (number : option string) : option (option string) :=
  List.find (fun p => opt_eqb p number) (phones r).

(** [days_to_birthday], with the value [datetime.now()] gives as [today]. *)
Definition days_to_birthday (today : Datetime.datetime) (r : t)
  : result (option Z) :=
  match birthday r with
  | Some (String _ _ as value) =>
      let* birth_date := Datetime.strptime value in
      let* this_year := Datetime.make (Datetime.year today)
                          (Datetime.month birth_date) (Datetime.day birth_date) in
      let* next_birthday :=
        if Datetime.ltb this_year today
        then Datetime.make (Datetime.year today + 1)
               (Datetime.month birth_date) (Datetime.day birth_date)
        else Ok this_year in
      Ok (Some (Datetime.sub_days next_birthday today))
  | _ => Ok None
  end.

(** [", ".join(values)]: an item that is [None] is a [TypeError]; [i] is
    the index of the first item of [l]. *)
Fixpoint str_items (i : nat) (l : list (option string)) : result (list string) :=
  match l with
  | [] => Ok []
  | Some s :: l' => let* ss := str_items (S i) l' in Ok (s :: ss)
  | None :: _ =>
      Raise (TypeError ("sequence item " ++ Str.of_nat i
                        ++ ": expected str instance, NoneType found"))
  end.

(** [str(record)] *)
Definition to_str (r : t) : result string :=
  let* items := str_items 0 (phones r) in
  Ok ("Contact name: " ++ name r ++ ", phones: " ++ Str.join ", " items
      ++ ", birthday: " ++ opt_str (birthday r)).

Definition serialize (r : t) : data :=
  mk_data (name r) (phones r) (birthday r).

Fixpoint add_phones (r : t) (l : list (option string)) : result t :=
  match l with
  | [] => Ok r
  | p :: l' => let* r' := add_phone r p in add_phones r' l'
  end.

Definition deserialize (d : data) : result t :=
  let* record := init (d_name d) (d_birthday d) in
  add_phones record (d_phones d).

End Rec.

(** ** A dictionary with string keys, in insertion order *)

Module Dict.

Section Ordered.
Context {V : Type}.

Definition t : Type := list (string * V).

Fixpoint get (k : string) (d : t) : option V :=
  match d with
  | [] => None
  | (k', v) :: d' => if String.eqb k' k then Some v else get k d'
  end.

(** [k in d] *)
Definition mem (k : string) (d : t) : bool :=
  match get k d with
  | Some _ => true
  | None => false
  end.

(** [d[k] = v]: a key already there keeps its place. *)
Fixpoint set (k : string) (v : V) (d : t) : t :=
  match d with
  | [] => [(k, v)]
  | (k', v') :: d' =>
      if String.eqb k' k then (k, v) :: d' else (k', v') :: set k v d'
  end.

(** [del d[k]] for a key that is there. *)
Fixpoint del (k : string) (d : t) : t :=
  match d with
  | [] => []
  | (k', v') :: d' => if String.eqb k' k then d' else (k', v') :: del k d'
  end.

Definition values (d : t) : list V := List.map snd d.
Definition keys (d : t) : list string := List.map fst d.

End Ordered.
Arguments t : clear implicits.

End Dict.

(** ** Files

    Where a path leads is for the machine to say, which knows its working
    directory, its directories and its links: to nothing it opens, to an
    entry of a directory, where a file is or can be made, or on behind such
    an entry.  Paths that lead to the same entry name the same file.  The
    program makes files and nothing else, so a path leads to the same place
    throughout a run, and what changes is what the entries hold: text that
    is not JSON, or the contact list a [save] wrote.  What is written to an
    entry is what is read from it; devices are left out. *)

Inductive file : Type :=
| Garbage
| Contacts (contacts : list Rec.data).

Inductive place : Type :=
| Refused (e : exn)
| Entry (name : string)
| Beyond (name : string) (slash : bool).

Record filesystem : Type := mk_fs {
  leads : string -> place;
  held : Dict.t file
}.

(** The [repr] of a file name that has no quote and needs no escape. *)
Definition quoted (s : string) : string := "'" ++ s ++ "'".

Definition no_such_file (filename : string) : exn :=
  FileNotFoundError ("[Errno 2] No such file or directory: " ++ quoted filename).

Definition is_a_directory (filename : string) : exn :=
  IsADirectoryError ("[Errno 21] Is a directory: " ++ quoted filename).

Definition not_a_directory (filename : string) : exn :=
  NotADirectoryError ("[Errno 20] Not a directory: " ++ quoted filename).

(** A surrogate that stands for no byte of a file name. *)
Definition unencodable (c : Z) : bool :=
  (55296 <=? c) && (c <=? 57343) && negb ((56448 <=? c) && (c <=? 56575)).

(** What [open] makes of the name before the machine sees it: the name is
    encoded, then looked through for a null character.  (The message of the
    [UnicodeEncodeError] names the character and its position between
    [character] and the colon, left out here.) *)
Definition check_name (filename : string) : result unit :=
  if List.existsb unencodable (Str.chars filename) then
    Raise (UnicodeEncodeError
             "'utf-8' codec can't encode character: surrogates not allowed")
  else if List.existsb (Z.eqb 0) (Str.chars filename) then
    Raise (ValueError "embedded null byte")
  else Ok tt.

(** [open(filename, 'r')]: what the file holds. *)
Definition open_r (fs : filesystem) (filename : string) : result file :=
  let* _ := check_name filename in
  match leads fs filename with
  | Refused e => Raise e
  | Entry name =>
      match Dict.get name (held fs) with
      | Some f => Ok f
      | None => Raise (no_such_file filename)
      end
  | Beyond name _ =>
      match Dict.get name (held fs) with
      | Some _ => Raise (not_a_directory filename)
      | None => Raise (no_such_file filename)
      end
  end.

(** [open(filename, 'w')] and the writing of [f] into the file. *)
Definition open_w (fs : filesystem) (filename : string) (f : file)
  : result filesystem :=
  let* _ := check_name filename in
  match leads fs filename with
  | Refused e => Raise e
  | Entry name => Ok (mk_fs (leads fs) (Dict.set name f (held fs)))
  | Beyond name slash =>
      if slash then Raise (is_a_directory filename)
      else
        match Dict.get name (held fs) with
        | Some _ => Raise (not_a_directory filename)
        | None => Raise (no_such_file filename)
        end
  end.

(** [open(filename, 'r')] followed by [json.load]; the message of the
    [JSONDecodeError] is the one for text that starts with no JSON value. *)
Definition read_json (fs : filesystem) (filename : string)
  : result (list Rec.data) :=
  let* f := open_r fs filename in
  match f with
  | Garbage => Raise (JSONDecodeError "Expecting value: line 1 column 1 (char 0)")
  | Contacts l => Ok l
  end.

(** [open(filename, 'w')] followed by [json.dump]. *)
Definition write_json (fs : filesystem) (filename : string)
  (contacts : list Rec.data) : result filesystem :=
  open_w fs filename (Contacts contacts).

(** ** [range] and slices, as the batches of the book use them *)

(** The numbers [i], [i + step], ... below [stop], for a positive [step]. *)
Fixpoint range_from (fuel : nat) (i stop step : Z) : list Z :=
  match fuel with
  | O => []
  | S fuel' =>
      if i <? stop then i :: range_from fuel' (i + step) stop step else []
  end.

(** [range(0, stop, step)] for a [stop] that is a length: a step of 0 is
    refused, a negative step counts down from 0 and gives nothing. *)
Definition range0 (stop step : Z) : result (list Z) :=
  if step =? 0 then Raise (ValueError "range() arg 3 must not be zero")
  else if step <? 0 then Ok []
  else Ok (range_from (Z.to_nat stop) 0 stop step).

(** [l[i:j]] for [0 <= i <= j]. *)
Definition slice {A : Type} (l : list A) (i j : Z) : list A :=
  List.firstn (Z.to_nat (j - i)) (List.skipn (Z.to_nat i) l).

(** ** The address book *)

Module AddressBook.

(** The [data] of the [UserDict]. *)
Definition t : Type := Dict.t Rec.t.

Definition add_record (ab : t) (record : Rec.t) : t :=
  Dict.set (Rec.name record) record ab.

Definition delete (ab : t) (name : string) : t :=
  if Dict.mem name ab then Dict.del name ab else ab.

Definition find (ab : t) (name : string) : option Rec.t :=
  if Dict.mem name ab then Dict.get name ab else None.

Definition save_to_file (ab : t) (fs : filesystem) (filename : string)
  : result filesystem :=
  write_json fs filename (List.map Rec.serialize (Dict.values ab)).

(** The dictionary comprehension of [load_from_file]. *)
Fixpoint load_records (l : list Rec.data) (acc : t) : result t :=
  match l with
  | [] => Ok acc
  | d :: l' =>
      let* record := Rec.deserialize d in
      load_records l' (Dict.set (Rec.d_name d) record acc)
  end.

(** The new [data]; on a failure the old one stays. *)
Definition load_from_file (ab : t) (fs : filesystem) (filename : string)
  : result t :=
  let* contacts := read_json fs filename in
  load_records contacts [].

(** [query in phone.value]: a phone without a value is a [TypeError]. *)
Definition phone_has (query : string) (phone : option string) : result bool :=
  match phone with
  | Some p => Ok (Str.contains query p)
  | None => Raise (TypeError "argument of type 'NoneType' is not iterable")
  end.

(** [any(query in phone.value for phone in phones)], stopping at the first
    phone that has it. *)
Fixpoint any_phone (query : string) (l : list (option string)) : result bool :=
  match l with
  | [] => Ok false
  | p :: l' =>
      let* hit := phone_has query p in
      if hit then Ok true else any_phone query l'
  end.

Definition matches (query : string) (contact : Rec.t) : result bool :=
  if Str.contains query (Rec.name contact) then Ok true
  else any_phone query (Rec.phones contact).

Fixpoint search_loop (query : string) (contacts results : list Rec.t)
  : result (list Rec.t) :=
  match contacts with
  | [] => Ok results
  | contact :: contacts' =>
      let* hit := matches query contact in
      search_loop query contacts' (if hit then results ++ [contact] else results)
  end.

Definition search_contacts (ab : t) (query : string) : result (list Rec.t) :=
  search_loop query (Dict.values ab) [].

(** The batches [iterator] yields, one after the other; what [range] raises
    comes out when the first batch is asked for. *)
Definition iterator (ab : t) (batch_size : Z) : result (list (list Rec.t)) :=
  let data_values := Dict.values ab in
  let* starts := range0 (Z.of_nat (List.length data_values)) batch_size in
  Ok (List.map (fun i => slice data_values i (i + batch_size)) starts).

End AddressBook.

(** ** The commands *)

(** What a command hands to [print]. *)
Inductive pyval : Type :=
| PStr (s : string)
| PList (l : list (option string))
| PInt (z : Z)
| PNone.

(** The decorator [input_error] around a call that returned or raised. *)
Definition input_error (r : result pyval) : pyval :=
  match r with
  | Ok v => v
  | Raise e =>
      match e with
      | KeyError _ => PStr "Enter user name"
      | ValueError _ | JSONDecodeError _ | UnicodeEncodeError _ =>
          PStr (exn_str e)
      | IndexError m =>
          if Str.contains "unpack" m
          then PStr "Give me name and phone please"
          else PStr "Invalid input"
      | _ => PStr (exn_str e)
      end
  end.

(** The first loop of [add_contact]: an argument with a dash is a birthday
    when [strptime] takes it and is dropped otherwise; the others are
    phones. *)
Fixpoint sort_args (args : list string) (phones : list string)
  (birthday : option string) : list string * option string :=
  match args with
  | [] => (phones, birthday)
  | arg :: args' =>
      if Str.contains "-" arg then
        match Datetime.strptime arg with
        | Ok _ => sort_args args' phones (Some arg)
        | Raise e =>
            (* only a [ValueError] can come out of [strptime] on a string *)
            sort_args args' phones birthday
        end
      else sort_args args' (phones ++ [arg]) birthday
  end.

(** The body of [add_contact]: the book afterwards and the outcome. *)
Definition add_contact_body (ab : AddressBook.t) (name : string)
  (phones_and_birthday : list string) : AddressBook.t * result pyval :=
  let '(phones, birthday) := sort_args phones_and_birthday [] None in
  match (let* record := Rec.init name birthday in
         Rec.add_phones record (List.map Some phones)) with
  | Ok record =>
      (AddressBook.add_record ab record, Ok (PStr "Contact added successfully"))
  | Raise e => (ab, Raise e)
  end.

Definition add_contact (ab : AddressBook.t) (name : string)
  (phones_and_birthday : list string) : AddressBook.t * pyval :=
  let '(ab', r) := add_contact_body ab name phones_and_birthday in
  (ab', input_error r).

Definition not_found (name : string) : string :=
  "Contact '" ++ name ++ "' not found".

(** [record.phones[0]] *)
Definition first_phone (record : Rec.t) : result (option string) :=
  match Rec.phones record with
  | p :: _ => Ok p
  | [] => Raise (IndexError "list index out of range")
  end.

(** [address_book[name]] *)
Definition getitem (ab : AddressBook.t) (name : string) : result Rec.t :=
  match Dict.get name ab with
  | Some record => Ok record
  | None => Raise (KeyError name)
  end.

(** The body of [change_phone]; the record edited is the object the book
    holds under [name]. *)
Definition change_phone_body (ab : AddressBook.t) (name phone : string)
  : AddressBook.t * result pyval :=
  if Dict.mem name ab then
    match phone with
    | EmptyString => (ab, Raise (ValueError "Phone is missing"))
    | _ =>
        match (let* record := getitem ab name in
               let* old := first_phone record in
               Rec.edit_phone record old (Some phone)) with
        | Ok record' => (Dict.set name record' ab, Ok (PStr "Phone number updated"))
        | Raise e => (ab, Raise e)
        end
    end
  else (ab, Raise (ValueError (not_found name))).

Definition change_phone (ab : AddressBook.t) (name phone : string)
  : AddressBook.t * pyval :=
  let '(ab', r) := change_phone_body ab name phone in
  (ab', input_error r).

Definition find_phone_body (ab : AddressBook.t) (name : string) : result pyval :=
  if Dict.mem name ab then
    let* record := getitem ab name in
    match Rec.phones record with
    | [] => Ok (PStr ("No phones found for contact '" ++ name ++ "'"))
    | phones => Ok (PList phones)
    end
  else Raise (ValueError (not_found name)).

Definition find_phone (ab : AddressBook.t) (name : string) : pyval :=
  input_error (find_phone_body ab name).

(** [[str(record) for record in data.values()]] *)
Fixpoint str_records (l : list Rec.t) : result (list string) :=
  match l with
  | [] => Ok []
  | r :: l' =>
      let* s := Rec.to_str r in
      let* ss := str_records l' in
      Ok (s :: ss)
  end.

Definition newline : string := String (ascii_of_nat 10) "".

Definition show_all_contacts (ab : AddressBook.t) : result string :=
  match ab with
  | [] => Ok "No contacts found"
  | _ => let* lines := str_records (Dict.values ab) in Ok (Str.join newline lines)
  end.

(** ** The console and the loop of [main] *)

Record world : Type := mk_world {
  book : AddressBook.t;      (* the global [address_book] *)
  files : filesystem;
  clock : Datetime.datetime; (* what [datetime.now()] gives *)
  out : list pyval           (* what [print] was given, oldest first *)
}.

Definition print (v : pyval) (w : world) : world :=
  mk_world (book w) (files w) (clock w) (out w ++ [v]).

Definition with_book (ab : AddressBook.t) (w : world) : world :=
  mk_world ab (files w) (clock w) (out w).

Definition with_files (fs : filesystem) (w : world) : world :=
  mk_world (book w) fs (clock w) (out w).

(** Where one round of the loop ends: back at the prompt, at [break], or
    with an exception nobody caught.  [stdin] is the list of lines not read
    yet. *)
Inductive status : Type :=
| Continue (w : world) (stdin : list string)
| Break (w : world) (stdin : list string)
| Crash (e : exn) (w : world) (stdin : list string).

Definition eof : exn := EOFError "EOF when reading a line".

(** The printing loop of [show_contacts_batch] from index [idx] on; [total]
    is [len(result)]. *)
Fixpoint batch_loop (batch_size : Z) (total : Z) (idx : Z) (lines : list string)
  (w : world) (stdin : list string) : world * list string * result unit :=
  match lines with
  | [] => (w, stdin, Ok tt)
  | r :: lines' =>
      let w1 := print (PStr r) w in
      if batch_size =? 0 then
        (w1, stdin, Raise (ZeroDivisionError "integer modulo by zero"))
      else if ((idx + 1) mod batch_size =? 0) && (idx <? total - 1) then
        match stdin with
        | [] => (w1, stdin, Raise eof)
        | _ :: stdin' => batch_loop batch_size total (idx + 1) lines' w1 stdin'
        end
      else batch_loop batch_size total (idx + 1) lines' w1 stdin
  end.

Definition show_contacts_batch (batch_size : Z) (w : world) (stdin : list string)
  : world * list string * result string :=
  match book w with
  | [] => (w, stdin, Ok "No contacts found")
  | _ =>
      match str_records (Dict.values (book w)) with
      | Raise e => (w, stdin, Raise e)
      | Ok lines =>
          let '(w', stdin', r) :=
            batch_loop batch_size (Z.of_nat (List.length lines)) 0 lines w stdin in
          (w', stdin', let* _ := r in Ok "")
      end
  end.

(** [for result in results: print(result)] over a string: one character a
    line. *)
Definition print_chars (s : string) (w : world) : world :=
  List.fold_left (fun w' c => print (PStr (Str.chr c)) w') (Str.chars s) w.

(** [for result in results: print(result)] over records. *)
Fixpoint print_records (l : list Rec.t) (w : world) : world * result unit :=
  match l with
  | [] => (w, Ok tt)
  | r :: l' =>
      match Rec.to_str r with
      | Ok s => print_records l' (print (PStr s) w)
      | Raise e => (w, Raise e)
      end
  end.

Definition unpack_short (expected : string) (tokens : list string) : exn :=
  ValueError ("not enough values to unpack (expected " ++ expected ++ ", got "
              ++ Str.of_nat (List.length tokens) ++ ")").

Definition unpack_long : exn :=
  ValueError "too many values to unpack (expected 2)".

(** [_, name = command.split()] *)
Definition unpack_name (tokens : list string) : result string :=
  match tokens with
  | [_; name] => Ok name
  | _ :: _ :: _ :: _ => Raise unpack_long
  | _ => Raise (unpack_short "2" tokens)
  end.

Definition batch_usage : string :=
  "Invalid 'show batch' command. Use 'show batch N', where N is the batch size.".

(** The branches of the loop, each on the tokens of [command.split()] (or on
    the command itself) and the lines not read yet. *)

Definition run_add (tokens : list string) (w : world) (stdin : list string)
  : status :=
  match tokens with
  | [] => Crash (unpack_short "at least 1" tokens) w stdin
  | _ :: rest =>
      match rest with
      | name :: phone :: more =>
          let '(ab, response) :=
            match more with
            | birthday :: _ => add_contact (book w) name [phone; birthday]
            | [] => add_contact (book w) name [phone]
            end in
          Continue (print response (with_book ab w)) stdin
      | _ => Continue (print (PStr "Enter at least name and phone") w) stdin
      end
  end.

Definition run_change (tokens : list string) (w : world) (stdin : list string)
  : status :=
  match tokens with
  | _ :: name :: phone =>
      let '(ab, response) := change_phone (book w) name (Str.join " " phone) in
      Continue (print response (with_book ab w)) stdin
  | _ => Crash (unpack_short "at least 2" tokens) w stdin
  end.

Definition run_phone (tokens : list string) (w : world) (stdin : list string)
  : status :=
  match unpack_name tokens with
  | Raise e => Crash e w stdin
  | Ok name => Continue (print (find_phone (book w) name) w) stdin
  end.

Definition run_birthday (tokens : list string) (w : world) (stdin : list string)
  : status :=
  match unpack_name tokens with
  | Raise e => Crash e w stdin
  | Ok name =>
      match AddressBook.find (book w) name with
      | Some contact =>
          match Rec.days_to_birthday (clock w) contact with
          | Ok (Some days) => Continue (print (PInt days) w) stdin
          | Ok None => Continue (print PNone w) stdin
          | Raise e => Continue (print (PStr (exn_str e)) w) stdin
          end
      | None => Continue (print (PStr (not_found name)) w) stdin
      end
  end.

(** [AddressBook.delete] raises nothing, so the [except KeyError] of this
    branch, which would print the not-found message, is never entered. *)
Definition run_delete (tokens : list string) (w : world) (stdin : list string)
  : status :=
  match unpack_name tokens with
  | Raise e => Crash e w stdin
  | Ok name =>
      Continue (print (PStr ("Contact '" ++ name ++ "' deleted successfully"))
                  (with_book (AddressBook.delete (book w) name) w)) stdin
  end.

Definition run_show_batch (tokens : list string) (w : world)
  (stdin : list string) : status :=
  match tokens with
  | [_; _; n] =>
      if Str.isdigit n then
        match Str.int n with
        | Raise e => Crash e w stdin
        | Ok batch_size =>
            match show_contacts_batch batch_size w stdin with
            | (w', stdin', Raise e) => Crash e w' stdin'
            | (w', stdin', Ok results) => Continue (print_chars results w') stdin'
            end
        end
      else Continue (print (PStr batch_usage) w) stdin
  | _ => Continue (print (PStr batch_usage) w) stdin
  end.

(** [save] and [load] read the file name from the console and call the book
    with nothing around the call to catch what it raises. *)
Definition run_save (w : world) (stdin : list string) : status :=
  match stdin with
  | [] => Crash eof w stdin
  | filename :: stdin =>
      match AddressBook.save_to_file (book w) (files w) filename with
      | Raise e => Crash e w stdin
      | Ok fs =>
          Continue (print (PStr ("Address book saved to " ++ filename))
                      (with_files fs w)) stdin
      end
  end.

Definition run_load (w : world) (stdin : list string) : status :=
  match stdin with
  | [] => Crash eof w stdin
  | filename :: stdin =>
      match AddressBook.load_from_file (book w) (files w) filename with
      | Raise e => Crash e w stdin
      | Ok ab =>
          Continue (print (PStr "Address book loaded successfully")
                      (with_book ab w)) stdin
      end
  end.

Definition run_search (command : string) (w : world) (stdin : list string)
  : status :=
  let query := Str.drop 7 command in
  match AddressBook.search_contacts (book w) query with
  | Raise e => Crash e w stdin
  | Ok [] =>
      Continue (print (PStr ("No contacts found matching '" ++ query ++ "'")) w)
        stdin
  | Ok results =>
      match print_records results w with
      | (w', Raise e) => Crash e w' stdin
      | (w', Ok _) => Continue w' stdin
      end
  end.

Definition exit_words : list string := ["good bye"; "close"; "exit"].

(** One round of [while True]: read a line, lower it, take the first branch
    whose test holds. *)
Definition step (w : world) (stdin : list string) : status :=
  match stdin with
  | [] => Crash eof w stdin
  | line :: stdin =>
      let command := Str.lower line in
      if String.eqb command "hello" then
        Continue (print (PStr "How can I help you?") w) stdin
      else if Str.startswith "add " command then
        run_add (Str.split command) w stdin
      else if Str.startswith "change " command then
        run_change (Str.split command) w stdin
      else if Str.startswith "phone " command then
        run_phone (Str.split command) w stdin
      else if String.eqb command "show all" then
        match show_all_contacts (book w) with
        | Raise e => Crash e w stdin
        | Ok result => Continue (print (PStr result) w) stdin
        end
      else if Str.startswith "birthday " command then
        run_birthday (Str.split command) w stdin
      else if Str.startswith "delete " command then
        run_delete (Str.split command) w stdin
      else if Str.startswith "show batch" command then
        run_show_batch (Str.split command) w stdin
      else if String.eqb command "save" then run_save w stdin
      else if String.eqb command "load" then run_load w stdin
      else if Str.startswith "search " command then run_search command w stdin
      else if List.existsb (String.eqb command) exit_words then
        Break (print (PStr "Good bye!") w) stdin
      else Continue (print (PStr "Invalid command. Please try again") w) stdin
  end.

(** How a run of [main] ends.  [Running] is a loop cut short by [fuel], not
    an end of the program. *)
Inductive ending : Type :=
| Exited (w : world) (stdin : list string)
| Died (e : exn) (w : world) (stdin : list string)
| Running (w : world) (stdin : list string).

Fixpoint main_loop (fuel : nat) (w : world) (stdin : list string) : ending :=
  match fuel with
  | O => Running w stdin
  | S fuel' =>
      match step w stdin with
      | Continue w' stdin' => main_loop fuel' w' stdin'
      | Break w' stdin' => Exited w' stdin'
      | Crash e w' stdin' => Died e w' stdin'
      end
  end.

(** [main()] on a console whose remaining input is [stdin]: every round reads
    a line, so one round more than there are lines ends the run. *)
Definition main (w : world) (stdin : list string) : ending :=
  main_loop (S (List.length stdin)) (print (PStr "How can I help you?") w) stdin.

(** * The words of the properties *)

(** ** Words of the specification *)

(** What a character of a text is: a code point. *)
Definition code_point (c : Z) : Prop := 0 <= c <= 1114111.

(** The decimal digits, [0] to [9]. *)
Definition decimal_digit (c : Z) : Prop := 48 <= c <= 57.

(** A digit as [str.isdigit] has it: a character listed in the table. *)
Definition unicode_digit (c : Z) : Prop :=
  exists lo hi, In (lo, hi) Unicode.DIGIT /\ lo <= c <= hi.

(** [s] has [q] in it. *)
Definition substring (q s : string) : Prop :=
  exists a b, s = a ++ q ++ b.

(** A date written [YYYY-MM-DD], with leading zeros. *)
Definition digit_ch (d : Z) : ascii := ascii_of_N (Z.to_N (48 + d)).

Definition two_digits (n : Z) : string :=
  String (digit_ch (n / 10)) (String (digit_ch (n mod 10)) "").

Definition year_str (y : Z) : string :=
  two_digits (y / 100) ++ two_digits (y mod 100).

Definition month_day_str (m d : Z) : string :=
  two_digits m ++ "-" ++ two_digits d.

Definition iso_date (y m d : Z) : string :=
  year_str y ++ "-" ++ month_day_str m d.

(** A phone that went through validation, and a birthday that is absent or
    went through validation. *)
Definition validated_phone (p : option string) : Prop :=
  exists s, p = Some s /\ Phone.validate_phone (Some s) = Ok true.

Definition validated_birthday (b : option string) : Prop :=
  b = None \/ Birthday.validate_birthday b = Ok true.

(** Every phone of the record has a value; every phone of every record of
    the book has. *)
Definition present (r : Rec.t) : Prop :=
  Forall (fun p : option string => p <> None) (Rec.phones r).

Definition phones_present (ab : AddressBook.t) : Prop :=
  Forall present (Dict.values ab).

(** The name has the query in it, or one of the phone values has. *)
Definition hit (query : string) (r : Rec.t) : Prop :=
  substring query (Rec.name r)
  \/ exists p, In (Some p) (Rec.phones r) /\ substring query p.

(** A value [datetime.now()] can give. *)
Definition wall_clock (t : Datetime.datetime) : Prop :=
  1 <= Datetime.month t <= 12
  /\ 1 <= Datetime.day t
       <= Datetime.days_in_month (Datetime.year t) (Datetime.month t)
  /\ 0 <= Datetime.hour t < 24 /\ 0 <= Datetime.minute t < 60
  /\ 0 <= Datetime.second t < 60 /\ 0 <= Datetime.microsecond t < 1000000.

(** What the program keeps true of its book: the names listed are all
    different, every record stands under its own name, every phone went
    through validation and so did the birthday when there is one. *)
Definition valid_record (r : Rec.t) : Prop :=
  Forall validated_phone (Rec.phones r) /\ validated_birthday (Rec.birthday r).

Definition entry_ok (kr : string * Rec.t) : Prop :=
  fst kr = Rec.name (snd kr) /\ valid_record (snd kr).

Definition well_formed (ab : AddressBook.t) : Prop :=
  NoDup (Dict.keys ab) /\ Forall entry_ok ab.

(** ** Tests that decide them *)

Definition result_eqb (r : result bool) (b : bool) : bool :=
  match r with
  | Ok b' => Bool.eqb b' b
  | Raise _ => false
  end.

Definition is_int (r : result Z) (z : Z) : bool :=
  match r with
  | Ok z' => z' =? z
  | Raise _ => false
  end.

(** The integers [lo], [lo + 1], ... ([n] of them). *)
Definition zrange (lo : Z) (n : nat) : list Z :=
  List.map (fun i => lo + Z.of_nat i) (List.seq 0 n).

(** A byte of 128 or more: it belongs to a character that is not ASCII. *)
Definition high (b : ascii) : bool := 128 <=? Str.code b.

(** A byte that is one of the digits [0] to [9]. *)
Definition digit_byte (c : ascii) : bool :=
  (48 <=? Str.code c) && (Str.code c <=? 57).

Definition four_digits (s : string) : bool :=
  match s with
  | String c1 (String c2 (String c3 (String c4 ""))) =>
      digit_byte c1 && digit_byte c2 && digit_byte c3 && digit_byte c4
  | _ => false
  end.

(** What is checked of the year alone: four digits that [int] reads back. *)
Definition year_ok (y : Z) : bool :=
  four_digits (year_str y) && is_int (Str.int (year_str y)) y.

(** The month and day groups of the expression of [strptime], on the text
    behind the first dash. *)
Definition month_day_match (s : string) : option (string * string * string) :=
  Datetime.alt Datetime.re_m (fun m s2 =>
    match s2 with
    | String "-" s3 =>
        Datetime.alt Datetime.re_d (fun d tail => Some (m, d, tail)) s3
    | _ => None
    end) s.

(** What is checked of month and day alone: the expression reads the two
    groups to the end of the text, [split] cuts the same two pieces, and
    [int] reads the two numbers back. *)
Definition month_day_ok (m d : Z) : bool :=
  match month_day_match (month_day_str m d),
        Str.split_on "-" (month_day_str m d) with
  | Some (sm, sd, ""), [pm; pd] =>
      is_int (Str.int sm) m && is_int (Str.int sd) d
      && is_int (Str.int pm) m && is_int (Str.int pd) d
  | _, _ => false
  end.

Definition hitb (query : string) (r : Rec.t) : bool :=
  Str.contains query (Rec.name r)
  || existsb (fun p => match p with
                       | Some s => Str.contains query s
                       | None => false
                       end) (Rec.phones r).

(** [strptime] takes the token. *)
Definition parses (token : string) : bool :=
  match Datetime.strptime token with
  | Ok _ => true
  | Raise _ => false
  end.

(** A token [add_contact] takes for the birthday and the birthday field then
    refuses: it has a dash, [strptime] takes it, validation says no. *)
Definition refused_date (token : string) : bool :=
  Str.contains "-" token && parses token
  && result_eqb (Birthday.validate_birthday (Some token)) false.

(** The same of the token behind the phone, when there is one. *)
Definition refused_birthday (more : list string) : bool :=
  match more with
  | token :: _ => refused_date token
  | [] => false
  end.

(** ** Sample data *)

Definition noon (y m d : Z) : Datetime.datetime := Datetime.mk y m d 12 0 0 0.

(** A machine with one directory, which is its root and its working
    directory and takes names of any length.  A path is gone through part
    by part, the parts being what stands between its slashes: up to the
    first name the walk stays in the directory, the name is an entry of it,
    and whatever comes behind the name asks the entry to be a directory,
    a slash alone included. *)
Inductive spot : Type :=
| Top
| On (name : string)
| Past (name : string) (slash : bool).

Definition walk (s : spot) (part : string) : spot :=
  match s with
  | Top =>
      if String.eqb part "" || String.eqb part "." || String.eqb part ".."
      then Top else On part
  | On name => Past name (String.eqb part "")
  | Past name slash => Past name (slash && String.eqb part "")
  end.

Definition one_directory (path : string) : place :=
  match path with
  | EmptyString => Refused (no_such_file path)
  | _ =>
      match List.fold_left walk (Str.split_on "/" path) Top with
      | Top => Refused (is_a_directory path)
      | On name => Entry name
      | Past name slash => Beyond name slash
      end
  end.

Definition no_files : filesystem := mk_fs one_directory [].

(** The program at its start, on that machine without a file, at noon of a
    twentieth of May. *)
Definition world0 : world := mk_world [] no_files (noon 2023 5 20) [].

Definition added : pyval := PStr "Contact added successfully".

Definition alice : Rec.t :=
  Rec.mk "alice" [Some "1234567890"; Some "0987654321"] (Some "1990-05-20").

Definition born_may_20 : Rec.t := Rec.mk "alice" [] (Some "1990-05-20").

Definition bob : Rec.t := Rec.mk "bob" [Some "5550001111"] None.
Definition carol : Rec.t := Rec.mk "carol" [Some "1112223333"] None.
Definition al555 : Rec.t := Rec.mk "al555" [] None.

Definition three_contacts : AddressBook.t :=
  AddressBook.add_record
    (AddressBook.add_record (AddressBook.add_record [] bob) carol) al555.

(** A book whose one record holds no phone. *)
Definition no_phones : world :=
  mk_world [("bob", Rec.mk "bob" [] (Some "1990-01-01"))] no_files
    (noon 2023 5 20) [].

(** ** Words and sample data of the further properties *)

(** A character that lowering leaves alone and that is no capital sigma,
    and the test for it. *)
Definition stable (d : Z) : Prop := d <> 931 /\ Unicode.lower_full d = [d].

Definition stableb (d : Z) : bool :=
  negb (d =? 931)
  && match Unicode.lower_full d with
     | [d'] => d' =? d
     | _ => false
     end.

(** The code points of a run of the table of [lower]. *)
Definition run_members (run : Z * Z * Z * Z) : list Z :=
  let '(lo, hi, step, _) := run in
  List.map (fun i => lo + step * Z.of_nat i)
    (List.seq 0 (S (Z.to_nat ((hi - lo) / step)))).

(** What is checked of a run: it moves its code points to code points, and
    to ones that are stable. *)
Definition run_ok (run : Z * Z * Z * Z) : bool :=
  let '(lo, hi, step, delta) := run in
  (0 <? step) && (0 <=? lo + delta) && (hi + delta <=? 1114111)
  && forallb (fun c => stableb (c + delta)) (run_members run).

Definition two_phones : Rec.t :=
  Rec.mk "dan" [Some "1111111111"; Some "2222222222"; Some "1111111111"] None.

Definition dashless (x : string) : bool :=
  Str.all (fun c => negb (Ascii.eqb c "-")) x.

(** A piece hands back a split of its input, and reads no dash. *)
Definition piece_sound (p : Datetime.piece) : Prop :=
  forall s x rest, p s = Some (x, rest) -> s = x ++ rest /\ dashless x = true.


(** The same machine after the three contacts were saved to a second
    file. *)
Definition saved : filesystem :=
  mk_fs one_directory
    [("old.json", Garbage);
     ("book.json", Contacts (List.map Rec.serialize (Dict.values three_contacts)))].

(** The text of a record whose phones all have a value. *)
Definition line_of (r : Rec.t) : string :=
  "Contact name: " ++ Rec.name r ++ ", phones: "
  ++ Str.join ", " (List.map opt_str (Rec.phones r))
  ++ ", birthday: " ++ opt_str (Rec.birthday r).

(** The world after [print] was given the lines, one by one. *)
Definition print_lines (lines : list string) (w : world) : world :=
  List.fold_left (fun w' line => print (PStr line) w') lines w.

(** * Properties *)

(** ** Strings *)

Lemma code_byte (z : Z) : 0 <= z < 256 -> Str.code (Str.byte z) = z.
Proof.
  intros H. unfold Str.code, Str.byte.
  rewrite N_ascii_embedding; lia.
Qed.

Lemma code_range (b : ascii) : 0 <= Str.code b < 256.
Proof.
  unfold Str.code. pose proof (N_ascii_bounded b). lia.
Qed.

Lemma cont_inv (s : string) (v : Z) (b : ascii) (s' : string) :
  Str.cont s = Some (v, b, s') ->
  s = String b s' /\ v = Str.code b - 128 /\ 128 <= Str.code b < 192.
Proof.
  unfold Str.cont. destruct s as [|b0 s0]; [discriminate|].
  destruct ((128 <=? Str.code b0) && (Str.code b0 <? 192)) eqn:E;
    [|discriminate].
  intros H. injection H as <- <- <-. apply andb_true_iff in E.
  destruct E as [E1 E2]. apply Z.leb_le in E1. apply Z.ltb_lt in E2.
  repeat split; lia.
Qed.

(** What [uncons] hands back: a cut of the text, whose first part is one
    ASCII byte standing for itself or bytes that are all 128 or more. *)
Lemma uncons_inv (s : string) (c : Z) (x rest : string) :
  Str.uncons s = Some (c, x, rest) ->
  s = x ++ rest /\ code_point c
  /\ ((exists b, x = String b "" /\ Str.code b < 128 /\ c = Str.code b)
      \/ (Str.all high x = true /\ 128 <= c)).
Proof.
  unfold Str.uncons. destruct s as [|b s0]; [discriminate|]. cbv zeta.
  pose proof (code_range b) as Hb.
  assert (Alone : forall z, z = Str.replacement \/ (z = Str.code b) ->
            Some (z, String b "", s0) = Some (c, x, rest) ->
            (Str.code b <? 128) = negb (z =? Str.replacement) ->
            String b s0 = x ++ rest /\ code_point c
            /\ ((exists b', x = String b' "" /\ Str.code b' < 128
                           /\ c = Str.code b')
                \/ (Str.all high x = true /\ 128 <= c))).
  { intros z Hz H E. injection H as <- <- <-. split; [reflexivity|].
    unfold code_point, Str.replacement in *.
    destruct (Str.code b <? 128) eqn:E1.
    - apply Z.ltb_lt in E1. destruct Hz as [-> | ->]; [discriminate E|].
      split; [lia|]. left. exists b. repeat split; lia.
    - apply Z.ltb_ge in E1. symmetry in E. apply negb_false_iff in E.
      apply Z.eqb_eq in E. subst z. split; [lia|]. right.
      cbn [Str.all]. unfold high. split; [|lia].
      rewrite andb_true_r. apply Z.leb_le. lia. }
  destruct (Str.code b <? 128) eqn:E0.
  { intros H. apply (Alone _ (or_intror eq_refl) H).
    apply Z.ltb_lt in E0. unfold Str.replacement.
    symmetry. apply negb_true_iff, Z.eqb_neq. lia. }
  assert (Junk : Some (Str.replacement, String b "", s0) = Some (c, x, rest) ->
            String b s0 = x ++ rest /\ code_point c
            /\ ((exists b', x = String b' "" /\ Str.code b' < 128
                           /\ c = Str.code b')
                \/ (Str.all high x = true /\ 128 <= c))).
  { intros H. apply (Alone _ (or_introl eq_refl) H). reflexivity. }
  apply Z.ltb_ge in E0.
  destruct (Str.cont s0) as [[[c1 b1] s1]|] eqn:H1; [|exact Junk].
  apply cont_inv in H1. destruct H1 as (-> & -> & Hb1).
  destruct ((192 <=? Str.code b) && (Str.code b <? 224)) eqn:E2.
  { destruct (128 <=? (Str.code b - 192) * 64 + (Str.code b1 - 128)) eqn:E3;
      [|exact Junk].
    intros H. injection H as <- <- <-. apply andb_true_iff in E2.
    destruct E2 as [E2 E2']. apply Z.leb_le in E2, E3. apply Z.ltb_lt in E2'.
    split; [reflexivity|]. unfold code_point. split; [lia|]. right.
    cbn [Str.all]. unfold high. split; [|lia].
    repeat (apply andb_true_iff; split); try reflexivity; apply Z.leb_le; lia. }
  destruct (Str.cont s1) as [[[c2 b2] s2]|] eqn:H2; [|exact Junk].
  apply cont_inv in H2. destruct H2 as (-> & -> & Hb2).
  destruct ((224 <=? Str.code b) && (Str.code b <? 240)) eqn:E4.
  { destruct (2048 <=? _) eqn:E5; [|exact Junk].
    intros H. injection H as <- <- <-. apply andb_true_iff in E4.
    destruct E4 as [E4 E4']. apply Z.leb_le in E4, E5. apply Z.ltb_lt in E4'.
    split; [reflexivity|]. unfold code_point. split; [lia|]. right.
    cbn [Str.all]. unfold high. split; [|lia].
    repeat (apply andb_true_iff; split); try reflexivity; apply Z.leb_le; lia. }
  destruct (Str.cont s2) as [[[c3 b3] s3]|] eqn:H3; [|exact Junk].
  apply cont_inv in H3. destruct H3 as (-> & -> & Hb3).
  destruct ((240 <=? Str.code b) && (65536 <=? _) && (_ <=? 1114111)) eqn:E6;
    [|exact Junk].
  intros H. injection H as <- <- <-.
  apply andb_true_iff in E6. destruct E6 as [E6 E8].
  apply andb_true_iff in E6. destruct E6 as [E6 E7].
  apply Z.leb_le in E6, E7, E8.
  split; [reflexivity|]. unfold code_point. split; [lia|]. right.
  cbn [Str.all]. unfold high. split; [|lia].
  repeat (apply andb_true_iff; split); try reflexivity; apply Z.leb_le; lia.
Qed.

Lemma uncons_nonempty (s : string) (c : Z) (x rest : string) :
  Str.uncons s = Some (c, x, rest) -> x <> "".
Proof.
  unfold Str.uncons. destruct s as [|b s0]; [discriminate|]. cbv zeta.
  intros H.
  repeat match type of H with
         | (if ?t then _ else _) = _ => destruct t
         | match ?t with _ => _ end = _ => destruct t as [[[]]|]
         end;
    injection H as _ <- _; discriminate.
Qed.

Lemma uncons_byte (b : ascii) (s : string) :
  Str.code b < 128 -> Str.uncons (String b s) = Some (Str.code b, String b "", s).
Proof.
  intros H. unfold Str.uncons.
  replace (Str.code b <? 128) with true by (symmetry; apply Z.ltb_lt; exact H).
  reflexivity.
Qed.

Lemma cont_byte (v : Z) (s : string) :
  0 <= v < 64 ->
  Str.cont (String (Str.byte (128 + v)) s) = Some (v, Str.byte (128 + v), s).
Proof.
  intros H. unfold Str.cont. rewrite code_byte by lia.
  replace (128 <=? 128 + v) with true by (symmetry; apply Z.leb_le; lia).
  replace (128 + v <? 192) with true by (symmetry; apply Z.ltb_lt; lia).
  cbn [andb]. repeat f_equal. lia.
Qed.

Ltac decide_test :=
  match goal with
  | |- context [?a <? ?b] =>
      first [ replace (a <? b) with true
                by (symmetry; apply Z.ltb_lt; Z.div_mod_to_equations; lia)
            | replace (a <? b) with false
                by (symmetry; apply Z.ltb_ge; Z.div_mod_to_equations; lia) ]
  | |- context [?a <=? ?b] =>
      first [ replace (a <=? b) with true
                by (symmetry; apply Z.leb_le; Z.div_mod_to_equations; lia)
            | replace (a <=? b) with false
                by (symmetry; apply Z.leb_gt; Z.div_mod_to_equations; lia) ]
  end.

(** The bytes of a code point are read back as that code point. *)
Lemma uncons_chr (c : Z) (s : string) :
  code_point c -> Str.uncons (Str.chr c ++ s) = Some (c, Str.chr c, s).
Proof.
  unfold code_point. intros Hc. unfold Str.chr.
  destruct (Z.ltb_spec c 128) as [H1|H1];
    [|destruct (Z.ltb_spec c 2048) as [H2|H2];
      [|destruct (Z.ltb_spec c 65536) as [H3|H3]]];
    cbn [append]; unfold Str.uncons; cbv zeta;
    rewrite ?code_byte by (Z.div_mod_to_equations; lia);
    rewrite ?cont_byte by (Z.div_mod_to_equations; lia);
    repeat (decide_test; cbn [andb]);
    repeat f_equal; Z.div_mod_to_equations; lia.
Qed.

Lemma chr_nonempty (c : Z) : Str.chr c <> "".
Proof.
  unfold Str.chr.
  destruct (c <? 128); [discriminate|].
  destruct (c <? 2048); [discriminate|].
  destruct (c <? 65536); discriminate.
Qed.

Lemma length_app (a b : string) :
  String.length (a ++ b) = (String.length a + String.length b)%nat.
Proof.
  induction a as [|c a IH]; [reflexivity|]. simpl. rewrite IH. reflexivity.
Qed.

Lemma uncons_shorter (s : string) (c : Z) (x rest : string) :
  Str.uncons s = Some (c, x, rest) ->
  (String.length rest < String.length s)%nat.
Proof.
  intros H. pose proof (uncons_nonempty _ _ _ _ H) as Hx.
  apply uncons_inv in H. destruct H as (-> & _).
  rewrite length_app. destruct x; [congruence | simpl; lia].
Qed.

Lemma chars_upto_enough (n : nat) : forall s : string,
  (String.length s <= n)%nat -> Str.chars_upto n s = Str.chars s.
Proof.
  unfold Str.chars.
  induction n as [n IH] using (well_founded_induction Wf_nat.lt_wf).
  intros s Hn.
  destruct n as [|n].
  - destruct s; [reflexivity | simpl in Hn; lia].
  - cbn [Str.chars_upto].
    destruct (Str.uncons s) as [[[c x] rest]|] eqn:Hu.
    + pose proof (uncons_shorter _ _ _ _ Hu) as Hlt.
      destruct (String.length s) as [|m] eqn:Hm; [lia|].
      cbn [Str.chars_upto]. rewrite Hu. f_equal.
      rewrite (IH n) by lia. symmetry. apply (IH m); lia.
    + destruct s as [|b s]; [reflexivity|].
      cbn [String.length Str.chars_upto]. rewrite Hu. reflexivity.
Qed.

(** The characters of a text, one after the other. *)
Lemma chars_eq (s : string) :
  Str.chars s = match Str.uncons s with
                | Some (c, _, rest) => c :: Str.chars rest
                | None => []
                end.
Proof.
  destruct s as [|b s]; [reflexivity|].
  unfold Str.chars at 1. cbn [String.length Str.chars_upto].
  destruct (Str.uncons (String b s)) as [[[c x] rest]|] eqn:Hu; [|reflexivity].
  f_equal. apply chars_upto_enough.
  apply uncons_shorter in Hu. simpl in Hu. lia.
Qed.

(** Every list of code points is the characters of its text. *)
Lemma chars_text (cs : list Z) :
  Forall code_point cs -> Str.chars (Str.text cs) = cs.
Proof.
  induction 1 as [|c cs Hc _ IH]; [reflexivity|].
  cbn [Str.text]. rewrite chars_eq, (uncons_chr c _ Hc), IH. reflexivity.
Qed.

(** An induction on a text, character by character. *)
Lemma text_ind (P : string -> Prop) :
  (forall s, Str.uncons s = None -> P s) ->
  (forall s c x rest, Str.uncons s = Some (c, x, rest) -> P rest -> P s) ->
  forall s, P s.
Proof.
  intros Hnone Hsome s.
  remember (String.length s) as n eqn:Hn. revert s Hn.
  induction n as [n IH] using (well_founded_induction Wf_nat.lt_wf).
  intros s ->.
  destruct (Str.uncons s) as [[[c x] rest]|] eqn:Hu; [|apply Hnone, Hu].
  apply (Hsome s c x rest Hu).
  apply (IH (String.length rest)); [|reflexivity].
  exact (uncons_shorter _ _ _ _ Hu).
Qed.

Lemma chars_code_points (s : string) : Forall code_point (Str.chars s).
Proof.
  induction s as [s Hu | s c x rest Hu IH] using text_ind;
    rewrite chars_eq, Hu; [constructor|].
  constructor; [|exact IH]. apply uncons_inv in Hu. tauto.
Qed.

Lemma text_nonempty (cs : list Z) : cs <> [] -> Str.text cs <> "".
Proof.
  destruct cs as [|c cs]; [congruence|]. intros _. cbn [Str.text].
  pose proof (chr_nonempty c). destruct (Str.chr c); [congruence | discriminate].
Qed.

Lemma within_iff (table : list (Z * Z)) (c : Z) :
  Unicode.within table c = true
  <-> exists lo hi, In (lo, hi) table /\ lo <= c <= hi.
Proof.
  unfold Unicode.within. rewrite existsb_exists. split.
  - intros [[lo hi] [Hin H]]. apply andb_true_iff in H.
    destruct H as [H1 H2]. apply Z.leb_le in H1, H2.
    exists lo, hi. split; [exact Hin | lia].
  - intros (lo & hi & Hin & H). exists (lo, hi). split; [exact Hin|].
    apply andb_true_iff. split; apply Z.leb_le; lia.
Qed.

Lemma all_Forall (p : ascii -> bool) (s : string) :
  Str.all p s = true <-> Forall (fun c => p c = true) (list_ascii_of_string s).
Proof.
  induction s as [|c s IH]; simpl.
  - split; auto.
  - rewrite andb_true_iff, IH. split.
    + intros [Hc Hs]. constructor; assumption.
    + intros H. inversion H; subst. split; assumption.
Qed.

(** [isdigit] is true of a text that has a character and has only digits. *)
Lemma isdigit_iff (s : string) :
  Str.isdigit s = true
  <-> Str.chars s <> [] /\ Forall unicode_digit (Str.chars s).
Proof.
  unfold Str.isdigit.
  assert (H : forall cs, forallb Unicode.isdigit cs = true
                         <-> Forall unicode_digit cs).
  { intros cs. rewrite forallb_forall, Forall_forall.
    split; intros H c Hc; apply within_iff, H, Hc. }
  destruct (Str.chars s) as [|c cs]; [split; [discriminate | intros [[] _]; reflexivity]|].
  rewrite H. split; [intros Hd; split; [discriminate | exact Hd] | tauto].
Qed.

Lemma startswith_app (p s : string) :
  Str.startswith p s = true <-> exists t, s = p ++ t.
Proof.
  revert s. induction p as [|a p IH]; intros s; simpl.
  - split; [exists s; reflexivity | reflexivity].
  - destruct s as [|b s].
    + split; [discriminate | intros [t Ht]; discriminate Ht].
    + rewrite andb_true_iff, IH. split.
      * intros [Hab [t ->]]. apply Ascii.eqb_eq in Hab. subst b.
        exists t. reflexivity.
      * intros [t Ht]. injection Ht as -> ->. split.
        -- apply Ascii.eqb_refl.
        -- exists t. reflexivity.
Qed.

Lemma contains_substring (q s : string) :
  Str.contains q s = true <-> substring q s.
Proof.
  unfold substring. induction s as [|c s IH].
  - simpl. rewrite orb_false_r, startswith_app. split.
    + intros [t Ht]. exists "", t. exact Ht.
    + intros [a [b H]]. destruct a; [exists b; exact H | discriminate H].
  - simpl. rewrite orb_true_iff, startswith_app, IH. split.
    + intros [[t Ht] | [a [b H]]].
      * exists "", t. exact Ht.
      * exists (String c a), b. simpl. rewrite H. reflexivity.
    + intros [a [b H]]. destruct a as [|c' a].
      * left. exists b. exact H.
      * right. simpl in H. injection H as _ H. exists a, b. exact H.
Qed.

(** ** Phone.validate *)

(** C3, as amended.  On a text [Phone.validate_phone] always answers, and
    answers true exactly when the text has ten characters, all of them
    digits as [str.isdigit] has them; on [None] it does not answer false
    but raises a [TypeError]. *)
Theorem validate_phone_spec :
  (forall cs : list Z,
      Forall code_point cs ->
      exists b, Phone.validate_phone (Some (Str.text cs)) = Ok b
                /\ (b = true <->
                    List.length cs = 10%nat /\ Forall unicode_digit cs))
  /\ (exists m, Phone.validate_phone None = Raise (TypeError m)).
Proof.
  split.
  - intros cs Hcs. eexists. split; [reflexivity|].
    rewrite andb_true_iff, isdigit_iff. unfold Str.len.
    rewrite (chars_text cs Hcs), Z.eqb_eq. split.
    + intros [Hl [_ Hd]]. split; [lia | exact Hd].
    + intros [Hl Hd]. split; [lia|]. split; [|exact Hd].
      intros ->. discriminate Hl.
  - eexists. reflexivity.
Qed.

Lemma validate_phone_spec_witness :
  Str.text [8304; 185; 178; 179; 8308; 8309; 8310; 8311; 8312; 8313]
  = "⁰¹²³⁴⁵⁶⁷⁸⁹"
  /\ Phone.validate_phone (Some "⁰¹²³⁴⁵⁶⁷⁸⁹") = Ok true
  /\ Phone.validate_phone (Some "12345678901") = Ok false.
Proof.
  split; [reflexivity|]. split.
  - destruct (proj1 validate_phone_spec
                [8304; 185; 178; 179; 8308; 8309; 8310; 8311; 8312; 8313])
      as [b [Hb Hiff]].
    + repeat constructor; unfold code_point; lia.
    + change (Str.text _) with "⁰¹²³⁴⁵⁶⁷⁸⁹" in Hb. rewrite Hb. f_equal.
      apply Hiff. split; [reflexivity|].
      repeat constructor; apply within_iff; vm_compute; reflexivity.
  - destruct (proj1 validate_phone_spec
                [49; 50; 51; 52; 53; 54; 55; 56; 57; 48; 49])
      as [b [Hb Hiff]].
    + repeat constructor; unfold code_point; lia.
    + change (Str.text _) with "12345678901" in Hb. rewrite Hb. f_equal.
      destruct b; [|reflexivity].
      destruct (proj1 Hiff eq_refl) as [Hl _]. discriminate Hl.
Defined.

(** The part of C3 that holds as stated: ten decimal digits are a phone. *)
Lemma validate_phone_decimal (cs : list Z) :
  List.length cs = 10%nat -> Forall decimal_digit cs ->
  Phone.validate_phone (Some (Str.text cs)) = Ok true.
Proof.
  intros Hl Hd.
  assert (Hcs : Forall code_point cs).
  { eapply Forall_impl; [|exact Hd]. unfold decimal_digit, code_point. lia. }
  cbn [Phone.validate_phone]. f_equal. apply andb_true_iff. split.
  - unfold Str.len. rewrite (chars_text cs Hcs). apply Z.eqb_eq. lia.
  - apply isdigit_iff. rewrite (chars_text cs Hcs). split.
    + intros ->. discriminate Hl.
    + eapply Forall_impl; [|exact Hd]. intros c Hc. exists 48, 57.
      split; [left; reflexivity | exact Hc].
Qed.

(** C3 as stated fails: for the null value the call raises instead of
    returning false. *)
Lemma validate_phone_null_raises :
  Phone.validate_phone None
  = Raise (TypeError "object of type 'NoneType' has no len()")
  /\ Phone.validate_phone None <> Ok false.
Proof. split; [reflexivity | discriminate]. Qed.

(** It fails for texts too: ten superscript digits, none of them a decimal
    digit, are taken for a phone. *)
Lemma validate_phone_superscripts :
  Str.chars "⁰¹²³⁴⁵⁶⁷⁸⁹"
  = [8304; 185; 178; 179; 8308; 8309; 8310; 8311; 8312; 8313]
  /\ Forall (fun c => ~ decimal_digit c) (Str.chars "⁰¹²³⁴⁵⁶⁷⁸⁹")
  /\ Phone.validate_phone (Some "⁰¹²³⁴⁵⁶⁷⁸⁹") = Ok true.
Proof.
  split; [reflexivity|]. split; [|reflexivity].
  change (Str.chars "⁰¹²³⁴⁵⁶⁷⁸⁹")
    with [8304; 185; 178; 179; 8308; 8309; 8310; 8311; 8312; 8313].
  repeat constructor; unfold decimal_digit; lia.
Qed.

(** ** Birthday.validate *)

Lemma zrange_In (lo : Z) (n : nat) (z : Z) :
  lo <= z < lo + Z.of_nat n -> In z (zrange lo n).
Proof.
  intros H. unfold zrange. apply in_map_iff.
  exists (Z.to_nat (z - lo)). split; [lia|].
  apply in_seq. lia.
Qed.

Lemma is_int_eq (r : result Z) (z : Z) : is_int r z = true -> r = Ok z.
Proof.
  destruct r as [z'|e]; simpl; [|discriminate].
  intros H. apply Z.eqb_eq in H. subst. reflexivity.
Qed.

Lemma years_ok : forallb year_ok (zrange 1900 201) = true.
Proof. vm_compute. reflexivity. Qed.

Lemma months_days_ok :
  forallb (fun m => forallb (month_day_ok m) (zrange 1 31)) (zrange 1 12) = true.
Proof. vm_compute. reflexivity. Qed.

Lemma alt_ext {A : Type} (ps : list Datetime.piece)
  (k k' : string -> string -> option A) (s : string) :
  (forall x r, k x r = k' x r) -> Datetime.alt ps k s = Datetime.alt ps k' s.
Proof.
  intros H. induction ps as [|p ps IH]; [reflexivity|]. simpl.
  destruct (p s) as [[x rest]|]; [|exact IH].
  rewrite H, IH. reflexivity.
Qed.

Lemma alt_map {A B : Type} (g : A -> B) (ps : list Datetime.piece)
  (k : string -> string -> option A) (s : string) :
  Datetime.alt ps (fun x r => option_map g (k x r)) s
  = option_map g (Datetime.alt ps k s).
Proof.
  induction ps as [|p ps IH]; [reflexivity|]. simpl.
  destruct (p s) as [[x rest]|]; [|exact IH].
  destruct (k x rest); [reflexivity | exact IH].
Qed.

Lemma digit_byte_code (c : ascii) :
  digit_byte c = true -> 48 <= Str.code c <= 57.
Proof.
  unfold digit_byte. intros H. apply andb_true_iff in H.
  destruct H as [H1 H2]. apply Z.leb_le in H1, H2. lia.
Qed.

(** The [\d] of the expression takes a digit [0] to [9]. *)
Lemma digit_at (c : ascii) (s : string) :
  digit_byte c = true -> Datetime.digit (String c s) = Some (String c "", s).
Proof.
  intros H. apply digit_byte_code in H.
  unfold Datetime.digit, Datetime.one_char. rewrite uncons_byte by lia.
  replace (Unicode.isdecimal (Str.code c)) with true; [reflexivity|].
  symmetry. apply within_iff. exists 48, 57. split; [left; reflexivity | lia].
Qed.

(** Behind four digits and a dash the expression goes on with month and
    day, and [split] has cut its first piece. *)
Lemma re_match_year (Y rest : string) :
  four_digits Y = true ->
  Datetime.re_match (Y ++ String "-" rest)
  = option_map (fun '(m, d, tail) => (Y, m, d, tail)) (month_day_match rest).
Proof.
  intros H.
  destruct Y as [|c1 [|c2 [|c3 [|c4 [|c5 Y]]]]]; try discriminate H.
  cbn [four_digits] in H.
  apply andb_true_iff in H. destruct H as [H H4].
  apply andb_true_iff in H. destruct H as [H H3].
  apply andb_true_iff in H. destruct H as [H1 H2].
  unfold Datetime.re_match, Datetime.re_Y, Datetime.seq.
  cbn [append].
  rewrite (digit_at _ _ H1), (digit_at _ _ H2), (digit_at _ _ H3),
    (digit_at _ _ H4).
  cbn [append].
  unfold month_day_match. rewrite <- alt_map. apply alt_ext.
  intros m s2. destruct s2 as [|c s3]; [reflexivity|].
  destruct c as [[] [] [] [] [] [] [] []]; try reflexivity.
  rewrite <- alt_map. reflexivity.
Qed.

Lemma digit_not_dash (c : ascii) :
  digit_byte c = true -> Ascii.eqb c "-" = false.
Proof.
  intros H. destruct (Ascii.eqb_spec c "-") as [->|_];
    [discriminate H | reflexivity].
Qed.

Lemma split_on_year (Y rest : string) :
  four_digits Y = true ->
  Str.split_on "-" (Y ++ String "-" rest) = Y :: Str.split_on "-" rest.
Proof.
  intros H.
  destruct Y as [|c1 [|c2 [|c3 [|c4 [|c5 Y]]]]]; try discriminate H.
  cbn [four_digits] in H.
  apply andb_true_iff in H. destruct H as [H H4].
  apply andb_true_iff in H. destruct H as [H H3].
  apply andb_true_iff in H. destruct H as [H1 H2].
  unfold Str.split_on. cbn [append Str.split_on_aux].
  rewrite (digit_not_dash c1 H1), (digit_not_dash c2 H2),
    (digit_not_dash c3 H3), (digit_not_dash c4 H4).
  rewrite Ascii.eqb_refl. reflexivity.
Qed.

(** Between its bounds a year, a month and a day make a [datetime] exactly
    when the month has the day. *)
Lemma make_day (y m d : Z) :
  1 <= y <= 9999 -> 1 <= m <= 12 -> 1 <= d ->
  Datetime.make y m d
  = if d <=? Datetime.days_in_month y m
    then Ok (Datetime.mk y m d 0 0 0 0)
    else Raise (ValueError "day is out of range for month").
Proof.
  intros Hy Hm Hd. unfold Datetime.make.
  replace (1 <=? y) with true by (symmetry; apply Z.leb_le; lia).
  replace (y <=? 9999) with true by (symmetry; apply Z.leb_le; lia).
  replace (1 <=? m) with true by (symmetry; apply Z.leb_le; lia).
  replace (m <=? 12) with true by (symmetry; apply Z.leb_le; lia).
  replace (1 <=? d) with true by (symmetry; apply Z.leb_le; lia).
  cbn [andb negb].
  destruct (d <=? Datetime.days_in_month y m); reflexivity.
Qed.

(** C1, as amended.  For a year in [1900,2100], a month in [1,12] and a day
    in [1,31] written [YYYY-MM-DD], [Birthday.validate_birthday] is true
    exactly when that month of that year has that day. *)
Theorem validate_birthday_calendar (y m d : Z) :
  1900 <= y <= 2100 -> 1 <= m <= 12 -> 1 <= d <= 31 ->
  Birthday.validate_birthday (Some (iso_date y m d))
  = Ok (d <=? Datetime.days_in_month y m).
Proof.
  intros Hy Hm Hd.
  assert (Iy : In y (zrange 1900 201)) by (apply zrange_In; lia).
  assert (Im : In m (zrange 1 12)) by (apply zrange_In; lia).
  assert (Id : In d (zrange 1 31)) by (apply zrange_In; lia).
  pose proof (proj1 (forallb_forall year_ok (zrange 1900 201)) years_ok y Iy)
    as HY.
  pose proof (proj1 (forallb_forall _ (zrange 1 12)) months_days_ok m Im) as HM.
  cbv beta in HM.
  pose proof (proj1 (forallb_forall (month_day_ok m) (zrange 1 31)) HM d Id)
    as HD.
  clear HM Iy Im Id.
  unfold year_ok in HY. apply andb_true_iff in HY. destruct HY as [H4 HyI].
  apply is_int_eq in HyI.
  unfold month_day_ok in HD.
  destruct (month_day_match (month_day_str m d)) as [[[sm sd] tail]|] eqn:Hmatch;
    [|discriminate HD].
  destruct tail; [|discriminate HD].
  destruct (Str.split_on "-" (month_day_str m d)) as [|pm [|pd [|x l]]] eqn:Hsplit;
    try discriminate HD.
  apply andb_true_iff in HD. destruct HD as [HD Hpd].
  apply andb_true_iff in HD. destruct HD as [HD Hpm].
  apply andb_true_iff in HD. destruct HD as [Hsm Hsd].
  apply is_int_eq in Hsm, Hsd, Hpm, Hpd.
  unfold Birthday.validate_birthday, Birthday.validate_birthday_body,
    Datetime.strptime, Birthday.unpack3, iso_date.
  change (year_str y ++ "-" ++ month_day_str m d)
    with (year_str y ++ String "-" (month_day_str m d)).
  rewrite (re_match_year _ _ H4), Hmatch. cbn [option_map].
  rewrite HyI, Hsm, Hsd. cbn [bind].
  rewrite (make_day y m d) by lia.
  destruct (d <=? Datetime.days_in_month y m); [|reflexivity].
  cbn [bind]. rewrite (split_on_year _ _ H4), Hsplit.
  cbn [Birthday.take_ints bind]. rewrite HyI, Hpm, Hpd. cbn [bind].
  f_equal.
  repeat (apply andb_true_iff; split); apply Z.leb_le; lia.
Qed.

Lemma validate_birthday_calendar_witness :
  iso_date 2024 2 29 = "2024-02-29"
  /\ Birthday.validate_birthday (Some (iso_date 2024 2 29)) = Ok true
  /\ Birthday.validate_birthday (Some (iso_date 2023 2 29)) = Ok false.
Proof.
  split; [reflexivity|]. split.
  - apply (validate_birthday_calendar 2024 2 29); lia.
  - apply (validate_birthday_calendar 2023 2 29); lia.
Defined.

(** C1 as stated fails: the thirtieth of February has year, month and day
    in the three ranges and is refused. *)
Lemma validate_birthday_feb_30 :
  iso_date 2021 2 30 = "2021-02-30"
  /\ (1900 <= 2021 <= 2100 /\ 1 <= 2 <= 12 /\ 1 <= 30 <= 31)
  /\ Birthday.validate_birthday (Some "2021-02-30") = Ok false.
Proof. split; [reflexivity|]. split; [lia | reflexivity]. Qed.

(** ** Serialising a record *)

Lemma set_birthday_validated (b : option string) :
  validated_birthday b -> Birthday.set_value b = Ok b.
Proof.
  intros [-> | H]; [reflexivity|].
  destruct b as [s|]; [|reflexivity].
  unfold Birthday.set_value. rewrite H. reflexivity.
Qed.

Lemma add_phone_validated (r : Rec.t) (p : option string) :
  validated_phone p ->
  Rec.add_phone r p = Ok (Rec.mk (Rec.name r) (Rec.phones r ++ [p]) (Rec.birthday r)).
Proof.
  intros [s [-> H]]. unfold Rec.add_phone, Phone.set_value.
  rewrite H. simpl. reflexivity.
Qed.

Lemma add_phones_validated (l : list (option string)) : forall r : Rec.t,
  Forall validated_phone l ->
  Rec.add_phones r l = Ok (Rec.mk (Rec.name r) (Rec.phones r ++ l) (Rec.birthday r)).
Proof.
  induction l as [|p l IH]; intros r H; simpl.
  - rewrite app_nil_r. destruct r; reflexivity.
  - inversion H as [|p' l' Hp Hl]; subst.
    rewrite (add_phone_validated r p Hp). simpl.
    rewrite (IH _ Hl). simpl. rewrite <- app_assoc. reflexivity.
Qed.

(** The first phone of the list that has a value and fails validation makes
    [add_phones] raise, whatever stands behind it. *)
Lemma add_phones_refused (l : list (option string)) : forall r : Rec.t,
  (exists s, In (Some s) l /\ Phone.validate_phone (Some s) = Ok false) ->
  Rec.add_phones r l = Raise (ValueError Phone.msg).
Proof.
  induction l as [|p l IH]; intros r [s [Hin Hs]]; [destruct Hin|].
  simpl. destruct p as [q|].
  - unfold Rec.add_phone, Phone.set_value.
    destruct (Phone.validate_phone (Some q)) as [[|]|e] eqn:Hq; simpl.
    + apply IH.
      destruct Hin as [Heq | Hin]; [|exists s; auto].
      injection Heq as ->. rewrite Hq in Hs. discriminate Hs.
    + reflexivity.
    + simpl in Hq. discriminate Hq.
  - simpl. apply IH. destruct Hin as [Heq | Hin]; [discriminate Heq|].
    exists s; auto.
Qed.

(** C7.  A record whose phones are validated and whose birthday is absent or
    validated comes back unchanged from [serialize] then [deserialize]: same
    name, same phones in the same order, same birthday.  [deserialize]
    validates what it reads: a birthday that fails validation, or (the
    birthday being fine) a phone that fails it, ends in the [ValueError] of
    that field. *)
Theorem deserialize_serialize (r : Rec.t) (d : Rec.data) :
  (Forall validated_phone (Rec.phones r) -> validated_birthday (Rec.birthday r) ->
   Rec.deserialize (Rec.serialize r) = Ok r)
  /\ (Birthday.validate_birthday (Rec.d_birthday d) = Ok false ->
      Rec.deserialize d = Raise (ValueError Birthday.msg))
  /\ (validated_birthday (Rec.d_birthday d) ->
      (exists s, In (Some s) (Rec.d_phones d)
                 /\ Phone.validate_phone (Some s) = Ok false) ->
      Rec.deserialize d = Raise (ValueError Phone.msg)).
Proof.
  unfold Rec.deserialize, Rec.init. repeat split.
  - intros Hp Hb. simpl. rewrite (set_birthday_validated _ Hb). simpl.
    rewrite (add_phones_validated _ _ Hp). simpl. destruct r; reflexivity.
  - intros Hb. destruct (Rec.d_birthday d) as [b|]; [|discriminate Hb].
    unfold Birthday.set_value. rewrite Hb. reflexivity.
  - intros Hb Hp. rewrite (set_birthday_validated _ Hb). simpl.
    apply add_phones_refused, Hp.
Qed.

Lemma deserialize_serialize_witness :
  Rec.deserialize (Rec.serialize alice) = Ok alice
  /\ Rec.deserialize (Rec.mk_data "bob" [Some "1234567890"] (Some "1990-02-30"))
     = Raise (ValueError Birthday.msg)
  /\ Rec.deserialize (Rec.mk_data "bob" [Some "1234567890"; Some "12345"] None)
     = Raise (ValueError Phone.msg).
Proof.
  split; [|split].
  - apply (proj1 (deserialize_serialize alice (Rec.serialize alice))).
    + repeat constructor; eexists; (split; [reflexivity | reflexivity]).
    + right. reflexivity.
  - apply (proj1 (proj2 (deserialize_serialize alice
             (Rec.mk_data "bob" [Some "1234567890"] (Some "1990-02-30"))))).
    reflexivity.
  - apply (proj2 (proj2 (deserialize_serialize alice
             (Rec.mk_data "bob" [Some "1234567890"; Some "12345"] None)))).
    + left. reflexivity.
    + exists "12345". split; [right; left; reflexivity | reflexivity].
Defined.

(** A phone cleared by [edit_phone] has no value; [deserialize] skips it. *)
Lemma deserialize_drops_cleared_phone :
  Rec.deserialize (Rec.serialize (Rec.mk "bob" [None] None))
  = Ok (Rec.mk "bob" [] None).
Proof. reflexivity. Qed.

(** ** Searching *)

Lemma hitb_hit (query : string) (r : Rec.t) : hitb query r = true <-> hit query r.
Proof.
  unfold hitb, hit. rewrite orb_true_iff, contains_substring, existsb_exists.
  split; (intros [H | H]; [left; exact H | right]).
  - destruct H as [[s|] [Hin Hs]]; [|discriminate Hs].
    exists s. split; [exact Hin | apply contains_substring, Hs].
  - destruct H as [s [Hin Hs]]. exists (Some s).
    split; [exact Hin | apply contains_substring, Hs].
Qed.

Lemma any_phone_present (query : string) (l : list (option string)) :
  Forall (fun p => p <> None) l ->
  AddressBook.any_phone query l
  = Ok (existsb (fun p => match p with
                          | Some s => Str.contains query s
                          | None => false
                          end) l).
Proof.
  induction 1 as [|p l Hp Hl IH]; [reflexivity|].
  destruct p as [s|]; [|congruence]. simpl.
  destruct (Str.contains query s); [reflexivity | exact IH].
Qed.

Lemma matches_present (query : string) (r : Rec.t) :
  Forall (fun p => p <> None) (Rec.phones r) ->
  AddressBook.matches query r = Ok (hitb query r).
Proof.
  intros H. unfold AddressBook.matches, hitb.
  destruct (Str.contains query (Rec.name r)); [reflexivity|].
  apply any_phone_present, H.
Qed.

Lemma search_loop_filter (query : string) (contacts : list Rec.t) :
  forall results : list Rec.t,
  Forall (fun r => Forall (fun p => p <> None) (Rec.phones r)) contacts ->
  AddressBook.search_loop query contacts results
  = Ok (results ++ filter (hitb query) contacts)%list.
Proof.
  induction contacts as [|c contacts IH]; intros results H; simpl.
  - rewrite app_nil_r. reflexivity.
  - inversion H as [|c' l' Hc Hl]; subst.
    rewrite (matches_present query c Hc). simpl.
    rewrite (IH _ Hl). destruct (hitb query c); [|reflexivity].
    rewrite <- app_assoc. reflexivity.
Qed.

(** C9, as amended.  On a book in which every phone has a value, [search]
    returns, in the order of insertion, exactly the records whose name or
    one of whose phone values has the query as a substring (characters
    compared as they are). *)
Theorem search_contacts_spec (ab : AddressBook.t) (query : string) :
  phones_present ab ->
  exists keep : Rec.t -> bool,
    (forall r, keep r = true <-> hit query r)
    /\ AddressBook.search_contacts ab query = Ok (filter keep (Dict.values ab)).
Proof.
  intros H. exists (hitb query). split.
  - intros r. apply hitb_hit.
  - unfold AddressBook.search_contacts.
    rewrite (search_loop_filter query _ [] H). reflexivity.
Qed.

Lemma search_contacts_spec_witness :
  phones_present three_contacts
  /\ AddressBook.search_contacts three_contacts "555" = Ok [bob; al555]
  /\ exists keep : Rec.t -> bool,
       (forall r, keep r = true <-> hit "555" r)
       /\ AddressBook.search_contacts three_contacts "555"
          = Ok (filter keep (Dict.values three_contacts)).
Proof.
  assert (H : phones_present three_contacts).
  { repeat constructor; discriminate. }
  split; [exact H|]. split; [reflexivity|].
  exact (search_contacts_spec three_contacts "555" H).
Defined.

(** C9 as stated fails: a record whose only phone was cleared through
    [edit_phone] makes [search] raise as soon as its name lacks the query. *)
Lemma search_cleared_phone_raises :
  (let* r := Rec.init "bob" None in
   let* r := Rec.add_phone r (Some "1234567890") in
   Rec.edit_phone r (Some "1234567890") None)
  = Ok (Rec.mk "bob" [None] None)
  /\ AddressBook.search_contacts
       (AddressBook.add_record [] (Rec.mk "bob" [None] None)) "x"
     = Raise (TypeError "argument of type 'NoneType' is not iterable").
Proof. split; reflexivity. Qed.

(** ** The loop: which branch a line takes *)

Lemma with_book_same (w : world) : with_book (book w) w = w.
Proof. destruct w; reflexivity. Qed.

Lemma step_add (w : world) (line : string) (stdin : list string) :
  Str.startswith "add " (Str.lower line) = true ->
  step w (line :: stdin) = run_add (Str.split (Str.lower line)) w stdin.
Proof.
  intros H. unfold step. rewrite H.
  apply startswith_app in H. destruct H as [t ->]. reflexivity.
Qed.

Lemma step_change (w : world) (line : string) (stdin : list string) :
  Str.startswith "change " (Str.lower line) = true ->
  step w (line :: stdin) = run_change (Str.split (Str.lower line)) w stdin.
Proof.
  intros H. unfold step. rewrite H.
  apply startswith_app in H. destruct H as [t ->]. reflexivity.
Qed.

(** [strptime] on a string raises nothing but [ValueError], which is why
    [sort_args] may pass over whatever it raises. *)
Lemma int_raises_ValueError (s : string) (e : exn) :
  Str.int s = Raise e -> exists m, e = ValueError m.
Proof.
  unfold Str.int. cbv zeta. intros H.
  repeat match type of H with
         | (if ?c then _ else _) = _ => destruct c
         | match ?x with _ => _ end = _ => destruct x as [[[[? ?] ?] ?]|]
         end;
    try discriminate H; injection H as <-; eexists; reflexivity.
Qed.

Lemma make_raises_ValueError (y m d : Z) (e : exn) :
  Datetime.make y m d = Raise e -> exists msg, e = ValueError msg.
Proof.
  unfold Datetime.make. intros H.
  repeat match type of H with
         | (if ?c then _ else _) = _ => destruct c
         end;
    try discriminate H; injection H as <-; eexists; reflexivity.
Qed.

Lemma strptime_raises_ValueError (s : string) (e : exn) :
  Datetime.strptime s = Raise e -> exists m, e = ValueError m.
Proof.
  unfold Datetime.strptime. intros H.
  destruct (Datetime.re_match s) as [[[[Y m] d] tail]|].
  - destruct tail.
    + destruct (Str.int Y) as [y|e1] eqn:HY; simpl in H;
        [|injection H as <-; exact (int_raises_ValueError _ _ HY)].
      destruct (Str.int m) as [mo|e2] eqn:Hm; simpl in H;
        [|injection H as <-; exact (int_raises_ValueError _ _ Hm)].
      destruct (Str.int d) as [dd|e3] eqn:Hd; simpl in H;
        [|injection H as <-; exact (int_raises_ValueError _ _ Hd)].
      exact (make_raises_ValueError _ _ _ _ H).
    + injection H as <-. eexists. reflexivity.
  - injection H as <-. eexists. reflexivity.
Qed.

Lemma uncons_none (s : string) : Str.uncons s = None -> s = "".
Proof.
  destruct s as [|b s0]; [reflexivity|]. unfold Str.uncons. cbv zeta.
  intros H.
  repeat match type of H with
         | (if ?t then _ else _) = _ => destruct t
         | match ?t with _ => _ end = _ => destruct t as [[[]]|]
         end;
    discriminate H.
Qed.

Lemma list_ascii_app (a b : string) :
  list_ascii_of_string (a ++ b)
  = (list_ascii_of_string a ++ list_ascii_of_string b)%list.
Proof.
  induction a as [|c a IH]; [reflexivity|]. simpl. rewrite IH. reflexivity.
Qed.

(** An ASCII byte of a text is one of its characters. *)
Lemma byte_in_chars (a : ascii) (s : string) :
  Str.code a < 128 -> In a (list_ascii_of_string s) ->
  In (Str.code a) (Str.chars s).
Proof.
  intros Ha. induction s as [s Hu | s c x rest Hu IH] using text_ind.
  - apply uncons_none in Hu. subst s. intros [].
  - rewrite chars_eq, Hu. apply uncons_inv in Hu.
    destruct Hu as (-> & _ & Hx). rewrite list_ascii_app.
    intros Hin. apply in_app_or in Hin. destruct Hin as [Hin | Hin].
    + destruct Hx as [(b & -> & _ & ->) | [Hh _]].
      * destruct Hin as [<- | []]. left. reflexivity.
      * apply all_Forall in Hh.
        pose proof (proj1 (Forall_forall _ _) Hh a Hin) as H.
        unfold high in H. apply Z.leb_le in H. lia.
    + right. exact (IH Hin).
Qed.

Lemma contains_byte (a : ascii) (s : string) :
  Str.contains (String a "") s = true -> In a (list_ascii_of_string s).
Proof.
  induction s as [|c s IH]; [discriminate|].
  change (Str.contains (String a "") (String c s))
    with (Ascii.eqb a c && true || Str.contains (String a "") s).
  rewrite andb_true_r. intros H. apply orb_true_iff in H.
  destruct H as [H | H].
  - apply Ascii.eqb_eq in H. left. symmetry. exact H.
  - right. exact (IH H).
Qed.

(** A text of digits has no dash in it. *)
Lemma digits_no_dash (s : string) :
  Str.isdigit s = true -> Str.contains "-" s = false.
Proof.
  intros H. apply isdigit_iff in H. destruct H as [_ H].
  destruct (Str.contains "-" s) eqn:Hc; [|reflexivity].
  apply contains_byte, (byte_in_chars "-" s) in Hc; [|vm_compute; reflexivity].
  pose proof (proj1 (Forall_forall _ _) H _ Hc) as Hd.
  apply within_iff in Hd. vm_compute in Hd. discriminate Hd.
Qed.

Lemma valid_phone_no_dash (p : string) :
  Phone.validate_phone (Some p) = Ok true -> Str.contains "-" p = false.
Proof.
  simpl. intros H. injection H as H. apply andb_true_iff in H.
  destruct H as [_ H]. apply digits_no_dash, H.
Qed.

(** The pieces [split] cuts are never empty. *)
Lemma words_nonempty (cs : list Z) : forall (cur w : list Z),
  In w (Unicode.words cs cur) -> w <> [].
Proof.
  assert (Hrev : forall (c : Z) (cur : list Z), List.rev (c :: cur) <> []).
  { intros c cur H. apply (f_equal (@List.length Z)) in H.
    rewrite List.length_rev in H. discriminate H. }
  induction cs as [|c cs IH]; intros cur w; cbn [Unicode.words].
  - destruct cur as [|x cur]; [intros []|].
    intros [<- | []]. apply Hrev.
  - destruct (Unicode.isspace c); [|apply IH].
    destruct cur as [|x cur]; [apply IH|].
    intros [<- | Hin]; [apply Hrev | exact (IH _ _ Hin)].
Qed.

Lemma split_nonempty (s t : string) : In t (Str.split s) -> t <> "".
Proof.
  unfold Str.split. intros H. apply in_map_iff in H.
  destruct H as (w & <- & Hw). apply text_nonempty.
  exact (words_nonempty _ _ _ Hw).
Qed.

Lemma join_nonempty (sep p : string) (ps : list string) :
  p <> "" -> Str.join sep (p :: ps) <> "".
Proof.
  intros Hp. destruct p as [|c p]; [congruence|].
  destruct ps; simpl; discriminate.
Qed.

(** ** The [add] command *)

Lemma sort_args_phone (a : string) (l phones : list string) (b : option string) :
  Str.contains "-" a = false ->
  sort_args (a :: l) phones b = sort_args l (phones ++ [a]) b.
Proof. intros H. cbn [sort_args]. rewrite H. reflexivity. Qed.

Lemma sort_args_date (a : string) (l phones : list string) (b : option string) :
  Str.contains "-" a = true -> parses a = true ->
  sort_args (a :: l) phones b = sort_args l phones (Some a).
Proof.
  intros H Hp. cbn [sort_args]. rewrite H. unfold parses in Hp.
  destruct (Datetime.strptime a); [reflexivity | discriminate Hp].
Qed.

Lemma sort_args_dropped (a : string) (l phones : list string) (b : option string) :
  Str.contains "-" a = true -> parses a = false ->
  sort_args (a :: l) phones b = sort_args l phones b.
Proof.
  intros H Hp. cbn [sort_args]. rewrite H. unfold parses in Hp.
  destruct (Datetime.strptime a); [discriminate Hp | reflexivity].
Qed.

Lemma add_contact_sorted (ab : AddressBook.t) (name : string)
  (args phones : list string) (birthday : option string) :
  sort_args args [] None = (phones, birthday) ->
  add_contact ab name args
  = match (let* record := Rec.init name birthday in
           Rec.add_phones record (List.map Some phones)) with
    | Ok record => (AddressBook.add_record ab record, added)
    | Raise e => (ab, input_error (Raise e))
    end.
Proof.
  intros H. unfold add_contact, add_contact_body. rewrite H.
  destruct (let* record := Rec.init name birthday in
            Rec.add_phones record (List.map Some phones)); reflexivity.
Qed.

Lemma take_ints_raises_ValueError (n : nat) : forall (l : list string) (e : exn),
  Birthday.take_ints n l = Raise e -> exists m, e = ValueError m.
Proof.
  induction n as [|n IH]; intros l e H; [discriminate H|].
  destruct l as [|x l]; [discriminate H|]. cbn [Birthday.take_ints] in H.
  destruct (Str.int x) as [z|e1] eqn:Hx; cbn [bind] in H;
    [|injection H as <-; exact (int_raises_ValueError _ _ Hx)].
  destruct (Birthday.take_ints n l) as [zs|e2] eqn:Hl; cbn [bind] in H;
    [discriminate H|].
  injection H as <-. exact (IH _ _ Hl).
Qed.

(** On a string [validate_birthday] always answers. *)
Lemma validate_birthday_answers (b : string) :
  exists v, Birthday.validate_birthday (Some b) = Ok v.
Proof.
  unfold Birthday.validate_birthday.
  destruct (Birthday.validate_birthday_body b) as [v|e] eqn:H;
    [exists v; reflexivity|].
  assert (He : exists m, e = ValueError m).
  { unfold Birthday.validate_birthday_body in H.
    destruct (Datetime.strptime b) as [dt|e1] eqn:Hs; cbn [bind] in H;
      [|injection H as <-; exact (strptime_raises_ValueError _ _ Hs)].
    unfold Birthday.unpack3 in H.
    destruct (Birthday.take_ints 4 (Str.split_on "-" b)) as [zs|e2] eqn:Ht;
      cbn [bind] in H;
      [|injection H as <-; exact (take_ints_raises_ValueError _ _ _ Ht)].
    destruct zs as [|y [|m [|d [|x zs]]]]; cbn [bind] in H;
      try discriminate H; injection H as <-; eexists; reflexivity. }
  destruct He as [m ->]. exists false. reflexivity.
Qed.

Lemma init_refused (name b : string) :
  Birthday.validate_birthday (Some b) = Ok false ->
  Rec.init name (Some b) = Raise (ValueError Birthday.msg).
Proof.
  intros H. unfold Rec.init, Birthday.set_value. rewrite H. reflexivity.
Qed.

Lemma init_accepted (name : string) (b : option string) :
  validated_birthday b -> Rec.init name b = Ok (Rec.mk name [] b).
Proof.
  intros H. unfold Rec.init. rewrite (set_birthday_validated b H). reflexivity.
Qed.

(** C4, as amended.  An [add] line whose phone token has no dash and fails
    [Phone.validate_phone] stores nothing: the book stays as it was and the
    loop goes on.  What is printed is the phone message, unless a third
    token is a date the birthday field refuses, whose message comes first. *)
Theorem add_refused_phone (w : world) (line : string) (stdin : list string)
  (cmd name phone : string) (more : list string) :
  Str.startswith "add " (Str.lower line) = true ->
  Str.split (Str.lower line) = cmd :: name :: phone :: more ->
  Str.contains "-" phone = false ->
  Phone.validate_phone (Some phone) = Ok false ->
  step w (line :: stdin)
  = Continue (print (PStr (if refused_birthday more
                           then Birthday.msg else Phone.msg)) w) stdin.
Proof.
  intros Hadd Hsplit Hdash Hbad.
  rewrite (step_add w line stdin Hadd), Hsplit. unfold run_add.
  assert (Hin : forall l, exists s, In (Some s) (List.map Some (phone :: l))
                          /\ Phone.validate_phone (Some s) = Ok false).
  { intros l. exists phone. split; [left; reflexivity | exact Hbad]. }
  destruct more as [|b more].
  - rewrite (add_contact_sorted _ _ _ [phone] None)
      by (rewrite sort_args_phone by exact Hdash; reflexivity).
    rewrite init_accepted by (left; reflexivity). cbn [bind].
    rewrite (add_phones_refused _ _ (Hin [])).
    cbn [input_error exn_str refused_birthday]. rewrite with_book_same.
    reflexivity.
  - cbn [refused_birthday]. unfold refused_date.
    destruct (Str.contains "-" b) eqn:Hb; cbn [andb].
    + destruct (parses b) eqn:Hp; cbn [andb].
      * rewrite (add_contact_sorted _ _ _ [phone] (Some b))
          by (rewrite sort_args_phone by exact Hdash;
              rewrite sort_args_date by assumption; reflexivity).
        destruct (validate_birthday_answers b) as [[|] Hv]; rewrite Hv;
          cbn [result_eqb Bool.eqb].
        -- rewrite init_accepted by (right; exact Hv). cbn [bind].
           rewrite (add_phones_refused _ _ (Hin [])).
           cbn [input_error exn_str]. rewrite with_book_same. reflexivity.
        -- rewrite (init_refused name b Hv). cbn [bind input_error exn_str].
           rewrite with_book_same. reflexivity.
      * rewrite (add_contact_sorted _ _ _ [phone] None)
          by (rewrite sort_args_phone by exact Hdash;
              rewrite sort_args_dropped by assumption; reflexivity).
        rewrite init_accepted by (left; reflexivity). cbn [bind].
        rewrite (add_phones_refused _ _ (Hin [])).
        cbn [input_error exn_str]. rewrite with_book_same. reflexivity.
    + rewrite (add_contact_sorted _ _ _ [phone; b] None)
        by (rewrite sort_args_phone by exact Hdash;
            rewrite sort_args_phone by exact Hb; reflexivity).
      rewrite init_accepted by (left; reflexivity). cbn [bind].
      rewrite (add_phones_refused _ _ (Hin [b])).
      cbn [input_error exn_str]. rewrite with_book_same. reflexivity.
Qed.

Lemma add_refused_phone_witness :
  step world0 ["add carol abcdefghij"; "exit"]
  = Continue (print (PStr "Phone number must be 10 digits") world0) ["exit"]
  /\ step world0 ["add carol abcdefghij 1800-01-01"]
     = Continue (print (PStr "Invalid birthday format. Use YYYY-MM-DD") world0) [].
Proof.
  split.
  - apply (add_refused_phone world0 "add carol abcdefghij" ["exit"]
             "add" "carol" "abcdefghij" []); reflexivity.
  - apply (add_refused_phone world0 "add carol abcdefghij 1800-01-01" []
             "add" "carol" "abcdefghij" ["1800-01-01"]); reflexivity.
Defined.

(** C4 as stated fails: a phone token with a dash fails validation and is
    passed over, and the record is stored without a phone. *)
Lemma add_dashed_phone_stored :
  Phone.validate_phone (Some "12-34") = Ok false
  /\ step world0 ["add carol 12-34"]
     = Continue (print added
                   (with_book [("carol", Rec.mk "carol" [] None)] world0)) [].
Proof. split; reflexivity. Qed.

Lemma add_phone_accepted (r : Rec.t) (p : string) :
  Phone.validate_phone (Some p) = Ok true ->
  Rec.add_phone r (Some p)
  = Ok (Rec.mk (Rec.name r) (Rec.phones r ++ [Some p]) (Rec.birthday r)).
Proof.
  intros H. apply add_phone_validated. exists p. split; [reflexivity | exact H].
Qed.

(** C5, as amended.  An [add] line with a valid phone and a third token that
    is not a valid birthday: a token with a dash that [strptime] takes (a
    date of a year outside 1900..2100) is refused with the birthday message
    and nothing is stored; a token with a dash that [strptime] does not
    take is dropped and the record is stored without birthday; a token
    without a dash is a second phone, stored with the first when it is
    valid and refused with the phone message, nothing stored, when not. *)
Theorem add_refused_birthday (w : world) (line : string) (stdin : list string)
  (cmd name phone token : string) (more : list string) :
  Str.startswith "add " (Str.lower line) = true ->
  Str.split (Str.lower line) = cmd :: name :: phone :: token :: more ->
  Phone.validate_phone (Some phone) = Ok true ->
  Birthday.validate_birthday (Some token) = Ok false ->
  step w (line :: stdin)
  = if Str.contains "-" token then
      if parses token then Continue (print (PStr Birthday.msg) w) stdin
      else Continue
             (print added
                (with_book (AddressBook.add_record (book w)
                              (Rec.mk name [Some phone] None)) w)) stdin
    else
      match Phone.validate_phone (Some token) with
      | Ok true =>
          Continue
            (print added
               (with_book (AddressBook.add_record (book w)
                             (Rec.mk name [Some phone; Some token] None)) w))
            stdin
      | _ => Continue (print (PStr Phone.msg) w) stdin
      end.
Proof.
  intros Hadd Hsplit Hphone Hbad.
  pose proof (valid_phone_no_dash phone Hphone) as Hdash.
  rewrite (step_add w line stdin Hadd), Hsplit. unfold run_add.
  destruct (Str.contains "-" token) eqn:Hb.
  - destruct (parses token) eqn:Hp.
    + rewrite (add_contact_sorted _ _ _ [phone] (Some token))
        by (rewrite sort_args_phone by exact Hdash;
            rewrite sort_args_date by assumption; reflexivity).
      rewrite (init_refused name token Hbad). cbn [bind input_error exn_str].
      rewrite with_book_same. reflexivity.
    + rewrite (add_contact_sorted _ _ _ [phone] None)
        by (rewrite sort_args_phone by exact Hdash;
            rewrite sort_args_dropped by assumption; reflexivity).
      rewrite init_accepted by (left; reflexivity).
      cbn [bind List.map Rec.add_phones].
      rewrite (add_phone_accepted _ phone Hphone). reflexivity.
  - rewrite (add_contact_sorted _ _ _ [phone; token] None)
      by (rewrite sort_args_phone by exact Hdash;
          rewrite sort_args_phone by exact Hb; reflexivity).
    rewrite init_accepted by (left; reflexivity).
    cbn [bind List.map Rec.add_phones].
    rewrite (add_phone_accepted _ phone Hphone). cbn [bind].
    destruct (Phone.validate_phone (Some token)) as [[|]|e] eqn:Ht.
    + rewrite (add_phone_accepted _ token Ht). reflexivity.
    + unfold Rec.add_phone. rewrite Ht. cbn [bind input_error exn_str].
      rewrite with_book_same. reflexivity.
    + discriminate Ht.
Qed.

Lemma add_refused_birthday_witness :
  step world0 ["add alice 1234567890 1800-01-01"]
  = Continue (print (PStr "Invalid birthday format. Use YYYY-MM-DD") world0) []
  /\ step world0 ["add alice 1234567890 birthday"]
     = Continue (print (PStr "Phone number must be 10 digits") world0) [].
Proof.
  split.
  - apply (add_refused_birthday world0 "add alice 1234567890 1800-01-01" []
             "add" "alice" "1234567890" "1800-01-01" []); reflexivity.
  - apply (add_refused_birthday world0 "add alice 1234567890 birthday" []
             "add" "alice" "1234567890" "birthday" []); reflexivity.
Defined.

(** C5 as stated fails: a birthday token that is no date of the calendar is
    dropped without an error, and the record is stored. *)
Lemma add_bad_birthday_stored :
  Phone.validate_phone (Some "1234567890") = Ok true
  /\ Birthday.validate_birthday (Some "2021-02-30") = Ok false
  /\ step world0 ["add alice 1234567890 2021-02-30"]
     = Continue
         (print added
            (with_book [("alice", Rec.mk "alice" [Some "1234567890"] None)]
               world0)) [].
Proof. repeat split. Qed.

(** ** The [change] command *)

(** C10.  A [change] line with a phone, for a name whose record holds no
    phone: taking the first phone fails, [input_error] turns the
    [IndexError] into [Invalid input], the book stays as it was and the loop
    goes on. *)
Theorem change_without_phones (w : world) (line : string) (stdin : list string)
  (cmd name : string) (phone : list string) (record : Rec.t) :
  Str.startswith "change " (Str.lower line) = true ->
  Str.split (Str.lower line) = cmd :: name :: phone ->
  phone <> [] ->
  Dict.get name (book w) = Some record ->
  Rec.phones record = [] ->
  step w (line :: stdin) = Continue (print (PStr "Invalid input") w) stdin.
Proof.
  intros Hchange Hsplit Hphone Hget Hnone.
  rewrite (step_change w line stdin Hchange), Hsplit.
  unfold run_change, change_phone, change_phone_body, Dict.mem, getitem,
    first_phone.
  rewrite Hget.
  destruct phone as [|p ps]; [congruence|].
  assert (Hp : p <> "").
  { apply (split_nonempty (Str.lower line)). rewrite Hsplit.
    right. right. left. reflexivity. }
  pose proof (join_nonempty " " p ps Hp) as Hj.
  destruct (Str.join " " (p :: ps)) as [|c s]; [congruence|].
  cbn [bind]. rewrite Hnone. cbn [bind input_error].
  rewrite with_book_same. reflexivity.
Qed.

Lemma change_without_phones_witness :
  step world0 ["add bob 1990-01-01"]
  = Continue (print added (with_book (book no_phones) world0)) []
  /\ step no_phones ["change bob 1234567890"; "hello"]
     = Continue (print (PStr "Invalid input") no_phones) ["hello"].
Proof.
  split; [reflexivity|].
  apply (change_without_phones no_phones "change bob 1234567890" ["hello"]
           "change" "bob" ["1234567890"] (Rec.mk "bob" [] (Some "1990-01-01")));
    try reflexivity.
  discriminate.
Defined.

(** ** The [delete] command *)

Lemma delete_absent (ab : AddressBook.t) (name : string) :
  Dict.mem name ab = false -> AddressBook.delete ab name = ab.
Proof. intros H. unfold AddressBook.delete. rewrite H. reflexivity. Qed.

Lemma get_del_other (ab : AddressBook.t) (name other : string) :
  other <> name -> Dict.get other (Dict.del name ab) = Dict.get other ab.
Proof.
  intros Hne. induction ab as [|[k v] ab IH]; [reflexivity|]. simpl.
  destruct (String.eqb_spec k name) as [->|Hk].
  - destruct (String.eqb_spec name other) as [->|_]; [congruence | reflexivity].
  - simpl. rewrite IH. reflexivity.
Qed.

Lemma get_absent (ab : AddressBook.t) (name : string) :
  ~ In name (Dict.keys ab) -> Dict.get name ab = None.
Proof.
  induction ab as [|[k v] ab IH]; intros H; [reflexivity|]. simpl.
  destruct (String.eqb_spec k name) as [->|_].
  - exfalso. apply H. left. reflexivity.
  - apply IH. intros Hin. apply H. right. exact Hin.
Qed.

Lemma get_del_same (ab : AddressBook.t) (name : string) :
  NoDup (Dict.keys ab) -> Dict.get name (Dict.del name ab) = None.
Proof.
  induction ab as [|[k v] ab IH]; intros H; [reflexivity|].
  inversion H as [|k' l' Hk Hl]; subst. simpl.
  destruct (String.eqb_spec k name) as [->|Hne].
  - apply get_absent, Hk.
  - simpl. destruct (String.eqb_spec k name); [congruence|]. apply IH, Hl.
Qed.

(** On a book whose keys are all different, deleting a name takes that
    entry away and leaves every other one. *)
Lemma delete_present (ab : AddressBook.t) (name : string) :
  NoDup (Dict.keys ab) -> Dict.mem name ab = true ->
  Dict.get name (AddressBook.delete ab name) = None
  /\ forall other, other <> name ->
       Dict.get other (AddressBook.delete ab name) = Dict.get other ab.
Proof.
  intros Hnd Hmem. unfold AddressBook.delete. rewrite Hmem. split.
  - apply get_del_same, Hnd.
  - intros other Hne. apply get_del_other, Hne.
Qed.

(** C6 at its failing input: [delete] of a name the book does not hold
    leaves the book as it was, and the loop prints that the contact was
    deleted, not that it was not found. *)
Theorem delete_absent_prints_deleted :
  Dict.mem "bob" (book world0) = false
  /\ step world0 ["delete bob"]
     = Continue (print (PStr "Contact 'bob' deleted successfully") world0) [].
Proof. split; reflexivity. Qed.

(** ** Days to the birthday *)

(** C8 at its failing input: at noon of the birthday the candidate of this
    year, a midnight, is already before now, so the answer is the distance
    to next year's birthday; the answer 0 is given the day before. *)
Theorem days_to_birthday_on_the_day :
  Rec.days_to_birthday (noon 2023 5 20) born_may_20 = Ok (Some 365)
  /\ Rec.days_to_birthday (noon 2023 5 19) born_may_20 = Ok (Some 0).
Proof. split; reflexivity. Qed.

(** Without a birthday there is no answer. *)
Lemma days_to_birthday_absent (today : Datetime.datetime) (r : Rec.t) :
  Rec.birthday r = None -> Rec.days_to_birthday today r = Ok None.
Proof. intros H. unfold Rec.days_to_birthday. rewrite H. reflexivity. Qed.

(** ** Errors that leave the loop *)

(** C2 at its failing input: [load] of a file that is not there raises
    [FileNotFoundError] out of [main]; the lines after it are never read. *)
Theorem load_missing_file_ends_main :
  main world0 ["load"; "nofile"; "hello"; "exit"]
  = Died (no_such_file "nofile") (print (PStr "How can I help you?") world0)
      ["hello"; "exit"].
Proof. reflexivity. Qed.

(** The same for [save] on a path that is a directory or lies in a
    directory that is not there, for a [phone] line with a token too many
    (the unpacking stands outside the [try]), and for batches of size 0. *)
Lemma save_to_directory_ends_main :
  main world0 ["save"; "."; "exit"]
  = Died (is_a_directory ".") (print (PStr "How can I help you?") world0)
      ["exit"]
  /\ main world0 ["save"; "backup/book.json"; "exit"]
     = Died (no_such_file "backup/book.json")
         (print (PStr "How can I help you?") world0) ["exit"].
Proof. split; reflexivity. Qed.

Lemma extra_token_ends_main :
  main world0 ["phone alice now"; "exit"]
  = Died (ValueError "too many values to unpack (expected 2)")
      (print (PStr "How can I help you?") world0) ["exit"].
Proof. reflexivity. Qed.

(** [isdigit] lets through digits [int] does not read. *)
Lemma superscript_batch_ends_main :
  main no_phones ["show batch ²"; "exit"]
  = Died (ValueError "invalid literal for int() with base 10")
      (print (PStr "How can I help you?") no_phones) ["exit"].
Proof. reflexivity. Qed.

Lemma batch_of_zero_ends_main :
  main no_phones ["show batch 0"; "exit"]
  = Died (ZeroDivisionError "integer modulo by zero")
      (print (PStr "Contact name: bob, phones: , birthday: 1990-01-01")
         (print (PStr "How can I help you?") no_phones))
      ["exit"].
Proof. reflexivity. Qed.

(** What [input_error] wraps does stay in the loop: the decorator turns
    every exception into a value to print. *)
Lemma input_error_catches (e : exn) : exists s, input_error (Raise e) = PStr s.
Proof.
  destruct e; cbn [input_error]; try (eexists; reflexivity).
  destruct (Str.contains "unpack" msg); eexists; reflexivity.
Qed.

(** ** The loop ends

    Every round reads at least the command line, so [main], which gives the
    loop one round more than the console has lines, is never cut short. *)

Ltac split_cases H :=
  repeat match type of H with
         | (if ?c then _ else _) = _ => destruct c
         | match ?x with _ => _ end = _ => destruct x eqn:?
         end;
  try discriminate H.

Lemma batch_loop_reads (batch_size total : Z) (lines : list string) :
  forall (idx : Z) (w : world) (stdin : list string)
         (w' : world) (stdin' : list string) (r : result unit),
  batch_loop batch_size total idx lines w stdin = (w', stdin', r) ->
  (List.length stdin' <= List.length stdin)%nat.
Proof.
  induction lines as [|l lines IH]; intros idx w stdin w' stdin' r H;
    cbn [batch_loop] in H.
  - injection H as _ <- _. lia.
  - destruct (batch_size =? 0); [injection H as _ <- _; lia|].
    destruct (((idx + 1) mod batch_size =? 0) && (idx <? total - 1)).
    + destruct stdin as [|x stdin]; [injection H as _ <- _; lia|].
      apply IH in H. simpl. lia.
    + apply IH in H. exact H.
Qed.

Lemma show_contacts_batch_reads (batch_size : Z) (w : world)
  (stdin : list string) (w' : world) (stdin' : list string) (r : result string) :
  show_contacts_batch batch_size w stdin = (w', stdin', r) ->
  (List.length stdin' <= List.length stdin)%nat.
Proof.
  unfold show_contacts_batch. intros H.
  destruct (book w); [injection H as _ <- _; lia|].
  destruct (str_records _); [|injection H as _ <- _; lia].
  destruct (batch_loop _ _ _ _ _ _) as [[w1 stdin1] r1] eqn:Hloop.
  injection H as _ <- _. exact (batch_loop_reads _ _ _ _ _ _ _ _ _ Hloop).
Qed.

Lemma run_show_batch_reads (tokens : list string) (w : world)
  (stdin : list string) (w' : world) (stdin' : list string) :
  run_show_batch tokens w stdin = Continue w' stdin' ->
  (List.length stdin' <= List.length stdin)%nat.
Proof.
  unfold run_show_batch. intros H.
  destruct tokens as [|t1 [|t2 [|n [|t4 tokens]]]];
    try (injection H as _ <-; lia).
  destruct (Str.isdigit n); [|injection H as _ <-; lia].
  destruct (Str.int n); [|discriminate H].
  destruct (show_contacts_batch _ _ _) as [[w1 stdin1] r] eqn:Hshow.
  apply show_contacts_batch_reads in Hshow.
  destruct r; [|discriminate H]. injection H as _ <-. exact Hshow.
Qed.

Lemma step_reads (w : world) (stdin : list string) (w' : world)
  (stdin' : list string) :
  step w stdin = Continue w' stdin' ->
  (List.length stdin' < List.length stdin)%nat.
Proof.
  destruct stdin as [|line stdin]; [discriminate|].
  unfold step. cbn [List.length]. intros H.
  destruct (String.eqb _ "hello"); [injection H as _ <-; lia|].
  destruct (Str.startswith "add " _).
  { unfold run_add in H. split_cases H; injection H as _ <-; lia. }
  destruct (Str.startswith "change " _).
  { unfold run_change in H. split_cases H; injection H as _ <-; lia. }
  destruct (Str.startswith "phone " _).
  { unfold run_phone in H. split_cases H; injection H as _ <-; lia. }
  destruct (String.eqb _ "show all").
  { split_cases H; injection H as _ <-; lia. }
  destruct (Str.startswith "birthday " _).
  { unfold run_birthday in H. split_cases H; injection H as _ <-; lia. }
  destruct (Str.startswith "delete " _).
  { unfold run_delete in H. split_cases H; injection H as _ <-; lia. }
  destruct (Str.startswith "show batch" _).
  { apply run_show_batch_reads in H. lia. }
  destruct (String.eqb _ "save").
  { unfold run_save in H. split_cases H; injection H as _ <-; simpl; lia. }
  destruct (String.eqb _ "load").
  { unfold run_load in H. split_cases H; injection H as _ <-; simpl; lia. }
  destruct (Str.startswith "search " _).
  { unfold run_search in H. split_cases H; injection H as _ <-; lia. }
  destruct (existsb _ _); [discriminate H|].
  injection H as _ <-. lia.
Qed.

Lemma main_loop_ends (fuel : nat) : forall (w : world) (stdin : list string),
  (List.length stdin < fuel)%nat ->
  exists w' stdin',
    (exists e, main_loop fuel w stdin = Died e w' stdin')
    \/ main_loop fuel w stdin = Exited w' stdin'.
Proof.
  induction fuel as [|fuel IH]; intros w stdin Hlen; [lia|].
  cbn [main_loop]. destruct (step w stdin) as [w1 s1|w1 s1|e w1 s1] eqn:Hstep.
  - apply IH. apply step_reads in Hstep. lia.
  - exists w1, s1. right. reflexivity.
  - exists w1, s1. left. exists e. reflexivity.
Qed.

(** X21.  On a console of finitely many lines [main] ends: at an exit word, or
    with an exception, which is [EOFError] when the lines run out. *)
Lemma main_ends (w : world) (stdin : list string) :
  exists w' stdin',
    (exists e, main w stdin = Died e w' stdin')
    \/ main w stdin = Exited w' stdin'.
Proof. unfold main. apply main_loop_ends. lia. Qed.

(** ** No round of the loop clears a phone

    Only [edit_phone] called with [None] clears a phone, and the loop never
    calls it so: [add], [change] and [load] store only phones that have a
    value. *)

Lemma add_phone_present (r r' : Rec.t) (p : option string) :
  present r -> Rec.add_phone r p = Ok r' -> present r'.
Proof.
  unfold present. intros Hr H. destruct p as [s|]; [|injection H as <-; exact Hr].
  unfold Rec.add_phone, Phone.set_value in H.
  destruct (Phone.validate_phone (Some s)) as [[|]|e]; try discriminate H.
  injection H as <-. cbn [Rec.phones]. apply Forall_app. split; [exact Hr|].
  constructor; [discriminate | constructor].
Qed.

Lemma add_phones_present (l : list (option string)) : forall r r' : Rec.t,
  present r -> Rec.add_phones r l = Ok r' -> present r'.
Proof.
  induction l as [|p l IH]; intros r r' Hr H; cbn [Rec.add_phones] in H.
  - injection H as <-. exact Hr.
  - destruct (Rec.add_phone r p) as [r1|e] eqn:H1; [|discriminate H].
    exact (IH r1 r' (add_phone_present r r1 p Hr H1) H).
Qed.

Lemma init_present (name : string) (b : option string) (r : Rec.t) :
  Rec.init name b = Ok r -> present r.
Proof.
  unfold Rec.init. destruct (Birthday.set_value b); [|discriminate].
  intros H. injection H as <-. constructor.
Qed.

Lemma deserialize_present (d : Rec.data) (r : Rec.t) :
  Rec.deserialize d = Ok r -> present r.
Proof.
  unfold Rec.deserialize.
  destruct (Rec.init (Rec.d_name d) (Rec.d_birthday d)) as [r0|e] eqn:H0;
    [|discriminate].
  apply add_phones_present. exact (init_present _ _ _ H0).
Qed.

Lemma replace_first_present (old : option string) (new : string)
  (l l' : list (option string)) :
  Forall (fun p : option string => p <> None) l ->
  Rec.replace_first old (Some new) l = Some l' ->
  Forall (fun p : option string => p <> None) l'.
Proof.
  revert l'. induction l as [|p l IH]; intros l' Hl H; [discriminate H|].
  inversion Hl as [|p' l0 Hp Hl0]; subst. cbn [Rec.replace_first] in H.
  destruct (opt_eqb p old).
  - injection H as <-. constructor; [discriminate | exact Hl0].
  - destruct (Rec.replace_first old (Some new) l) as [l1|]; [|discriminate H].
    injection H as <-. constructor; [exact Hp | exact (IH l1 Hl0 eq_refl)].
Qed.

Lemma edit_phone_present (r r' : Rec.t) (old : option string) (new : string) :
  present r -> Rec.edit_phone r old (Some new) = Ok r' -> present r'.
Proof.
  unfold present, Rec.edit_phone. intros Hr H.
  destruct (Rec.replace_first old (Some new) (Rec.phones r)) as [l|] eqn:Hl;
    [|discriminate H].
  destruct (Phone.validate_phone (Some new)) as [[|]|e]; try discriminate H.
  cbn [bind] in H. destruct (Phone.set_value (Some new)); [|discriminate H].
  injection H as <-. exact (replace_first_present old new _ l Hr Hl).
Qed.

Lemma set_present (ab : AddressBook.t) (k : string) (r : Rec.t) :
  phones_present ab -> present r -> phones_present (Dict.set k r ab).
Proof.
  unfold phones_present. intros Hab Hr.
  induction ab as [|[k' v] ab IH]; [constructor; [exact Hr | constructor]|].
  inversion Hab as [|v' l Hv Hl]; subst. cbn [Dict.set].
  destruct (String.eqb k' k); constructor; auto.
Qed.

Lemma del_present (ab : AddressBook.t) (k : string) :
  phones_present ab -> phones_present (Dict.del k ab).
Proof.
  unfold phones_present. intros Hab.
  induction ab as [|[k' v] ab IH]; [constructor|].
  inversion Hab as [|v' l Hv Hl]; subst. cbn [Dict.del].
  destruct (String.eqb k' k); [exact Hl | constructor; auto].
Qed.

Lemma get_present (ab : AddressBook.t) (k : string) (r : Rec.t) :
  phones_present ab -> Dict.get k ab = Some r -> present r.
Proof.
  unfold phones_present. intros Hab.
  induction ab as [|[k' v] ab IH]; [discriminate|].
  inversion Hab as [|v' l Hv Hl]; subst. cbn [Dict.get].
  destruct (String.eqb k' k); [|exact (IH Hl)].
  intros H. injection H as <-. exact Hv.
Qed.

Lemma phones_present_empty : phones_present [].
Proof. constructor. Qed.

Lemma load_records_present (l : list Rec.data) : forall acc ab : AddressBook.t,
  phones_present acc -> AddressBook.load_records l acc = Ok ab ->
  phones_present ab.
Proof.
  induction l as [|d l IH]; intros acc ab Hacc H;
    cbn [AddressBook.load_records] in H.
  - injection H as <-. exact Hacc.
  - destruct (Rec.deserialize d) as [r|e] eqn:Hd; [|discriminate H].
    cbn [bind] in H. apply (IH _ _ (set_present _ _ _ Hacc
                                      (deserialize_present _ _ Hd)) H).
Qed.

Lemma add_contact_present (ab ab' : AddressBook.t) (name : string)
  (args : list string) (response : pyval) :
  phones_present ab -> add_contact ab name args = (ab', response) ->
  phones_present ab'.
Proof.
  unfold add_contact, add_contact_body. intros Hab H.
  destruct (sort_args args [] None) as [phones birthday].
  destruct (Rec.init name birthday) as [r0|e] eqn:H0; cbn [bind] in H;
    [|injection H as <- _; exact Hab].
  destruct (Rec.add_phones r0 (List.map Some phones)) as [r|e] eqn:Hr;
    injection H as <- _; [|exact Hab].
  apply set_present; [exact Hab|].
  exact (add_phones_present _ _ _ (init_present _ _ _ H0) Hr).
Qed.

Lemma change_phone_present (ab ab' : AddressBook.t) (name phone : string)
  (response : pyval) :
  phones_present ab -> change_phone ab name phone = (ab', response) ->
  phones_present ab'.
Proof.
  unfold change_phone, change_phone_body, getitem. intros Hab H.
  destruct (Dict.mem name ab); [|injection H as <- _; exact Hab].
  destruct phone as [|c s]; [injection H as <- _; exact Hab|].
  destruct (Dict.get name ab) as [r|] eqn:Hget; cbn [bind] in H;
    [|injection H as <- _; exact Hab].
  destruct (first_phone r) as [old|e]; cbn [bind] in H;
    [|injection H as <- _; exact Hab].
  destruct (Rec.edit_phone r old (Some (String c s))) as [r'|e] eqn:Hedit;
    injection H as <- _; [|exact Hab].
  apply set_present; [exact Hab|].
  exact (edit_phone_present _ _ _ _ (get_present _ _ _ Hab Hget) Hedit).
Qed.

Lemma book_print (v : pyval) (w : world) : book (print v w) = book w.
Proof. reflexivity. Qed.

Lemma book_print_chars (s : string) : forall w : world,
  book (print_chars s w) = book w.
Proof.
  unfold print_chars. induction (Str.chars s) as [|c cs IH]; intros w;
    [reflexivity|].
  cbn [List.fold_left]. rewrite IH. reflexivity.
Qed.

Lemma book_print_records (l : list Rec.t) : forall (w w' : world) (r : result unit),
  print_records l w = (w', r) -> book w' = book w.
Proof.
  induction l as [|x l IH]; intros w w' r H; cbn [print_records] in H.
  - injection H as <- _. reflexivity.
  - destruct (Rec.to_str x); [|injection H as <- _; reflexivity].
    apply IH in H. exact H.
Qed.

Lemma book_batch_loop (batch_size total : Z) (lines : list string) :
  forall (idx : Z) (w : world) (stdin : list string)
         (w' : world) (stdin' : list string) (r : result unit),
  batch_loop batch_size total idx lines w stdin = (w', stdin', r) ->
  book w' = book w.
Proof.
  induction lines as [|l lines IH]; intros idx w stdin w' stdin' r H;
    cbn [batch_loop] in H.
  - injection H as <- _ _. reflexivity.
  - destruct (batch_size =? 0); [injection H as <- _ _; reflexivity|].
    destruct (((idx + 1) mod batch_size =? 0) && (idx <? total - 1)).
    + destruct stdin as [|x stdin]; [injection H as <- _ _; reflexivity|].
      apply IH in H. exact H.
    + apply IH in H. exact H.
Qed.

Lemma book_show_contacts_batch (batch_size : Z) (w : world)
  (stdin : list string) (w' : world) (stdin' : list string) (r : result string) :
  show_contacts_batch batch_size w stdin = (w', stdin', r) -> book w' = book w.
Proof.
  unfold show_contacts_batch. intros H.
  destruct (book w) eqn:Hb; [injection H as <- _ _; exact Hb|].
  destruct (str_records _); [|injection H as <- _ _; exact Hb].
  destruct (batch_loop _ _ _ _ _ _) as [[w1 stdin1] r1] eqn:Hloop.
  injection H as <- _ _. rewrite (book_batch_loop _ _ _ _ _ _ _ _ _ Hloop).
  exact Hb.
Qed.

(** A round that goes on, or ends the loop, leaves a book without cleared
    phones when it started from one. *)
Lemma step_phones_present (w : world) (stdin : list string) (w' : world)
  (stdin' : list string) :
  phones_present (book w) ->
  step w stdin = Continue w' stdin' \/ step w stdin = Break w' stdin' ->
  phones_present (book w').
Proof.
  intros Hw H. destruct stdin as [|line stdin]; [destruct H; discriminate|].
  unfold step in H.
  destruct (String.eqb _ "hello");
    [destruct H as [H|H]; [injection H as <- _; exact Hw | discriminate H]|].
  destruct (Str.startswith "add " _).
  { destruct H as [H|H]; unfold run_add in H; split_cases H.
    all: injection H as <- _; try exact Hw.
    all: cbn [book print with_book].
    all: match goal with
         | E : match ?l with _ => _ end = _ |- _ => destruct l
         end; eapply add_contact_present; first [exact Hw | eassumption]. }
  destruct (Str.startswith "change " _).
  { destruct H as [H|H]; unfold run_change in H; split_cases H.
    all: injection H as <- _; try exact Hw.
    all: cbn [book print with_book];
      eapply change_phone_present; first [exact Hw | eassumption]. }
  destruct (Str.startswith "phone " _).
  { destruct H as [H|H]; unfold run_phone in H; split_cases H.
    all: injection H as <- _; exact Hw. }
  destruct (String.eqb _ "show all").
  { destruct H as [H|H]; split_cases H. all: injection H as <- _; exact Hw. }
  destruct (Str.startswith "birthday " _).
  { destruct H as [H|H]; unfold run_birthday in H; split_cases H.
    all: injection H as <- _; exact Hw. }
  destruct (Str.startswith "delete " _).
  { destruct H as [H|H]; unfold run_delete in H; split_cases H.
    all: injection H as <- _. all: cbn [book print with_book].
    all: unfold AddressBook.delete; destruct (Dict.mem _ _);
      try apply del_present; exact Hw. }
  destruct (Str.startswith "show batch" _).
  { destruct H as [H|H]; unfold run_show_batch in H; split_cases H.
    all: injection H as <- _; try exact Hw.
    all: rewrite book_print_chars.
    all: match goal with
         | E : show_contacts_batch _ _ _ = _ |- _ =>
             rewrite (book_show_contacts_batch _ _ _ _ _ _ E)
         end; exact Hw. }
  destruct (String.eqb _ "save").
  { destruct H as [H|H]; unfold run_save in H; split_cases H.
    all: injection H as <- _; exact Hw. }
  destruct (String.eqb _ "load").
  { destruct H as [H|H]; unfold run_load in H; split_cases H.
    all: injection H as <- _. all: cbn [book print with_book].
    all: match goal with
         | E : AddressBook.load_from_file _ _ _ = Ok _ |- _ =>
             unfold AddressBook.load_from_file in E;
             destruct (read_json _ _); [|discriminate E];
             exact (load_records_present _ [] _ phones_present_empty E)
         end. }
  destruct (Str.startswith "search " _).
  { destruct H as [H|H]; unfold run_search in H; split_cases H.
    all: injection H as <- _; try exact Hw.
    all: match goal with
         | E : print_records _ _ = _ |- _ =>
             rewrite (book_print_records _ _ _ _ E)
         end; exact Hw. }
  destruct (existsb _ _); destruct H as [H|H]; try discriminate H;
    injection H as <- _; exact Hw.
Qed.

(** So does a whole run, from the empty book on. *)
Lemma main_loop_phones_present (fuel : nat) :
  forall (w : world) (stdin : list string) (w' : world) (stdin' : list string),
  phones_present (book w) ->
  main_loop fuel w stdin = Exited w' stdin' ->
  phones_present (book w').
Proof.
  induction fuel as [|fuel IH]; intros w stdin w' stdin' Hw H; [discriminate H|].
  cbn [main_loop] in H.
  destruct (step w stdin) as [w1 s1|w1 s1|e w1 s1] eqn:Hstep.
  - apply (IH w1 s1 w' stdin'); [|exact H].
    apply (step_phones_present w stdin w1 s1 Hw). left. exact Hstep.
  - injection H as <- _.
    apply (step_phones_present w stdin w1 s1 Hw). right. exact Hstep.
  - discriminate H.
Qed.

Lemma main_phones_present (w : world) (stdin : list string) (w' : world)
  (stdin' : list string) :
  phones_present (book w) ->
  main w stdin = Exited w' stdin' -> phones_present (book w').
Proof.
  intros Hw. unfold main. apply main_loop_phones_present. exact Hw.
Qed.

(** ** The answer of [days_to_birthday] is never negative *)

Lemma days_before_next_year (y : Z) :
  Datetime.days_before_year (y + 1)
  = Datetime.days_before_year y + 365 + (if Datetime.is_leap y then 1 else 0).
Proof.
  unfold Datetime.days_before_year, Datetime.is_leap.
  replace (y + 1 - 1) with y by lia. cbv zeta.
  destruct (y mod 4 =? 0) eqn:H4; destruct (y mod 100 =? 0) eqn:H100;
    destruct (y mod 400 =? 0) eqn:H400; cbn [andb orb negb];
    rewrite ?Z.eqb_eq, ?Z.eqb_neq in *;
    Z.div_mod_to_equations; lia.
Qed.

Ltac look_up :=
  repeat match goal with
         | |- context [List.nth ?n ?l ?d] =>
             let v := eval vm_compute in (List.nth n l d) in
             change (List.nth n l d) with v
         end.

Lemma day_of_year_bound (y m d : Z) :
  1 <= m <= 12 -> d <= Datetime.days_in_month y m ->
  Datetime.days_before_month y m + d
  <= 365 + (if Datetime.is_leap y then 1 else 0).
Proof.
  intros Hm Hd.
  assert (C : m = 1 \/ m = 2 \/ m = 3 \/ m = 4 \/ m = 5 \/ m = 6 \/ m = 7
              \/ m = 8 \/ m = 9 \/ m = 10 \/ m = 11 \/ m = 12) by lia.
  unfold Datetime.days_before_month, Datetime.days_in_month in *.
  destruct (Datetime.is_leap y);
    repeat (destruct C as [-> | C]); try subst m; look_up;
    cbn [Z.ltb Z.eqb Z.compare Pos.compare Pos.compare_cont Pos.eqb andb orb]
      in Hd |- *; lia.
Qed.

Lemma days_before_month_nonneg (y m : Z) :
  1 <= m <= 12 -> 0 <= Datetime.days_before_month y m.
Proof.
  intros Hm.
  assert (C : m = 1 \/ m = 2 \/ m = 3 \/ m = 4 \/ m = 5 \/ m = 6 \/ m = 7
              \/ m = 8 \/ m = 9 \/ m = 10 \/ m = 11 \/ m = 12) by lia.
  unfold Datetime.days_before_month.
  destruct (Datetime.is_leap y);
    repeat (destruct C as [-> | C]); try subst m; look_up;
    cbn [Z.ltb Z.compare Pos.compare Pos.compare_cont andb]; lia.
Qed.

Lemma make_fields (y m d : Z) (t : Datetime.datetime) :
  Datetime.make y m d = Ok t ->
  t = Datetime.mk y m d 0 0 0 0 /\ 1 <= m <= 12 /\ 1 <= d.
Proof.
  unfold Datetime.make. intros H.
  destruct ((1 <=? y) && (y <=? 9999)); [|discriminate H].
  destruct ((1 <=? m) && (m <=? 12)) eqn:Hm; [|discriminate H].
  destruct ((1 <=? d) && (d <=? Datetime.days_in_month y m)) eqn:Hd;
    [|discriminate H].
  cbn [negb] in H. injection H as <-.
  apply andb_true_iff in Hm, Hd. destruct Hm as [Hm1 Hm2], Hd as [Hd1 _].
  apply Z.leb_le in Hm1, Hm2, Hd1. repeat split; lia.
Qed.

(** Whenever [days_to_birthday] answers with a number on a wall clock, the
    number is not negative. *)
Lemma days_to_birthday_nonneg (today : Datetime.datetime) (r : Rec.t) (n : Z) :
  wall_clock today ->
  Rec.days_to_birthday today r = Ok (Some n) -> 0 <= n.
Proof.
  intros (Hmo & Hday & Hh & Hmi & Hs & Hus) H.
  unfold Rec.days_to_birthday in H.
  destruct (Rec.birthday r) as [[|c value]|]; try discriminate H.
  destruct (Datetime.strptime (String c value)) as [b|e]; [|discriminate H].
  cbn [bind] in H.
  destruct (Datetime.make (Datetime.year today) (Datetime.month b)
              (Datetime.day b)) as [t1|e] eqn:H1; [|discriminate H].
  cbn [bind] in H.
  destruct (Datetime.ltb t1 today) eqn:Hlt.
  - destruct (Datetime.make (Datetime.year today + 1) (Datetime.month b)
                (Datetime.day b)) as [t2|e] eqn:H2; [|discriminate H].
    cbn [bind] in H. injection H as <-.
    apply make_fields in H2. destruct H2 as (-> & Hbm & Hbd).
    unfold Datetime.sub_days. apply Z.div_pos; [|reflexivity].
    unfold Datetime.to_micros, Datetime.micros_of_day, Datetime.ymd2ord,
      Datetime.day_micros.
    cbn [Datetime.year Datetime.month Datetime.day Datetime.hour
         Datetime.minute Datetime.second Datetime.microsecond].
    rewrite days_before_next_year.
    pose proof (day_of_year_bound (Datetime.year today) (Datetime.month today)
                  (Datetime.day today) Hmo (proj2 Hday)) as Hb.
    pose proof (days_before_month_nonneg (Datetime.year today + 1)
                  (Datetime.month b) Hbm) as Hn.
    nia.
  - cbn [bind] in H. injection H as <-.
    unfold Datetime.sub_days. apply Z.div_pos; [|reflexivity].
    unfold Datetime.ltb in Hlt. apply Z.ltb_ge in Hlt. lia.
Qed.

Lemma days_to_birthday_nonneg_witness :
  wall_clock (noon 2023 5 20)
  /\ Rec.days_to_birthday (noon 2023 5 20) born_may_20 = Ok (Some 365)
  /\ 0 <= 365.
Proof.
  assert (W : wall_clock (noon 2023 5 20)).
  { unfold wall_clock. cbn. lia. }
  split; [exact W|]. split; [reflexivity|].
  exact (days_to_birthday_nonneg (noon 2023 5 20) born_may_20 365 W eq_refl).
Defined.

(** * Further properties of the code *)

(** ** Adding to the book and finding in it *)

Lemma get_set_same {V : Type} (d : Dict.t V) (k : string) (v : V) :
  Dict.get k (Dict.set k v d) = Some v.
Proof.
  induction d as [|[k' v'] d IH]; simpl.
  - rewrite String.eqb_refl. reflexivity.
  - destruct (String.eqb_spec k' k) as [->|Hne]; simpl.
    + rewrite String.eqb_refl. reflexivity.
    + destruct (String.eqb_spec k' k); [congruence | exact IH].
Qed.

Lemma get_set_other {V : Type} (d : Dict.t V) (k other : string) (v : V) :
  other <> k -> Dict.get other (Dict.set k v d) = Dict.get other d.
Proof.
  intros Hne. induction d as [|[k' v'] d IH]; simpl.
  - destruct (String.eqb_spec k other); [congruence | reflexivity].
  - destruct (String.eqb_spec k' k) as [->|Hk]; simpl.
    + destruct (String.eqb_spec k other); [congruence | reflexivity].
    + rewrite IH. reflexivity.
Qed.

Lemma mem_get {V : Type} (d : Dict.t V) (k : string) :
  (if Dict.mem k d then Dict.get k d else None) = Dict.get k d.
Proof. unfold Dict.mem. destruct (Dict.get k d); reflexivity. Qed.

(** X1.  A record just added is the one [find] returns under its name, and
    [find] under every other name answers as before. *)
Theorem find_add_record (ab : AddressBook.t) (record : Rec.t) :
  AddressBook.find (AddressBook.add_record ab record) (Rec.name record)
  = Some record
  /\ forall other, other <> Rec.name record ->
       AddressBook.find (AddressBook.add_record ab record) other
       = AddressBook.find ab other.
Proof.
  unfold AddressBook.find, AddressBook.add_record. split.
  - rewrite mem_get. apply get_set_same.
  - intros other Hne. rewrite !mem_get. apply get_set_other, Hne.
Qed.

Lemma mem_keys {V : Type} (d : Dict.t V) (k : string) :
  Dict.mem k d = true <-> In k (Dict.keys d).
Proof.
  unfold Dict.mem. induction d as [|[k' v'] d IH]; simpl.
  - split; [discriminate | intros []].
  - destruct (String.eqb_spec k' k) as [->|Hne].
    + split; [left; reflexivity | reflexivity].
    + rewrite IH. split; [right; assumption | intros [H|H]; [congruence | exact H]].
Qed.

(** X2.  The order of the book: a record added under a name already there takes
    the place of the old one, a record under a new name goes last. *)
Theorem add_record_keys (ab : AddressBook.t) (record : Rec.t) :
  Dict.keys (AddressBook.add_record ab record)
  = if Dict.mem (Rec.name record) ab then Dict.keys ab
    else (Dict.keys ab ++ [Rec.name record])%list.
Proof.
  unfold AddressBook.add_record. generalize (Rec.name record) as k. intros k.
  induction ab as [|[k' v'] ab IH]; [reflexivity|].
  unfold Dict.mem in *. simpl.
  destruct (String.eqb_spec k' k) as [->|Hne]; [reflexivity|].
  simpl. rewrite IH. destruct (Dict.get k ab); reflexivity.
Qed.

(** ** What the loop keeps true of the book *)

Lemma set_value_validated (b bv : option string) :
  Birthday.set_value b = Ok bv -> bv = b /\ validated_birthday b.
Proof.
  destruct b as [s|]; cbn [Birthday.set_value].
  - destruct (Birthday.validate_birthday (Some s)) as [[|]|e] eqn:Hv;
      cbn [bind]; try discriminate.
    intros H. injection H as <-. split; [reflexivity | right; exact Hv].
  - intros H. injection H as <-. split; [reflexivity | left; reflexivity].
Qed.

Lemma init_valid (n : string) (b : option string) (r : Rec.t) :
  Rec.init n b = Ok r -> r = Rec.mk n [] b /\ validated_birthday b.
Proof.
  unfold Rec.init. destruct (Birthday.set_value b) as [bv|e] eqn:Hb;
    [|discriminate].
  apply set_value_validated in Hb. destruct Hb as [-> Hv].
  intros H. injection H as <-. split; [reflexivity | exact Hv].
Qed.

Lemma add_phone_valid (r r' : Rec.t) (p : option string) :
  Rec.add_phone r p = Ok r' ->
  Rec.name r' = Rec.name r /\ Rec.birthday r' = Rec.birthday r
  /\ (Forall validated_phone (Rec.phones r) ->
      Forall validated_phone (Rec.phones r')).
Proof.
  destruct p as [s|]; cbn [Rec.add_phone].
  - unfold Phone.set_value.
    destruct (Phone.validate_phone (Some s)) as [[|]|e] eqn:Hv;
      cbn [bind]; try discriminate.
    intros H. injection H as <-. cbn [Rec.name Rec.birthday Rec.phones].
    repeat split. intros Hr. apply Forall_app. split; [exact Hr|].
    constructor; [|constructor]. exists s. split; [reflexivity | exact Hv].
  - intros H. injection H as <-. repeat split. auto.
Qed.

Lemma add_phones_valid (l : list (option string)) : forall r r' : Rec.t,
  Rec.add_phones r l = Ok r' ->
  Rec.name r' = Rec.name r /\ Rec.birthday r' = Rec.birthday r
  /\ (Forall validated_phone (Rec.phones r) ->
      Forall validated_phone (Rec.phones r')).
Proof.
  induction l as [|p l IH]; intros r r' H; cbn [Rec.add_phones] in H.
  - injection H as <-. repeat split. auto.
  - destruct (Rec.add_phone r p) as [r1|e] eqn:H1; [|discriminate H].
    cbn [bind] in H. apply add_phone_valid in H1. apply IH in H.
    destruct H1 as (Hn1 & Hb1 & Hp1), H as (Hn & Hb & Hp).
    repeat split; [congruence | congruence | auto].
Qed.

(** What [deserialize] returns is a valid record under the name read. *)
Lemma deserialize_valid (d : Rec.data) (r : Rec.t) :
  Rec.deserialize d = Ok r -> Rec.name r = Rec.d_name d /\ valid_record r.
Proof.
  unfold Rec.deserialize.
  destruct (Rec.init (Rec.d_name d) (Rec.d_birthday d)) as [r0|e] eqn:H0;
    [|discriminate].
  cbn [bind]. intros H. apply init_valid in H0. destruct H0 as [-> Hb].
  apply add_phones_valid in H. destruct H as (Hn & Hbd & Hp).
  cbn [Rec.name Rec.birthday Rec.phones] in *.
  split; [exact Hn|]. split; [apply Hp; constructor | rewrite Hbd; exact Hb].
Qed.

Lemma replace_first_validated (old : option string) (new : string)
  (l l' : list (option string)) :
  Phone.validate_phone (Some new) = Ok true ->
  Forall validated_phone l ->
  Rec.replace_first old (Some new) l = Some l' ->
  Forall validated_phone l'.
Proof.
  intros Hnew. revert l'.
  induction l as [|p l IH]; intros l' Hl H; [discriminate H|].
  inversion Hl as [|p' l0 Hp Hl0]; subst. cbn [Rec.replace_first] in H.
  destruct (opt_eqb p old).
  - injection H as <-. constructor; [|exact Hl0].
    exists new. split; [reflexivity | exact Hnew].
  - destruct (Rec.replace_first old (Some new) l) as [l1|]; [|discriminate H].
    injection H as <-. constructor; [exact Hp | exact (IH l1 Hl0 eq_refl)].
Qed.

Lemma edit_phone_valid (r r' : Rec.t) (old : option string) (new : string) :
  valid_record r -> Rec.edit_phone r old (Some new) = Ok r' ->
  Rec.name r' = Rec.name r /\ valid_record r'.
Proof.
  unfold valid_record, Rec.edit_phone. intros [Hp Hb] H.
  destruct (Rec.replace_first old (Some new) (Rec.phones r)) as [l|] eqn:Hl;
    [|discriminate H].
  destruct (Phone.validate_phone (Some new)) as [[|]|e] eqn:Hv;
    try discriminate H.
  cbn [bind] in H. destruct (Phone.set_value (Some new)); [|discriminate H].
  injection H as <-. cbn [Rec.name Rec.phones Rec.birthday].
  split; [reflexivity|]. split; [|exact Hb].
  exact (replace_first_validated old new _ l Hv Hp Hl).
Qed.

Lemma set_keys {V : Type} (d : Dict.t V) (k : string) (v : V) :
  Dict.keys (Dict.set k v d)
  = if Dict.mem k d then Dict.keys d else (Dict.keys d ++ [k])%list.
Proof.
  induction d as [|[k' v'] d IH]; [reflexivity|].
  unfold Dict.mem in *. simpl.
  destruct (String.eqb_spec k' k) as [->|Hne]; [reflexivity|].
  simpl. rewrite IH. destruct (Dict.get k d); reflexivity.
Qed.

Lemma set_well_formed (ab : AddressBook.t) (k : string) (r : Rec.t) :
  well_formed ab -> entry_ok (k, r) -> well_formed (Dict.set k r ab).
Proof.
  intros [Hnd Hall] Hr. split.
  - rewrite set_keys. destruct (Dict.mem k ab) eqn:Hmem; [exact Hnd|].
    apply NoDup_app; [exact Hnd | repeat constructor; intros [] |].
    intros x Hx [<-|[]]. apply mem_keys in Hx. congruence.
  - clear Hnd.
    induction ab as [|[k' v] ab IH]; [constructor; [exact Hr | constructor]|].
    inversion Hall as [|kv l Hv Hl]; subst. cbn [Dict.set].
    destruct (String.eqb k' k); constructor; auto.
Qed.

Lemma del_keys_incl {V : Type} (d : Dict.t V) (k x : string) :
  In x (Dict.keys (Dict.del k d)) -> In x (Dict.keys d).
Proof.
  induction d as [|[k' v'] d IH]; [intros []|]. simpl.
  destruct (String.eqb k' k); [right; assumption|].
  intros [H|H]; [left; exact H | right; exact (IH H)].
Qed.

Lemma del_well_formed (ab : AddressBook.t) (k : string) :
  well_formed ab -> well_formed (Dict.del k ab).
Proof.
  intros [Hnd Hall]. split.
  - induction ab as [|[k' v] ab IH]; [constructor|].
    inversion Hnd as [|x l Hx Hl]; subst.
    inversion Hall as [|kv l' Hv Hl']; subst. cbn [Dict.del].
    destruct (String.eqb k' k); [exact Hl|].
    simpl. constructor; [|exact (IH Hl Hl')].
    intros Hin. apply Hx. exact (del_keys_incl _ _ _ Hin).
  - clear Hnd. induction ab as [|[k' v] ab IH]; [constructor|].
    inversion Hall as [|kv l Hv Hl]; subst. cbn [Dict.del].
    destruct (String.eqb k' k); [exact Hl | constructor; auto].
Qed.

Lemma get_entry (ab : AddressBook.t) (k : string) (r : Rec.t) :
  Forall entry_ok ab -> Dict.get k ab = Some r -> entry_ok (k, r).
Proof.
  intros Hall. induction ab as [|[k' v] ab IH]; [discriminate|].
  inversion Hall as [|kv l Hv Hl]; subst. cbn [Dict.get].
  destruct (String.eqb_spec k' k) as [->|_]; [|exact (IH Hl)].
  intros H. injection H as <-. exact Hv.
Qed.

Lemma well_formed_empty : well_formed [].
Proof. split; constructor. Qed.

Lemma load_records_well_formed (l : list Rec.data) :
  forall acc ab : AddressBook.t,
  well_formed acc -> AddressBook.load_records l acc = Ok ab -> well_formed ab.
Proof.
  induction l as [|d l IH]; intros acc ab Hacc H;
    cbn [AddressBook.load_records] in H.
  - injection H as <-. exact Hacc.
  - destruct (Rec.deserialize d) as [r|e] eqn:Hd; [|discriminate H].
    cbn [bind] in H. apply deserialize_valid in Hd. destruct Hd as [Hn Hv].
    apply (IH _ _ (set_well_formed _ _ _ Hacc (conj (eq_sym Hn) Hv)) H).
Qed.

Lemma add_contact_well_formed (ab ab' : AddressBook.t) (name : string)
  (args : list string) (response : pyval) :
  well_formed ab -> add_contact ab name args = (ab', response) ->
  well_formed ab'.
Proof.
  unfold add_contact, add_contact_body. intros Hab H.
  destruct (sort_args args [] None) as [phones birthday].
  destruct (Rec.init name birthday) as [r0|e] eqn:H0; cbn [bind] in H;
    [|injection H as <- _; exact Hab].
  destruct (Rec.add_phones r0 (List.map Some phones)) as [r|e] eqn:Hr;
    injection H as <- _; [|exact Hab].
  apply init_valid in H0. destruct H0 as [-> Hb].
  apply add_phones_valid in Hr. destruct Hr as (Hn & Hbd & Hp).
  cbn [Rec.name Rec.birthday Rec.phones] in *.
  apply set_well_formed; [exact Hab|]. split; [reflexivity|].
  split; [apply Hp; constructor | cbn [snd]; rewrite Hbd; exact Hb].
Qed.

Lemma change_phone_well_formed (ab ab' : AddressBook.t) (name phone : string)
  (response : pyval) :
  well_formed ab -> change_phone ab name phone = (ab', response) ->
  well_formed ab'.
Proof.
  unfold change_phone, change_phone_body, getitem. intros Hab H.
  destruct (Dict.mem name ab); [|injection H as <- _; exact Hab].
  destruct phone as [|c s]; [injection H as <- _; exact Hab|].
  destruct (Dict.get name ab) as [r|] eqn:Hget; cbn [bind] in H;
    [|injection H as <- _; exact Hab].
  destruct (first_phone r) as [old|e]; cbn [bind] in H;
    [|injection H as <- _; exact Hab].
  destruct (Rec.edit_phone r old (Some (String c s))) as [r'|e] eqn:Hedit;
    injection H as <- _; [|exact Hab].
  destruct (get_entry _ _ _ (proj2 Hab) Hget) as [Hk Hv]. cbn [fst snd] in *.
  apply edit_phone_valid in Hedit; [|exact Hv]. destruct Hedit as [Hn Hv'].
  apply set_well_formed; [exact Hab|]. split; [cbn [fst snd]; congruence | exact Hv'].
Qed.

(** Every round of the loop, however it ends, leaves a well-formed book
    well-formed. *)
Lemma step_well_formed (w : world) (stdin : list string) (w' : world)
  (stdin' : list string) :
  well_formed (book w) ->
  step w stdin = Continue w' stdin' \/ step w stdin = Break w' stdin'
  \/ (exists e, step w stdin = Crash e w' stdin') ->
  well_formed (book w').
Proof.
  intros Hw H.
  assert (H' : exists s, step w stdin = s
                 /\ (s = Continue w' stdin' \/ s = Break w' stdin'
                     \/ exists e, s = Crash e w' stdin')).
  { exists (step w stdin). split; [reflexivity | exact H]. }
  clear H. destruct H' as [s [H Hs]].
  destruct stdin as [|line stdin].
  { cbn [step] in H. subst s.
    destruct Hs as [Hs|[Hs|[e Hs]]]; inversion Hs; subst; exact Hw. }
  unfold step in H.
  destruct (String.eqb _ "hello").
  { subst s. destruct Hs as [Hs|[Hs|[e Hs]]]; inversion Hs; subst; exact Hw. }
  destruct (Str.startswith "add " _).
  { unfold run_add in H. split_cases H; subst s.
    all: destruct Hs as [Hs|[Hs|[e Hs]]]; inversion Hs; subst; try exact Hw.
    all: cbn [book print with_book].
    all: match goal with
         | E : match ?l with _ => _ end = _ |- _ => destruct l
         end; eapply add_contact_well_formed; first [exact Hw | eassumption]. }
  destruct (Str.startswith "change " _).
  { unfold run_change in H. split_cases H; subst s.
    all: destruct Hs as [Hs|[Hs|[e Hs]]]; inversion Hs; subst; try exact Hw.
    all: cbn [book print with_book];
      eapply change_phone_well_formed; first [exact Hw | eassumption]. }
  destruct (Str.startswith "phone " _).
  { unfold run_phone in H. split_cases H; subst s.
    all: destruct Hs as [Hs|[Hs|[e' Hs]]]; inversion Hs; subst; exact Hw. }
  destruct (String.eqb _ "show all").
  { split_cases H; subst s.
    all: destruct Hs as [Hs|[Hs|[e' Hs]]]; inversion Hs; subst; exact Hw. }
  destruct (Str.startswith "birthday " _).
  { unfold run_birthday in H. split_cases H; subst s.
    all: destruct Hs as [Hs|[Hs|[e' Hs]]]; inversion Hs; subst; exact Hw. }
  destruct (Str.startswith "delete " _).
  { unfold run_delete in H. split_cases H; subst s.
    all: destruct Hs as [Hs|[Hs|[e' Hs]]]; inversion Hs; subst; try exact Hw.
    all: cbn [book print with_book].
    all: unfold AddressBook.delete; destruct (Dict.mem _ _);
      try apply del_well_formed; exact Hw. }
  destruct (Str.startswith "show batch" _).
  { unfold run_show_batch in H. split_cases H; subst s.
    all: destruct Hs as [Hs|[Hs|[e' Hs]]]; inversion Hs; subst; try exact Hw.
    all: rewrite ?book_print_chars.
    all: match goal with
         | E : show_contacts_batch _ _ _ = _ |- _ =>
             rewrite (book_show_contacts_batch _ _ _ _ _ _ E)
         end; exact Hw. }
  destruct (String.eqb _ "save").
  { unfold run_save in H. split_cases H; subst s.
    all: destruct Hs as [Hs|[Hs|[e' Hs]]]; inversion Hs; subst; exact Hw. }
  destruct (String.eqb _ "load").
  { unfold run_load in H. split_cases H; subst s.
    all: destruct Hs as [Hs|[Hs|[e' Hs]]]; inversion Hs; subst; try exact Hw.
    all: cbn [book print with_book].
    all: match goal with
         | E : AddressBook.load_from_file _ _ _ = Ok _ |- _ =>
             unfold AddressBook.load_from_file in E;
             destruct (read_json _ _); [|discriminate E];
             exact (load_records_well_formed _ [] _ well_formed_empty E)
         end. }
  destruct (Str.startswith "search " _).
  { unfold run_search in H. split_cases H; subst s.
    all: destruct Hs as [Hs|[Hs|[e' Hs]]]; inversion Hs; subst; try exact Hw.
    all: match goal with
         | E : print_records _ _ = _ |- _ =>
             rewrite (book_print_records _ _ _ _ E)
         end; exact Hw. }
  destruct (existsb _ _); subst s;
    destruct Hs as [Hs|[Hs|[e' Hs]]]; inversion Hs; subst; exact Hw.
Qed.

Lemma main_loop_well_formed (fuel : nat) :
  forall (w : world) (stdin : list string),
  well_formed (book w) ->
  match main_loop fuel w stdin with
  | Exited w' _ | Died _ w' _ | Running w' _ => well_formed (book w')
  end.
Proof.
  induction fuel as [|fuel IH]; intros w stdin Hw; [exact Hw|].
  cbn [main_loop].
  destruct (step w stdin) as [w1 s1|w1 s1|e w1 s1] eqn:Hstep.
  - apply IH. apply (step_well_formed w stdin w1 s1 Hw). left. exact Hstep.
  - apply (step_well_formed w stdin w1 s1 Hw). right. left. exact Hstep.
  - apply (step_well_formed w stdin w1 s1 Hw). right. right. exists e.
    exact Hstep.
Qed.

(** X22.  From the empty book on, and from any book that has all names
    different, every record under its own name and only validated phones
    and birthdays, the book [main] leaves is such a book again: whatever
    the console holds, whatever files the machine has for [load] to read,
    whatever the time is, and however the run ends. *)
Theorem main_well_formed (w : world) (stdin : list string) :
  well_formed (book w) ->
  match main w stdin with
  | Exited w' _ | Died _ w' _ | Running w' _ => well_formed (book w')
  end.
Proof. intros Hw. unfold main. apply main_loop_well_formed. exact Hw. Qed.

Lemma main_well_formed_witness :
  well_formed []
  /\ main (mk_world [] saved (noon 2024 2 29) [])
       ["load"; "book.json"; "add bob 123"; "Add Dan 0123456789 2000-02-29";
        "change carol 1"; "delete al555"; "load"; "old.json"; "exit"]
     = Died (JSONDecodeError "Expecting value: line 1 column 1 (char 0)")
         (mk_world
            [("bob", bob); ("carol", carol);
             ("dan", Rec.mk "dan" [Some "0123456789"] (Some "2000-02-29"))]
            saved (noon 2024 2 29)
            [PStr "How can I help you?";
             PStr "Address book loaded successfully";
             PStr "Phone number must be 10 digits";
             added;
             PStr "Phone number must be 10 digits";
             PStr "Contact 'al555' deleted successfully"])
         ["exit"]
  /\ well_formed
       [("bob", bob); ("carol", carol);
        ("dan", Rec.mk "dan" [Some "0123456789"] (Some "2000-02-29"))].
Proof.
  split; [exact well_formed_empty|].
  assert (E : main (mk_world [] saved (noon 2024 2 29) [])
                ["load"; "book.json"; "add bob 123";
                 "Add Dan 0123456789 2000-02-29"; "change carol 1";
                 "delete al555"; "load"; "old.json"; "exit"]
              = Died (JSONDecodeError "Expecting value: line 1 column 1 (char 0)")
                  (mk_world
                     [("bob", bob); ("carol", carol);
                      ("dan", Rec.mk "dan" [Some "0123456789"]
                                (Some "2000-02-29"))]
                     saved (noon 2024 2 29)
                     [PStr "How can I help you?";
                      PStr "Address book loaded successfully";
                      PStr "Phone number must be 10 digits";
                      added;
                      PStr "Phone number must be 10 digits";
                      PStr "Contact 'al555' deleted successfully"])
                  ["exit"]) by (vm_compute; reflexivity).
  split; [exact E|].
  pose proof (main_well_formed (mk_world [] saved (noon 2024 2 29) [])
                ["load"; "book.json"; "add bob 123";
                 "Add Dan 0123456789 2000-02-29"; "change carol 1";
                 "delete al555"; "load"; "old.json"; "exit"]
                well_formed_empty) as H.
  rewrite E in H. exact H.
Defined.

(** ** The batches of [iterator] *)

Lemma skipn_past {A : Type} (l : list A) (n : nat) :
  (List.length l <= n)%nat -> List.skipn n l = [].
Proof.
  revert n. induction l as [|x l IH]; intros n H; destruct n; simpl in *;
    try reflexivity; [lia | apply IH; lia].
Qed.

Lemma range_from_batches (l : list Rec.t) (batch_size : Z) (fuel : nat) :
  1 <= batch_size ->
  forall i : Z, 0 <= i ->
  (Z.to_nat (Z.of_nat (List.length l) - i) <= fuel)%nat ->
  let batches :=
    List.map (fun j => slice l j (j + batch_size))
      (range_from fuel i (Z.of_nat (List.length l)) batch_size) in
  List.concat batches = List.skipn (Z.to_nat i) l
  /\ Forall (fun b => (1 <= List.length b)%nat
                      /\ Z.of_nat (List.length b) <= batch_size) batches.
Proof.
  intros Hbs. induction fuel as [|fuel IH]; intros i Hi Hfuel; cbn zeta.
  - cbn [range_from List.map List.concat]. split; [|constructor].
    symmetry. apply skipn_past. lia.
  - cbn [range_from].
    destruct (i <? Z.of_nat (List.length l)) eqn:Hlt.
    + apply Z.ltb_lt in Hlt. cbn [List.map List.concat].
      destruct (IH (i + batch_size) ltac:(lia) ltac:(lia)) as [Hc Hf].
      cbn zeta in Hc, Hf. rewrite Hc. unfold slice.
      replace (Z.to_nat (i + batch_size - i)) with (Z.to_nat batch_size) by lia.
      replace (Z.to_nat (i + batch_size))
        with (Z.to_nat batch_size + Z.to_nat i)%nat by lia.
      rewrite <- List.skipn_skipn, List.firstn_skipn. split; [reflexivity|].
      constructor; [|exact Hf].
      rewrite List.length_firstn, List.length_skipn. lia.
    + apply Z.ltb_ge in Hlt. cbn [List.map List.concat]. split; [|constructor].
      symmetry. apply skipn_past. lia.
Qed.

(** X4.  For a batch size of at least 1, [iterator] yields batches that, one
    after the other, are the records of the book in its order; no batch is
    empty and none is longer than the batch size. *)
Theorem iterator_batches (ab : AddressBook.t) (batch_size : Z) :
  1 <= batch_size ->
  exists batches,
    AddressBook.iterator ab batch_size = Ok batches
    /\ List.concat batches = Dict.values ab
    /\ Forall (fun b => (1 <= List.length b)%nat
                        /\ Z.of_nat (List.length b) <= batch_size) batches.
Proof.
  intros Hbs. unfold AddressBook.iterator, range0. cbn zeta.
  replace (batch_size =? 0) with false by (symmetry; apply Z.eqb_neq; lia).
  replace (batch_size <? 0) with false by (symmetry; apply Z.ltb_ge; lia).
  cbn [bind]. eexists. split; [reflexivity|].
  destruct (range_from_batches (Dict.values ab) batch_size
              (Z.to_nat (Z.of_nat (List.length (Dict.values ab)))) Hbs 0
              ltac:(lia) ltac:(lia)) as [Hc Hf].
  cbn zeta in Hc, Hf. split; [exact Hc | exact Hf].
Qed.

Lemma iterator_batches_witness :
  AddressBook.iterator three_contacts 2 = Ok [[bob; carol]; [al555]]
  /\ exists batches,
       AddressBook.iterator three_contacts 2 = Ok batches
       /\ List.concat batches = Dict.values three_contacts
       /\ Forall (fun b => (1 <= List.length b)%nat
                           /\ Z.of_nat (List.length b) <= 2) batches.
Proof.
  split; [reflexivity|]. apply (iterator_batches three_contacts 2). lia.
Defined.

(** X5.  A batch size of 0 makes [iterator] raise a [ValueError] when the first
    batch is asked for; a negative one makes it yield nothing, whatever the
    book holds. *)
Theorem iterator_no_batches (ab : AddressBook.t) (batch_size : Z) :
  batch_size <= 0 ->
  AddressBook.iterator ab batch_size
  = if batch_size =? 0
    then Raise (ValueError "range() arg 3 must not be zero")
    else Ok [].
Proof.
  intros H. unfold AddressBook.iterator, range0. cbn zeta.
  destruct (batch_size =? 0) eqn:H0; [reflexivity|].
  apply Z.eqb_neq in H0.
  replace (batch_size <? 0) with true by (symmetry; apply Z.ltb_lt; lia).
  reflexivity.
Qed.

Lemma iterator_no_batches_witness :
  AddressBook.iterator three_contacts 0
  = Raise (ValueError "range() arg 3 must not be zero")
  /\ AddressBook.iterator three_contacts (-2) = Ok [].
Proof.
  split.
  - apply (iterator_no_batches three_contacts 0). lia.
  - apply (iterator_no_batches three_contacts (-2)). lia.
Defined.

(** ** The phones of a record *)

Lemma opt_eqb_eq (a b : option string) : opt_eqb a b = true <-> a = b.
Proof.
  destruct a as [x|], b as [y|]; simpl; try (split; [discriminate|congruence]).
  - rewrite String.eqb_eq. split; congruence.
  - split; reflexivity.
Qed.

Lemma replace_first_split (old new : option string) (l : list (option string)) :
  match Rec.replace_first old new l with
  | Some l' =>
      exists pre post, l = (pre ++ old :: post)%list /\ ~ In old pre
                       /\ l' = (pre ++ new :: post)%list
  | None => ~ In old l
  end.
Proof.
  induction l as [|p l IH]; cbn [Rec.replace_first]; [intros []|].
  destruct (opt_eqb p old) eqn:Hp.
  - apply opt_eqb_eq in Hp. subst p. exists [], l. repeat split. intros [].
  - assert (Hne : p <> old).
    { intros ->. rewrite (proj2 (opt_eqb_eq old old) eq_refl) in Hp.
      discriminate Hp. }
    destruct (Rec.replace_first old new l) as [l'|]; cbn [option_map].
    + destruct IH as (pre & post & -> & Hpre & ->).
      exists (p :: pre), post. repeat split.
      intros [H|H]; [exact (Hne H) | exact (Hpre H)].
    + intros [H|H]; [exact (Hne H) | exact (IH H)].
Qed.

(** X6.  [edit_phone] with a new value that is a string: when no phone of the
    record equals the old value it raises the not-found [ValueError],
    whatever the new value is; when one does and the new value fails
    validation it raises the phone [ValueError]; otherwise the first phone
    equal to the old value, and only that one, becomes the new value. *)
Theorem edit_phone_spec (r : Rec.t) (old : option string) (new : string) :
  (~ In old (Rec.phones r) ->
   Rec.edit_phone r old (Some new)
   = Raise (ValueError ("Contact '" ++ opt_str old ++ "' not found")))
  /\ (In old (Rec.phones r) ->
      Phone.validate_phone (Some new) = Ok false ->
      Rec.edit_phone r old (Some new) = Raise (ValueError Phone.msg))
  /\ (In old (Rec.phones r) ->
      Phone.validate_phone (Some new) = Ok true ->
      exists pre post,
        Rec.phones r = (pre ++ old :: post)%list /\ ~ In old pre
        /\ Rec.edit_phone r old (Some new)
           = Ok (Rec.mk (Rec.name r) (pre ++ Some new :: post)
                   (Rec.birthday r))).
Proof.
  unfold Rec.edit_phone.
  pose proof (replace_first_split old (Some new) (Rec.phones r)) as H.
  destruct (Rec.replace_first old (Some new) (Rec.phones r)) as [l'|].
  - destruct H as (pre & post & Hl & Hpre & ->). split; [|split].
    + intros Hn. exfalso. apply Hn. rewrite Hl. apply in_elt.
    + intros _ Hv. rewrite Hv. reflexivity.
    + intros _ Hv. unfold Phone.set_value. rewrite Hv. cbn [bind].
      exists pre, post. split; [exact Hl|]. split; [exact Hpre | reflexivity].
  - split; [|split]; intros Hin; [reflexivity | contradiction | contradiction].
Qed.

Lemma edit_phone_spec_witness :
  Rec.edit_phone two_phones (Some "3333333333") (Some "4444444444")
  = Raise (ValueError "Contact '3333333333' not found")
  /\ Rec.edit_phone two_phones (Some "1111111111") (Some "12345")
     = Raise (ValueError Phone.msg)
  /\ exists pre post,
       Rec.phones two_phones = (pre ++ Some "1111111111" :: post)%list
       /\ ~ In (Some "1111111111") pre
       /\ Rec.edit_phone two_phones (Some "1111111111") (Some "4444444444")
          = Ok (Rec.mk (Rec.name two_phones) (pre ++ Some "4444444444" :: post)
                  (Rec.birthday two_phones)).
Proof.
  split; [|split].
  - apply (proj1 (edit_phone_spec two_phones (Some "3333333333") "4444444444")).
    intros [H|[H|[H|[]]]]; discriminate H.
  - apply (proj1 (proj2 (edit_phone_spec two_phones (Some "1111111111") "12345"))).
    + left. reflexivity.
    + reflexivity.
  - apply (proj2 (proj2 (edit_phone_spec two_phones (Some "1111111111")
                           "4444444444"))).
    + left. reflexivity.
    + reflexivity.
Defined.

(** X7.  [remove_phone] takes out the first phone equal to the number and leaves
    the rest in order; when no phone equals it, the record is unchanged. *)
Theorem remove_phone_spec (r : Rec.t) (number : option string) :
  (~ In number (Rec.phones r) -> Rec.remove_phone r number = r)
  /\ (In number (Rec.phones r) ->
      exists pre post,
        Rec.phones r = (pre ++ number :: post)%list /\ ~ In number pre
        /\ Rec.remove_phone r number
           = Rec.mk (Rec.name r) (pre ++ post) (Rec.birthday r)).
Proof.
  unfold Rec.remove_phone.
  assert (H : forall l : list (option string),
             (~ In number l -> Rec.remove_first number l = l)
             /\ (In number l ->
                 exists pre post, l = (pre ++ number :: post)%list
                                  /\ ~ In number pre
                                  /\ Rec.remove_first number l = (pre ++ post)%list)).
  { induction l as [|p l [IHn IHy]]; cbn [Rec.remove_first].
    - split; [reflexivity | intros []].
    - destruct (opt_eqb p number) eqn:Hp.
      + apply opt_eqb_eq in Hp. subst p. split.
        * intros Hn. exfalso. apply Hn. left. reflexivity.
        * intros _. exists [], l. repeat split. intros [].
      + assert (Hne : p <> number).
        { intros ->. rewrite (proj2 (opt_eqb_eq number number) eq_refl) in Hp.
          discriminate Hp. }
        split.
        * intros Hn. rewrite IHn; [reflexivity|].
          intros Hin. apply Hn. right. exact Hin.
        * intros [Hin|Hin]; [contradiction|].
          destruct (IHy Hin) as (pre & post & -> & Hpre & ->).
          exists (p :: pre), post. repeat split.
          intros [H|H]; [exact (Hne H) | exact (Hpre H)]. }
  destruct (H (Rec.phones r)) as [Hn Hy]. split.
  - intros Hin. rewrite (Hn Hin). destruct r; reflexivity.
  - intros Hin. destruct (Hy Hin) as (pre & post & Hl & Hpre & ->).
    exists pre, post. repeat split; assumption.
Qed.

Lemma remove_phone_spec_witness :
  Rec.remove_phone two_phones (Some "3333333333") = two_phones
  /\ exists pre post,
       Rec.phones two_phones = (pre ++ Some "1111111111" :: post)%list
       /\ ~ In (Some "1111111111") pre
       /\ Rec.remove_phone two_phones (Some "1111111111")
          = Rec.mk (Rec.name two_phones) (pre ++ post) (Rec.birthday two_phones).
Proof.
  split.
  - apply (proj1 (remove_phone_spec two_phones (Some "3333333333"))).
    intros [H|[H|[H|[]]]]; discriminate H.
  - apply (proj2 (remove_phone_spec two_phones (Some "1111111111"))).
    left. reflexivity.
Defined.

(** X8.  A phone [add_phone] has accepted is found by [find_phone], and so is
    every phone found before. *)
Theorem add_phone_found (r r' : Rec.t) (phone : string) :
  Rec.add_phone r (Some phone) = Ok r' ->
  Rec.find_phone r' (Some phone) = Some (Some phone)
  /\ forall number, Rec.find_phone r number = Some number ->
                    Rec.find_phone r' number = Some number.
Proof.
  intros H.
  assert (Hfind : forall (number : option string) (l : list (option string)),
             In number l ->
             List.find (fun p => opt_eqb p number) l = Some number).
  { intros number l. induction l as [|p l IH]; [intros []|]. cbn [List.find].
    destruct (opt_eqb p number) eqn:Hp.
    - apply opt_eqb_eq in Hp. subst p. reflexivity.
    - intros [->|Hin]; [|exact (IH Hin)].
      rewrite (proj2 (opt_eqb_eq number number) eq_refl) in Hp. discriminate Hp. }
  unfold Rec.add_phone, Phone.set_value in H.
  destruct (Phone.validate_phone (Some phone)) as [[|]|e];
    cbn [bind] in H; try discriminate H.
  injection H as <-. unfold Rec.find_phone. cbn [Rec.phones]. split.
  - apply Hfind. apply in_or_app. right. left. reflexivity.
  - intros number Hn. apply Hfind. apply in_or_app. left.
    apply List.find_some in Hn. exact (proj1 Hn).
Qed.

Lemma add_phone_found_witness :
  Rec.add_phone two_phones (Some "5555555555")
  = Ok (Rec.mk "dan" [Some "1111111111"; Some "2222222222"; Some "1111111111";
                      Some "5555555555"] None)
  /\ Rec.find_phone
       (Rec.mk "dan" [Some "1111111111"; Some "2222222222"; Some "1111111111";
                      Some "5555555555"] None) (Some "5555555555")
     = Some (Some "5555555555").
Proof.
  split; [reflexivity|].
  exact (proj1 (add_phone_found two_phones _ "5555555555" eq_refl)).
Defined.

(** ** Deleting from the book *)

Lemma del_absent {V : Type} (d : Dict.t V) (k : string) :
  Dict.mem k d = false -> Dict.del k d = d.
Proof.
  unfold Dict.mem. induction d as [|[k' v] d IH]; [reflexivity|]. simpl.
  destruct (String.eqb k' k); [discriminate|].
  intros H. rewrite (IH H). reflexivity.
Qed.

Lemma delete_is_del (ab : AddressBook.t) (name : string) :
  AddressBook.delete ab name = Dict.del name ab.
Proof.
  unfold AddressBook.delete. destruct (Dict.mem name ab) eqn:H;
    [reflexivity | symmetry; apply del_absent, H].
Qed.

(** X3.  On a book whose names are all different, [delete] leaves nothing to find
    under the name, changes nothing under the other names, and keeps the
    order of those. *)
Theorem delete_removes (ab : AddressBook.t) (name : string) :
  NoDup (Dict.keys ab) ->
  AddressBook.find (AddressBook.delete ab name) name = None
  /\ (forall other, other <> name ->
        AddressBook.find (AddressBook.delete ab name) other
        = AddressBook.find ab other)
  /\ Dict.keys (AddressBook.delete ab name)
     = List.remove string_dec name (Dict.keys ab).
Proof.
  intros Hnd. rewrite delete_is_del. unfold AddressBook.find.
  split; [|split].
  - rewrite mem_get. apply get_del_same, Hnd.
  - intros other Hne. rewrite !mem_get. apply get_del_other, Hne.
  - induction ab as [|[k v] ab IH]; [reflexivity|].
    inversion Hnd as [|x l Hx Hl]; subst. cbn [Dict.del Dict.keys List.map fst].
    cbn [List.remove].
    destruct (String.eqb_spec k name) as [->|Hne].
    + destruct (string_dec name name) as [_|Hc]; [|congruence].
      symmetry. apply List.notin_remove. exact Hx.
    + destruct (string_dec name k) as [Hc|_]; [congruence|].
      cbn [List.map fst]. f_equal. exact (IH Hl).
Qed.

Lemma delete_removes_witness :
  NoDup (Dict.keys three_contacts)
  /\ AddressBook.find (AddressBook.delete three_contacts "carol") "carol" = None
  /\ Dict.keys (AddressBook.delete three_contacts "carol") = ["bob"; "al555"].
Proof.
  assert (H : NoDup (Dict.keys three_contacts)).
  { repeat constructor; simpl; intuition discriminate. }
  split; [exact H|]. split.
  - exact (proj1 (delete_removes three_contacts "carol" H)).
  - reflexivity.
Defined.

(** ** Searching for the empty text *)

(** X9.  The empty query is in every name, so [search] returns every record of
    the book, in order, and never gets to look at a phone: it answers even
    on a book that holds cleared phones. *)
Theorem search_empty_query (ab : AddressBook.t) :
  AddressBook.search_contacts ab "" = Ok (Dict.values ab).
Proof.
  unfold AddressBook.search_contacts.
  assert (H : forall contacts results,
             AddressBook.search_loop "" contacts results
             = Ok (results ++ contacts)%list).
  { induction contacts as [|c contacts IH]; intros results;
      cbn [AddressBook.search_loop].
    - rewrite app_nil_r. reflexivity.
    - assert (Hm : AddressBook.matches "" c = Ok true).
      { unfold AddressBook.matches. destruct (Rec.name c); reflexivity. }
      rewrite Hm. cbn [bind]. rewrite IH, <- app_assoc. reflexivity. }
  apply (H (Dict.values ab) []).
Qed.

(** ** Letter case *)

Lemma stableb_stable (d : Z) : stableb d = true -> stable d.
Proof.
  unfold stableb, stable. intros H. apply andb_true_iff in H.
  destruct H as [H1 H2]. apply negb_true_iff, Z.eqb_neq in H1.
  split; [exact H1|].
  destruct (Unicode.lower_full d) as [|d' [|x l]]; try discriminate H2.
  apply Z.eqb_eq in H2. subst d'. reflexivity.
Qed.

Lemma runs_ok : forallb run_ok Unicode.LOWER = true.
Proof. vm_compute. reflexivity. Qed.

Lemma in_run_member (c : Z) (run : Z * Z * Z * Z) :
  0 < snd (fst run) -> Unicode.in_run c run = true -> In c (run_members run).
Proof.
  destruct run as [[[lo hi] step] delta]. cbn [fst snd]. intros Hs H.
  unfold Unicode.in_run in H. apply andb_true_iff in H. destruct H as [H H3].
  apply andb_true_iff in H. destruct H as [H1 H2].
  apply Z.leb_le in H1, H2. apply Z.eqb_eq in H3.
  unfold run_members. apply in_map_iff.
  exists (Z.to_nat ((c - lo) / step)). split.
  - rewrite Z2Nat.id by (apply Z.div_pos; lia).
    pose proof (Z.div_mod (c - lo) step ltac:(lia)) as E. lia.
  - apply in_seq. split; [lia|].
    assert ((c - lo) / step <= (hi - lo) / step)
      by (apply Z.div_le_mono; lia).
    assert (0 <= (c - lo) / step) by (apply Z.div_pos; lia).
    lia.
Qed.

Lemma lower_full_run (c : Z) :
  c <> 304 ->
  Unicode.lower_full c = [c]
  \/ exists lo hi step delta,
       In (lo, hi, step, delta) Unicode.LOWER
       /\ Unicode.in_run c (lo, hi, step, delta) = true
       /\ Unicode.lower_full c = [c + delta].
Proof.
  intros H. unfold Unicode.lower_full.
  replace (c =? 304) with false by (symmetry; apply Z.eqb_neq; exact H).
  destruct (find (Unicode.in_run c) Unicode.LOWER) as [[[[lo hi] step] delta]|]
    eqn:Hf; [|left; reflexivity].
  right. apply find_some in Hf. destruct Hf as [Hin Hrun].
  exists lo, hi, step, delta. repeat split; assumption.
Qed.

Lemma run_ok_in (run : Z * Z * Z * Z) :
  In run Unicode.LOWER -> run_ok run = true.
Proof. apply (proj1 (forallb_forall run_ok Unicode.LOWER) runs_ok). Qed.

(** What [lower_full] gives stays as it is when lowered again, and is no
    capital sigma. *)
Lemma lower_full_stable (c : Z) :
  c <> 931 -> Forall stable (Unicode.lower_full c).
Proof.
  intros Hs. destruct (Z.eq_dec c 304) as [->|H304].
  { change (Unicode.lower_full 304) with [105; 775].
    constructor; [|constructor; [|constructor]];
      apply stableb_stable; vm_compute; reflexivity. }
  destruct (lower_full_run c H304) as [E | (lo & hi & step & delta & Hin & Hrun & E)].
  - rewrite E. constructor; [split; assumption | constructor].
  - rewrite E. constructor; [|constructor]. apply stableb_stable.
    pose proof (run_ok_in _ Hin) as Hok. unfold run_ok in Hok.
    apply andb_true_iff in Hok. destruct Hok as [Hok Hall].
    apply andb_true_iff in Hok. destruct Hok as [Hok _].
    apply andb_true_iff in Hok. destruct Hok as [Hstep _].
    apply Z.ltb_lt in Hstep.
    apply (proj1 (forallb_forall _ _) Hall c).
    apply in_run_member; [exact Hstep | exact Hrun].
Qed.

Lemma lower_full_code_points (c : Z) :
  code_point c -> Forall code_point (Unicode.lower_full c).
Proof.
  unfold code_point. intros Hc. destruct (Z.eq_dec c 304) as [->|H304].
  { change (Unicode.lower_full 304) with [105; 775].
    constructor; [lia | constructor; [lia | constructor]]. }
  destruct (lower_full_run c H304) as [E | (lo & hi & step & delta & Hin & Hrun & E)];
    rewrite E; (constructor; [|constructor]); [exact Hc|]. split.
  - pose proof (run_ok_in _ Hin) as Hok. unfold run_ok in Hok.
    apply andb_true_iff in Hok. destruct Hok as [Hok _].
    apply andb_true_iff in Hok. destruct Hok as [Hok _].
    apply andb_true_iff in Hok. destruct Hok as [_ Hlo].
    apply Z.leb_le in Hlo.
    unfold Unicode.in_run in Hrun. apply andb_true_iff in Hrun.
    destruct Hrun as [Hrun _]. apply andb_true_iff in Hrun.
    destruct Hrun as [H1 _]. apply Z.leb_le in H1. lia.
  - pose proof (run_ok_in _ Hin) as Hok. unfold run_ok in Hok.
    apply andb_true_iff in Hok. destruct Hok as [Hok _].
    apply andb_true_iff in Hok. destruct Hok as [_ Hhi].
    apply Z.leb_le in Hhi.
    unfold Unicode.in_run in Hrun. apply andb_true_iff in Hrun.
    destruct Hrun as [Hrun _]. apply andb_true_iff in Hrun.
    destruct Hrun as [_ H2]. apply Z.leb_le in H2. lia.
Qed.

Lemma lower_stable (cs : list Z) : forall before : list Z,
  Forall stable (Unicode.lower before cs).
Proof.
  induction cs as [|c cs IH]; intros before; cbn [Unicode.lower];
    [constructor|].
  apply Forall_app. split; [|apply IH].
  destruct (Z.eqb_spec c 931) as [->|Hc]; [|apply lower_full_stable, Hc].
  destruct (Unicode.cased_next before && negb (Unicode.cased_next cs));
    (constructor; [|constructor]); apply stableb_stable; vm_compute;
    reflexivity.
Qed.

Lemma lower_of_stable (cs : list Z) : forall before : list Z,
  Forall stable cs -> Unicode.lower before cs = cs.
Proof.
  induction cs as [|c cs IH]; intros before H; [reflexivity|].
  inversion H as [|c' cs' [Hs Hc] Hcs]; subst. cbn [Unicode.lower].
  replace (c =? 931) with false by (symmetry; apply Z.eqb_neq; exact Hs).
  rewrite Hc, IH by exact Hcs. reflexivity.
Qed.

Lemma lower_code_points (cs : list Z) : forall before : list Z,
  Forall code_point cs -> Forall code_point (Unicode.lower before cs).
Proof.
  induction cs as [|c cs IH]; intros before H; cbn [Unicode.lower];
    [constructor|].
  inversion H as [|c' cs' Hc Hcs]; subst.
  apply Forall_app. split; [|apply IH, Hcs].
  destruct (c =? 931); [|apply lower_full_code_points, Hc].
  destruct (Unicode.cased_next before && negb (Unicode.cased_next cs));
    (constructor; [|constructor]); unfold code_point; lia.
Qed.

Lemma lower_twice (s : string) : Str.lower (Str.lower s) = Str.lower s.
Proof.
  unfold Str.lower. rewrite chars_text.
  - rewrite lower_of_stable; [reflexivity | apply lower_stable].
  - apply lower_code_points, chars_code_points.
Qed.

(** X10.  The loop reads a command line without regard to the case of its
    letters: the line and the line in small letters do the same. *)
Theorem step_ignores_case (w : world) (line : string) (stdin : list string) :
  step w (line :: stdin) = step w (Str.lower line :: stdin).
Proof. unfold step. rewrite lower_twice. reflexivity. Qed.

(** ** What [change_phone] answers *)

(** X11.  The answers of [change_phone], case by case.  The book changes in the
    last case only, and there only the first phone of the record does. *)
Theorem change_phone_table (ab : AddressBook.t) (name phone : string) :
  change_phone ab name phone
  = match Dict.get name ab with
    | None => (ab, PStr (not_found name))
    | Some r =>
        match phone with
        | EmptyString => (ab, PStr "Phone is missing")
        | _ =>
            match Rec.phones r with
            | [] => (ab, PStr "Invalid input")
            | old :: rest =>
                match Phone.validate_phone (Some phone) with
                | Ok true =>
                    (Dict.set name
                       (Rec.mk (Rec.name r) (Some phone :: rest) (Rec.birthday r))
                       ab,
                     PStr "Phone number updated")
                | _ => (ab, PStr Phone.msg)
                end
            end
        end
    end.
Proof.
  unfold change_phone, change_phone_body, Dict.mem, getitem, first_phone.
  destruct (Dict.get name ab) as [r|]; [|reflexivity].
  destruct phone as [|c s]; [reflexivity|]. cbn [bind].
  destruct (Rec.phones r) as [|old rest] eqn:Hp; [reflexivity|]. cbn [bind].
  unfold Rec.edit_phone. rewrite Hp. cbn [Rec.replace_first].
  rewrite (proj2 (opt_eqb_eq old old) eq_refl).
  unfold Phone.set_value.
  destruct (Phone.validate_phone (Some (String c s))) as [[|]|e] eqn:Hv;
    cbn [bind]; try reflexivity.
  discriminate Hv.
Qed.

(** ** What [strptime] takes, and what [validate_birthday] makes of it *)

Lemma dashless_app (x y : string) :
  dashless x = true -> dashless y = true -> dashless (x ++ y) = true.
Proof.
  unfold dashless. induction x as [|c x IH]; [auto|]. cbn [append Str.all].
  rewrite !andb_true_iff. intros [Hc Hx] Hy. split; [exact Hc | exact (IH Hx Hy)].
Qed.

Lemma append_assoc' (a b c : string) : (a ++ b) ++ c = a ++ b ++ c.
Proof. induction a as [|x a IH]; [reflexivity|]. simpl. rewrite IH. reflexivity. Qed.

Lemma one_sound (p : ascii -> bool) :
  p "-"%char = false -> piece_sound (Datetime.one p).
Proof.
  intros Hp s x rest H. unfold Datetime.one in H.
  destruct s as [|c s]; [discriminate H|].
  destruct (p c) eqn:Hc; [|discriminate H].
  injection H as <- <-. split; [reflexivity|].
  unfold dashless. cbn [Str.all]. rewrite andb_true_r.
  destruct (Ascii.eqb_spec c "-") as [->|_]; [congruence | reflexivity].
Qed.

Lemma high_dashless (x : string) : Str.all high x = true -> dashless x = true.
Proof.
  unfold dashless. induction x as [|b x IH]; [reflexivity|]. cbn [Str.all].
  rewrite !andb_true_iff. intros [Hb Hx]. split; [|exact (IH Hx)].
  destruct (Ascii.eqb_spec b "-") as [->|_]; [discriminate Hb | reflexivity].
Qed.

Lemma one_char_sound (p : Z -> bool) :
  p 45 = false -> piece_sound (Datetime.one_char p).
Proof.
  intros Hp s x rest H. unfold Datetime.one_char in H.
  destruct (Str.uncons s) as [[[c x0] rest0]|] eqn:Hu; [|discriminate H].
  destruct (p c) eqn:Hc; [|discriminate H].
  injection H as <- <-. apply uncons_inv in Hu.
  destruct Hu as (-> & _ & Hx). split; [reflexivity|].
  destruct Hx as [(b & -> & _ & ->) | [Hh _]]; [|exact (high_dashless _ Hh)].
  unfold dashless. cbn [Str.all]. rewrite andb_true_r.
  destruct (Ascii.eqb_spec b "-") as [->|_]; [|reflexivity].
  change (Str.code "-") with 45 in Hc. congruence.
Qed.

Lemma seq_sound (a b : Datetime.piece) :
  piece_sound a -> piece_sound b -> piece_sound (Datetime.seq a b).
Proof.
  intros Ha Hb s x rest H. unfold Datetime.seq in H.
  destruct (a s) as [[x1 s1]|] eqn:H1; [|discriminate H].
  destruct (b s1) as [[x2 s2]|] eqn:H2; [|discriminate H].
  injection H as <- <-.
  destruct (Ha _ _ _ H1) as [-> Hd1]. destruct (Hb _ _ _ H2) as [-> Hd2].
  split; [symmetry; apply append_assoc' | apply dashless_app; assumption].
Qed.

Ltac sound_pieces :=
  repeat first [ apply Forall_nil | apply Forall_cons | apply seq_sound
               | apply one_sound; reflexivity
               | apply one_char_sound; vm_compute; reflexivity ].

Lemma re_Y_sound : piece_sound Datetime.re_Y.
Proof. unfold Datetime.re_Y, Datetime.digit. sound_pieces. Qed.

Lemma re_m_sound : Forall piece_sound Datetime.re_m.
Proof. unfold Datetime.re_m, Datetime.lit, Datetime.digit. sound_pieces. Qed.

Lemma re_d_sound : Forall piece_sound Datetime.re_d.
Proof. unfold Datetime.re_d, Datetime.lit, Datetime.digit. sound_pieces. Qed.

Lemma alt_inv {A : Type} (ps : list Datetime.piece)
  (k : string -> string -> option A) (s : string) (r : A) :
  Forall piece_sound ps -> Datetime.alt ps k s = Some r ->
  exists x rest, s = x ++ rest /\ dashless x = true /\ k x rest = Some r.
Proof.
  intros Hps. induction Hps as [|p ps Hp _ IH]; cbn [Datetime.alt];
    [discriminate|].
  destruct (p s) as [[x rest]|] eqn:H1; [|exact IH].
  destruct (k x rest) as [r'|] eqn:H2; [|exact IH].
  intros H. injection H as <-. destruct (Hp _ _ _ H1) as [-> Hd].
  exists x, rest. repeat split; assumption.
Qed.

(** What the expression has matched is the text, cut at its two dashes. *)
Lemma re_match_inv (s Y m d tail : string) :
  Datetime.re_match s = Some (Y, m, d, tail) ->
  s = Y ++ "-" ++ m ++ "-" ++ d ++ tail
  /\ dashless Y = true /\ dashless m = true /\ dashless d = true.
Proof.
  unfold Datetime.re_match. intros H.
  destruct (Datetime.re_Y s) as [[Y0 r0]|] eqn:HY; [|discriminate H].
  destruct (re_Y_sound _ _ _ HY) as [-> HdY].
  destruct r0 as [|c s1]; [discriminate H|].
  destruct c as [[] [] [] [] [] [] [] []]; try discriminate H.
  apply (alt_inv _ _ _ _ re_m_sound) in H.
  destruct H as (xm & s2 & -> & Hdm & H).
  destruct s2 as [|c s3]; [discriminate H|].
  destruct c as [[] [] [] [] [] [] [] []]; try discriminate H.
  apply (alt_inv _ _ _ _ re_d_sound) in H.
  destruct H as (xd & t & -> & Hdd & H). injection H as <- <- <- <-.
  repeat split; assumption.
Qed.

Lemma split_on_dashless (x s : string) (cur : list ascii) :
  dashless x = true ->
  Str.split_on_aux "-" (x ++ s) cur
  = Str.split_on_aux "-" s (List.rev (list_ascii_of_string x) ++ cur).
Proof.
  unfold dashless. revert cur. induction x as [|c x IH]; intros cur H;
    [reflexivity|].
  cbn [Str.all] in H. apply andb_true_iff in H. destruct H as [Hc Hx].
  cbn [append Str.split_on_aux list_ascii_of_string List.rev].
  destruct (Ascii.eqb c "-"); [discriminate Hc|].
  rewrite (IH (c :: cur) Hx), <- app_assoc. reflexivity.
Qed.

Lemma rev_string_rev (x : string) :
  Str.rev_string (List.rev (list_ascii_of_string x) ++ []) = x.
Proof.
  unfold Str.rev_string. rewrite app_nil_r, List.rev_involutive.
  apply string_of_list_ascii_of_string.
Qed.

Lemma split_on_date (Y m d : string) :
  dashless Y = true -> dashless m = true -> dashless d = true ->
  Str.split_on "-" (Y ++ "-" ++ m ++ "-" ++ d ++ "") = [Y; m; d].
Proof.
  intros HY Hm Hd. unfold Str.split_on.
  rewrite (split_on_dashless Y _ [] HY).
  cbn [append Str.split_on_aux]. rewrite Ascii.eqb_refl, rev_string_rev.
  rewrite (split_on_dashless m _ [] Hm).
  cbn [append Str.split_on_aux]. rewrite Ascii.eqb_refl, rev_string_rev.
  rewrite (split_on_dashless d "" [] Hd).
  cbn [Str.split_on_aux]. rewrite rev_string_rev. reflexivity.
Qed.

Lemma make_day_le_31 (y m d : Z) (t : Datetime.datetime) :
  Datetime.make y m d = Ok t -> d <= 31.
Proof.
  unfold Datetime.make. intros H.
  destruct ((1 <=? y) && (y <=? 9999)); [|discriminate H].
  destruct ((1 <=? m) && (m <=? 12)); [|discriminate H].
  destruct ((1 <=? d) && (d <=? Datetime.days_in_month y m)) eqn:Hd;
    [|discriminate H].
  apply andb_true_iff in Hd. destruct Hd as [_ Hd]. apply Z.leb_le in Hd.
  unfold Datetime.days_in_month in Hd.
  destruct (m =? 2); [destruct (Datetime.is_leap y); lia|].
  destruct ((m =? 4) || (m =? 6) || (m =? 9) || (m =? 11)); lia.
Qed.

(** What [strptime] took apart: the text is the three groups with a dash
    between them, and the date is made of the numbers [int] reads. *)
Lemma strptime_inv (b : string) (dt : Datetime.datetime) :
  Datetime.strptime b = Ok dt ->
  exists Y m d y mo dd,
    b = Y ++ "-" ++ m ++ "-" ++ d ++ ""
    /\ dashless Y = true /\ dashless m = true /\ dashless d = true
    /\ Str.int Y = Ok y /\ Str.int m = Ok mo /\ Str.int d = Ok dd
    /\ Datetime.make y mo dd = Ok dt.
Proof.
  unfold Datetime.strptime. intros H.
  destruct (Datetime.re_match b) as [[[[Y m] d] tail]|] eqn:Hre;
    [|discriminate H].
  destruct tail; [|discriminate H].
  destruct (Str.int Y) as [y|] eqn:HY; [|discriminate H].
  destruct (Str.int m) as [mo|] eqn:Hm; [|discriminate H].
  destruct (Str.int d) as [dd|] eqn:Hd; [|discriminate H].
  cbn [bind] in H. apply re_match_inv in Hre.
  destruct Hre as (Hb & HdY & Hdm & Hdd).
  exists Y, m, d, y, mo, dd. repeat split; assumption.
Qed.

(** X12.  [validate_birthday] answers on every string, and the answer is true
    exactly when [strptime] takes the string and the year of the date is
    between 1900 and 2100: its tests of month and day never decide. *)
Theorem validate_birthday_decides (b : string) :
  Birthday.validate_birthday (Some b)
  = Ok match Datetime.strptime b with
       | Ok dt => (1900 <=? Datetime.year dt) && (Datetime.year dt <=? 2100)
       | Raise _ => false
       end.
Proof.
  unfold Birthday.validate_birthday, Birthday.validate_birthday_body.
  destruct (Datetime.strptime b) as [dt|e] eqn:Hs; cbn [bind].
  - apply strptime_inv in Hs.
    destruct Hs as (Y & m & d & y & mo & dd & -> & HdY & Hdm & Hdd
                    & HY & Hm & Hd & Hmake).
    rewrite (split_on_date Y m d HdY Hdm Hdd).
    unfold Birthday.unpack3. cbn [Birthday.take_ints].
    rewrite HY, Hm, Hd. cbn [bind].
    pose proof (make_day_le_31 _ _ _ _ Hmake) as H31.
    apply make_fields in Hmake. destruct Hmake as (-> & Hmo & Hdd1).
    cbn [Datetime.year]. f_equal.
    replace (1 <=? mo) with true by (symmetry; apply Z.leb_le; lia).
    replace (mo <=? 12) with true by (symmetry; apply Z.leb_le; lia).
    replace (1 <=? dd) with true by (symmetry; apply Z.leb_le; lia).
    replace (dd <=? 31) with true by (symmetry; apply Z.leb_le; lia).
    rewrite !andb_true_r. reflexivity.
  - destruct (strptime_raises_ValueError _ _ Hs) as [msg ->]. reflexivity.
Qed.

(** ** What [add_contact] stores *)

(** A valid birthday has a dash and is taken by [strptime]. *)
Lemma valid_birthday_parses (b : string) :
  Birthday.validate_birthday (Some b) = Ok true ->
  Str.contains "-" b = true /\ parses b = true.
Proof.
  unfold Birthday.validate_birthday, Birthday.validate_birthday_body, parses.
  destruct (Datetime.strptime b) as [dt|e] eqn:Hs; cbn [bind].
  - intros _. split; [|reflexivity].
    apply strptime_inv in Hs. destruct Hs as (Y & m & d & _ & _ & _ & -> & _).
    apply contains_substring. exists Y, (m ++ "-" ++ d ++ ""). reflexivity.
  - destruct (strptime_raises_ValueError _ _ Hs) as [msg ->]. discriminate.
Qed.

(** X13.  [add_contact] with a valid phone, and with a valid birthday behind it
    or none, stores under the name a record of that one phone and that
    birthday.  The record takes the place of whatever the name had before:
    phones entered earlier under the name are gone. *)
Theorem add_contact_stores (ab : AddressBook.t) (name phone : string)
  (birthday : option string) :
  Phone.validate_phone (Some phone) = Ok true ->
  match birthday with
  | Some b => Birthday.validate_birthday (Some b) = Ok true
  | None => True
  end ->
  add_contact ab name (phone :: match birthday with
                                | Some b => [b]
                                | None => []
                                end)
  = (AddressBook.add_record ab (Rec.mk name [Some phone] birthday), added).
Proof.
  intros Hphone Hb.
  pose proof (valid_phone_no_dash phone Hphone) as Hdash.
  destruct birthday as [b|].
  - destruct (valid_birthday_parses b Hb) as [Hd Hp].
    rewrite (add_contact_sorted _ _ _ [phone] (Some b))
      by (rewrite sort_args_phone by exact Hdash;
          rewrite sort_args_date by assumption; reflexivity).
    rewrite init_accepted by (right; exact Hb).
    cbn [bind List.map Rec.add_phones].
    rewrite (add_phone_accepted _ phone Hphone). reflexivity.
  - rewrite (add_contact_sorted _ _ _ [phone] None)
      by (rewrite sort_args_phone by exact Hdash; reflexivity).
    rewrite init_accepted by (left; reflexivity).
    cbn [bind List.map Rec.add_phones].
    rewrite (add_phone_accepted _ phone Hphone). reflexivity.
Qed.

Lemma add_contact_stores_witness :
  add_contact three_contacts "bob" ["9999999999"; "1990-05-20"]
  = (AddressBook.add_record three_contacts
       (Rec.mk "bob" [Some "9999999999"] (Some "1990-05-20")), added)
  /\ AddressBook.find
       (AddressBook.add_record three_contacts
          (Rec.mk "bob" [Some "9999999999"] (Some "1990-05-20"))) "bob"
     = Some (Rec.mk "bob" [Some "9999999999"] (Some "1990-05-20")).
Proof.
  split; [|reflexivity].
  apply (add_contact_stores three_contacts "bob" "9999999999"
           (Some "1990-05-20")); reflexivity.
Defined.

Lemma add_phones_outcome (l : list string) : forall r : Rec.t,
  (exists r', Rec.add_phones r (List.map Some l) = Ok r')
  \/ Rec.add_phones r (List.map Some l) = Raise (ValueError Phone.msg).
Proof.
  induction l as [|p l IH]; intros r; cbn [List.map Rec.add_phones].
  - left. exists r. reflexivity.
  - unfold Rec.add_phone, Phone.set_value.
    destruct (Phone.validate_phone (Some p)) as [[|]|e] eqn:Hv; cbn [bind].
    + apply IH.
    + right. reflexivity.
    + discriminate Hv.
Qed.

(** X14.  [add_contact] stores a record or changes nothing: it answers that the
    contact was added, and then the book is the old one with one valid
    record put under the name, or it answers one of the two validation
    messages, and then the book is the old one. *)
Theorem add_contact_all_or_nothing (ab : AddressBook.t) (name : string)
  (args : list string) :
  (exists r, Rec.name r = name /\ valid_record r
             /\ add_contact ab name args = (AddressBook.add_record ab r, added))
  \/ add_contact ab name args = (ab, PStr Birthday.msg)
  \/ add_contact ab name args = (ab, PStr Phone.msg).
Proof.
  unfold add_contact, add_contact_body.
  destruct (sort_args args [] None) as [phones birthday].
  destruct (Rec.init name birthday) as [r0|e] eqn:H0; cbn [bind].
  - destruct (add_phones_outcome phones r0) as [[r Hr]|Hr]; rewrite Hr.
    + left. exists r. apply init_valid in H0. destruct H0 as [-> Hb].
      apply add_phones_valid in Hr. destruct Hr as (Hn & Hbd & Hp).
      cbn [Rec.name Rec.birthday Rec.phones] in *.
      split; [exact Hn|]. split; [|reflexivity].
      split; [apply Hp; constructor | rewrite Hbd; exact Hb].
    + right. right. reflexivity.
  - right. left. unfold Rec.init, Birthday.set_value in H0.
    destruct birthday as [b|]; [|discriminate H0].
    destruct (validate_birthday_answers b) as [[|] Hv]; rewrite Hv in H0;
      cbn [bind] in H0; [discriminate H0|].
    injection H0 as <-. reflexivity.
Qed.

(** ** Saving and loading *)






(** ** The range of [days_to_birthday] *)

Lemma make_day_in_month (y m d : Z) (t : Datetime.datetime) :
  Datetime.make y m d = Ok t -> d <= Datetime.days_in_month y m.
Proof.
  unfold Datetime.make. intros H.
  destruct ((1 <=? y) && (y <=? 9999)); [|discriminate H].
  destruct ((1 <=? m) && (m <=? 12)); [|discriminate H].
  destruct ((1 <=? d) && (d <=? Datetime.days_in_month y m)) eqn:Hd;
    [|discriminate H].
  apply andb_true_iff in Hd. destruct Hd as [_ Hd]. apply Z.leb_le in Hd.
  exact Hd.
Qed.

Lemma next_year_same_day (y m d : Z) :
  Datetime.ymd2ord (y + 1) m d - Datetime.ymd2ord y m d <= 366.
Proof.
  unfold Datetime.ymd2ord, Datetime.days_before_month.
  rewrite days_before_next_year.
  generalize (List.nth (Z.to_nat (m - 1)) Datetime.DAYS_BEFORE_MONTH 0).
  intros z.
  destruct (2 <? m); destruct (Datetime.is_leap y);
    destruct (Datetime.is_leap (y + 1)); cbn [andb]; lia.
Qed.

(** X16.  On a wall clock [days_to_birthday], when it answers with a number,
    answers with one from 0 to 365. *)
Theorem days_to_birthday_range (today : Datetime.datetime) (r : Rec.t) (n : Z) :
  wall_clock today ->
  Rec.days_to_birthday today r = Ok (Some n) -> 0 <= n <= 365.
Proof.
  intros (Hmo & Hday & Hh & Hmi & Hs & Hus) H.
  unfold Rec.days_to_birthday in H.
  destruct (Rec.birthday r) as [[|c value]|]; try discriminate H.
  destruct (Datetime.strptime (String c value)) as [b|e]; [|discriminate H].
  cbn [bind] in H.
  destruct (Datetime.make (Datetime.year today) (Datetime.month b)
              (Datetime.day b)) as [t1|e] eqn:H1; [|discriminate H].
  cbn [bind] in H.
  pose proof (make_day_in_month _ _ _ _ H1) as Hdim.
  apply make_fields in H1. destruct H1 as (-> & Hbm & Hbd).
  pose proof (day_of_year_bound (Datetime.year today) (Datetime.month today)
                (Datetime.day today) Hmo (proj2 Hday)) as Hb.
  pose proof (day_of_year_bound (Datetime.year today) (Datetime.month b)
                (Datetime.day b) Hbm Hdim) as Hb1.
  pose proof (days_before_month_nonneg (Datetime.year today)
                (Datetime.month today) Hmo) as Hn0.
  assert (HD : 0 < Datetime.day_micros) by reflexivity.
  assert (Hmic : 0 <= Datetime.micros_of_day today < Datetime.day_micros).
  { unfold Datetime.micros_of_day, Datetime.day_micros. nia. }
  destruct (Datetime.ltb _ today) eqn:Hlt.
  - destruct (Datetime.make (Datetime.year today + 1) (Datetime.month b)
                (Datetime.day b)) as [t2|e] eqn:H2; [|discriminate H].
    cbn [bind] in H. injection H as <-.
    apply make_fields in H2. destruct H2 as (-> & _ & _).
    unfold Datetime.ltb in Hlt. apply Z.ltb_lt in Hlt.
    pose proof (next_year_same_day (Datetime.year today) (Datetime.month b)
                  (Datetime.day b)) as Hny.
    pose proof (days_before_month_nonneg (Datetime.year today + 1)
                  (Datetime.month b) Hbm) as Hn1.
    unfold Datetime.sub_days.
    unfold Datetime.to_micros, Datetime.micros_of_day in Hlt |- *.
    cbn [Datetime.year Datetime.month Datetime.day Datetime.hour
         Datetime.minute Datetime.second Datetime.microsecond] in Hlt |- *.
    fold (Datetime.micros_of_day today) in Hlt |- *.
    replace ((0 * 60 + 0) * 60 + 0) with 0 in Hlt |- * by reflexivity.
    split.
    + apply Z.div_pos; [|exact HD].
      unfold Datetime.ymd2ord in *. rewrite days_before_next_year. nia.
    + assert (Hlt366 : Datetime.ymd2ord (Datetime.year today + 1)
                         (Datetime.month b) (Datetime.day b)
                       * Datetime.day_micros + (0 * 1000000 + 0)
                       - (Datetime.ymd2ord (Datetime.year today)
                            (Datetime.month today) (Datetime.day today)
                          * Datetime.day_micros + Datetime.micros_of_day today)
                       < Datetime.day_micros * 366) by nia.
      apply Z.div_lt_upper_bound in Hlt366; [lia | exact HD].
  - cbn [bind] in H. injection H as <-.
    unfold Datetime.ltb in Hlt. apply Z.ltb_ge in Hlt.
    unfold Datetime.sub_days.
    unfold Datetime.to_micros, Datetime.micros_of_day in Hlt |- *.
    cbn [Datetime.year Datetime.month Datetime.day Datetime.hour
         Datetime.minute Datetime.second Datetime.microsecond] in Hlt |- *.
    fold (Datetime.micros_of_day today) in Hlt |- *.
    replace ((0 * 60 + 0) * 60 + 0) with 0 in Hlt |- * by reflexivity.
    split.
    + apply Z.div_pos; [lia | exact HD].
    + assert (Hlt366 : Datetime.ymd2ord (Datetime.year today)
                         (Datetime.month b) (Datetime.day b)
                       * Datetime.day_micros + (0 * 1000000 + 0)
                       - (Datetime.ymd2ord (Datetime.year today)
                            (Datetime.month today) (Datetime.day today)
                          * Datetime.day_micros + Datetime.micros_of_day today)
                       < Datetime.day_micros * 366).
      { unfold Datetime.ymd2ord in *.
        destruct (Datetime.is_leap (Datetime.year today)); nia. }
      apply Z.div_lt_upper_bound in Hlt366; [lia | exact HD].
Qed.

Lemma days_to_birthday_range_witness :
  wall_clock (noon 2023 5 19)
  /\ Rec.days_to_birthday (noon 2023 5 19) born_may_20 = Ok (Some 0)
  /\ 0 <= 0 <= 365.
Proof.
  assert (W : wall_clock (noon 2023 5 19)).
  { unfold wall_clock. cbn. lia. }
  split; [exact W|]. split; [reflexivity|].
  exact (days_to_birthday_range (noon 2023 5 19) born_may_20 0 W eq_refl).
Defined.

(** X17.  A birthday on the 29th of February, asked about in a year that is not a
    leap year, has no candidate: [days_to_birthday] raises the [ValueError]
    of [datetime], at any time of that year. *)
Theorem days_to_birthday_leap_day (today : Datetime.datetime) (r : Rec.t)
  (b : string) (born : Datetime.datetime) :
  Rec.birthday r = Some b ->
  Datetime.strptime b = Ok born ->
  Datetime.month born = 2 -> Datetime.day born = 29 ->
  1 <= Datetime.year today <= 9999 ->
  Datetime.is_leap (Datetime.year today) = false ->
  Rec.days_to_birthday today r
  = Raise (ValueError "day is out of range for month").
Proof.
  intros Hb Hs Hm Hd Hy Hleap. unfold Rec.days_to_birthday. rewrite Hb.
  destruct b as [|c value]; [discriminate Hs|].
  rewrite Hs. cbn [bind]. rewrite Hm, Hd. unfold Datetime.make.
  replace (1 <=? Datetime.year today) with true by (symmetry; apply Z.leb_le; lia).
  replace (Datetime.year today <=? 9999) with true
    by (symmetry; apply Z.leb_le; lia).
  unfold Datetime.days_in_month. rewrite Hleap. reflexivity.
Qed.

Lemma days_to_birthday_leap_day_witness :
  Rec.days_to_birthday (noon 2023 5 20) (Rec.mk "eve" [] (Some "2000-02-29"))
  = Raise (ValueError "day is out of range for month").
Proof.
  apply (days_to_birthday_leap_day (noon 2023 5 20)
           (Rec.mk "eve" [] (Some "2000-02-29")) "2000-02-29"
           (Datetime.mk 2000 2 29 0 0 0 0)); try reflexivity.
  cbn. lia.
Defined.

(** ** Listing the book *)

Lemma str_items_present (l : list (option string)) : forall i : nat,
  Forall (fun p : option string => p <> None) l ->
  Rec.str_items i l = Ok (List.map opt_str l).
Proof.
  induction l as [|p l IH]; intros i H; [reflexivity|].
  inversion H as [|p' l' Hp Hl]; subst.
  destruct p as [s|]; [|congruence].
  cbn [Rec.str_items List.map opt_str]. rewrite (IH (S i) Hl). reflexivity.
Qed.

Lemma to_str_present (r : Rec.t) : present r -> Rec.to_str r = Ok (line_of r).
Proof.
  intros H. unfold Rec.to_str, line_of.
  rewrite (str_items_present _ 0%nat H). reflexivity.
Qed.

Lemma str_records_present (l : list Rec.t) :
  Forall present l -> str_records l = Ok (List.map line_of l).
Proof.
  induction 1 as [|r l Hr Hl IH]; [reflexivity|].
  cbn [str_records List.map]. rewrite (to_str_present r Hr), IH. reflexivity.
Qed.

(** X18.  On a book without cleared phones [show_all_contacts] does not raise: it
    returns the texts of the records, in the order of the book, one to a
    line, or the no-contacts message when the book is empty. *)
Theorem show_all_contacts_lists (ab : AddressBook.t) :
  phones_present ab ->
  show_all_contacts ab
  = Ok match ab with
       | [] => "No contacts found"
       | _ => Str.join newline (List.map line_of (Dict.values ab))
       end.
Proof.
  intros H. unfold show_all_contacts. destruct ab as [|kr ab]; [reflexivity|].
  rewrite (str_records_present _ H). reflexivity.
Qed.

Lemma show_all_contacts_lists_witness :
  phones_present three_contacts
  /\ show_all_contacts three_contacts
     = Ok ("Contact name: bob, phones: 5550001111, birthday: None" ++ newline
           ++ "Contact name: carol, phones: 1112223333, birthday: None" ++ newline
           ++ "Contact name: al555, phones: , birthday: None").
Proof.
  assert (H : phones_present three_contacts).
  { repeat constructor; discriminate. }
  split; [exact H|].
  exact (show_all_contacts_lists three_contacts H).
Defined.

Lemma div_step (idx bs : Z) :
  0 <= idx -> 1 <= bs ->
  (idx + 1) / bs = idx / bs + (if (idx + 1) mod bs =? 0 then 1 else 0).
Proof.
  intros Hi Hb. destruct ((idx + 1) mod bs =? 0) eqn:H.
  - apply Z.eqb_eq in H. Z.div_mod_to_equations. nia.
  - apply Z.eqb_neq in H. Z.div_mod_to_equations. nia.
Qed.

Lemma batch_loop_prints (batch_size total : Z) (lines : list string) :
  1 <= batch_size ->
  forall (idx : Z) (w : world) (stdin : list string),
  0 <= idx -> total = idx + Z.of_nat (List.length lines) ->
  let pauses := match lines with
                | [] => 0
                | _ => (total - 1) / batch_size - idx / batch_size
                end in
  pauses <= Z.of_nat (List.length stdin) ->
  batch_loop batch_size total idx lines w stdin
  = (print_lines lines w, List.skipn (Z.to_nat pauses) stdin, Ok tt).
Proof.
  intros Hbs. induction lines as [|r lines IH]; intros idx w stdin Hidx Htot;
    cbn zeta; intros Hp.
  - reflexivity.
  - cbn [batch_loop print_lines List.fold_left].
    replace (batch_size =? 0) with false by (symmetry; apply Z.eqb_neq; lia).
    cbn [List.length] in Htot.
    pose proof (div_step idx batch_size Hidx Hbs) as Hstep.
    destruct lines as [|r2 lines].
    + cbn [List.length] in Htot.
      replace (idx <? total - 1) with false by (symmetry; apply Z.ltb_ge; lia).
      rewrite andb_false_r. cbn [batch_loop].
      replace (total - 1) with idx by lia.
      rewrite Z.sub_diag. reflexivity.
    + replace (idx <? total - 1) with true
        by (symmetry; apply Z.ltb_lt; cbn [List.length] in Htot; lia).
      rewrite andb_true_r.
      assert (Hmono : (idx + 1) / batch_size <= (total - 1) / batch_size).
      { apply Z.div_le_mono; [lia|]. cbn [List.length] in Htot. lia. }
      specialize (IH (idx + 1) (print (PStr r) w)).
      cbn zeta in IH.
      destruct ((idx + 1) mod batch_size =? 0).
      * destruct stdin as [|x stdin]; [cbn [List.length] in Hp; lia|].
        rewrite (IH stdin) by (cbn [List.length] in *; lia).
        replace (Z.to_nat ((total - 1) / batch_size - idx / batch_size))
          with (S (Z.to_nat ((total - 1) / batch_size
                             - (idx + 1) / batch_size))) by lia.
        reflexivity.
      * rewrite (IH stdin) by (cbn [List.length] in *; lia).
        replace ((idx + 1) / batch_size) with (idx / batch_size) by lia.
        reflexivity.
Qed.

(** X19.  [show_contacts_batch] with a batch size of at least 1, on a book that is
    not empty and has no cleared phone: every record is printed once, in
    the order of the book, and between the batches a line of the console is
    read, as many lines as there are full batches before the last record. *)
Theorem show_contacts_batch_prints (batch_size : Z) (w : world)
  (stdin : list string) :
  1 <= batch_size -> phones_present (book w) -> book w <> [] ->
  let pauses := (Z.of_nat (List.length (book w)) - 1) / batch_size in
  pauses <= Z.of_nat (List.length stdin) ->
  show_contacts_batch batch_size w stdin
  = (print_lines (List.map line_of (Dict.values (book w))) w,
     List.skipn (Z.to_nat pauses) stdin, Ok "").
Proof.
  intros Hbs Hpres Hne. cbn zeta. intros Hp. unfold show_contacts_batch.
  destruct (book w) as [|kr ab] eqn:Hbook; [congruence|].
  rewrite (str_records_present _ Hpres).
  pose proof (batch_loop_prints batch_size
                (Z.of_nat (List.length (List.map line_of (Dict.values (kr :: ab)))))
                (List.map line_of (Dict.values (kr :: ab))) Hbs 0 w stdin
                ltac:(lia) ltac:(lia)) as H.
  cbn zeta in H. unfold Dict.values in H |- *.
  rewrite !List.length_map in H |- *.
  cbn [List.map] in H |- *. rewrite Z.div_0_l, Z.sub_0_r in H by lia.
  rewrite (H Hp). reflexivity.
Qed.

Lemma show_contacts_batch_prints_witness :
  show_contacts_batch 2 (with_book three_contacts world0) ["go"; "exit"]
  = (print_lines (List.map line_of (Dict.values three_contacts))
       (with_book three_contacts world0),
     ["exit"], Ok "").
Proof.
  apply (show_contacts_batch_prints 2 (with_book three_contacts world0)
           ["go"; "exit"]).
  - lia.
  - repeat constructor; discriminate.
  - discriminate.
  - cbn. lia.
Defined.

(** ** What [find_phone] answers *)

(** X20.  The answers of the command [find_phone], case by case: the not-found
    message for a name the book does not hold, the no-phones message for a
    record without phones, and otherwise the phones of the record, all of
    them and in their order. *)
Theorem find_phone_table (ab : AddressBook.t) (name : string) :
  find_phone ab name
  = match Dict.get name ab with
    | None => PStr (not_found name)
    | Some r =>
        match Rec.phones r with
        | [] => PStr ("No phones found for contact '" ++ name ++ "'")
        | phones => PList phones
        end
    end.
Proof.
  unfold find_phone, find_phone_body, Dict.mem, getitem.
  destruct (Dict.get name ab) as [r|]; [|reflexivity]. cbn [bind].
  destruct (Rec.phones r); reflexivity.
Qed.

Lemma find_add_record_witness :
  AddressBook.find (AddressBook.add_record three_contacts two_phones) "dan"
  = Some two_phones
  /\ AddressBook.find (AddressBook.add_record three_contacts two_phones) "bob"
     = AddressBook.find three_contacts "bob".
Proof.
  split.
  - exact (proj1 (find_add_record three_contacts two_phones)).
  - apply (proj2 (find_add_record three_contacts two_phones)). discriminate.
Defined.
